(** * Store-rating application: schema, policies, triggers, view, provisioning

    A shallow embedding of the SQL migration (tables, constraints, row-level
    policies, triggers, the [store_ratings] view), of the provisioning
    endpoint [handler] and of the dashboard operations [fetchStores],
    [handleRatingSubmit], [createStore], [fetchStoreData] and
    [renderStars], followed by the properties proved about them.

    Conventions.  A table is the list of its rows, in insertion order.  A
    UUID is a natural number, a timestamp an integer number of
    microseconds, TEXT a string.  A statement either returns the new
    database or an error; a failed statement leaves the database as it
    was (statement-level atomicity of the engine). *)

From Stdlib Require Import List String ZArith NArith QArith Qround Bool Lia.
From Stdlib Require Import Sorted Permutation.
Import ListNotations.
Local Close Scope Q_scope.
Local Open Scope string_scope.
Local Open Scope list_scope.

(* ================================================================== *)
(** * Schema *)
(* ================================================================== *)

Module Schema.

Definition uuid := N.
Definition timestamptz := Z.
Definition text := string.

(** CREATE TYPE public.app_role AS ENUM (...) *)
Inductive app_role := system_admin | normal_user | store_owner.

Definition app_role_eqb (a b : app_role) : bool :=
  match a, b with
  | system_admin, system_admin => true
  | normal_user, normal_user => true
  | store_owner, store_owner => true
  | _, _ => false
  end.

(** JSON values, as carried by [raw_user_meta_data] and by request
    bodies.  Numbers are restricted to integers. *)
#[warnings="-register-all"]
Inductive json :=
| JNull
| JBool (b : bool)
| JNum (n : Z)
| JStr (s : string)
| JArr (items : list json)
| JObj (fields : list (string * json)).

(** The identity record of the authentication subsystem, restricted to
    the columns the migration reads. [au_email] is nullable there;
    [au_raw_user_meta_data] is a JSON object given by its fields. *)
Record auth_user := {
  au_id : uuid;
  au_email : option text;
  au_raw_user_meta_data : list (string * json)
}.

Record profile := {
  p_id : uuid;
  p_name : text;
  p_email : text;
  p_address : text;
  p_created_at : timestamptz;
  p_updated_at : timestamptz
}.

Record user_role := {
  ur_id : uuid;
  ur_user_id : uuid;
  ur_role : app_role;
  ur_created_at : timestamptz
}.

Record store := {
  s_id : uuid;
  s_owner_id : uuid;
  s_name : text;
  s_email : text;
  s_address : text;
  s_created_at : timestamptz;
  s_updated_at : timestamptz
}.

Record rating := {
  r_id : uuid;
  r_user_id : uuid;
  r_store_id : uuid;
  r_rating : Z;
  r_created_at : timestamptz;
  r_updated_at : timestamptz
}.

Record db := {
  auth_users : list auth_user;
  profiles : list profile;
  user_roles : list user_role;
  stores : list store;
  ratings : list rating
}.

Definition empty_db : db :=
  {| auth_users := []; profiles := []; user_roles := [];
     stores := []; ratings := [] |}.

End Schema.
Import Schema.

(* ================================================================== *)
(** * The derived view [store_ratings] *)
(* ================================================================== *)

Module View.

(** FROM public.stores s LEFT JOIN public.ratings r ON s.id = r.store_id:
    every store paired with each of its ratings, or once with an all-NULL
    right side when it has none. *)
Definition matching (s : store) (rs : list rating) : list rating :=
  filter (fun r => N.eqb (s_id s) (r_store_id r)) rs.

Definition join_rows (s : store) (rs : list rating)
  : list (store * option rating) :=
  match matching s rs with
  | [] => [(s, None)]
  | m :: ms => map (fun r => (s, Some r)) (m :: ms)
  end.

Definition left_join (ss : list store) (rs : list rating)
  : list (store * option rating) :=
  flat_map (fun s => join_rows s rs) ss.

(** GROUP BY s.id, s.name, s.email, s.address, s.owner_id *)
Definition group_key : Type := uuid * text * text * text * uuid.

Definition key_of (s : store) : group_key :=
  (s_id s, s_name s, s_email s, s_address s, s_owner_id s).

Definition group_key_dec (a b : group_key) : {a = b} + {a <> b}.
Proof.
  repeat decide equality; try apply N.eq_dec; apply string_dec.
Defined.

Definition key_eqb (a b : group_key) : bool :=
  if group_key_dec a b then true else false.

Definition group_by (rows : list (store * option rating))
  : list (group_key * list (store * option rating)) :=
  map (fun k => (k, filter (fun row => key_eqb (key_of (fst row)) k) rows))
      (nodup group_key_dec (map (fun row => key_of (fst row)) rows)).

(** Aggregates skip NULL inputs.  AVG over no input is NULL, COUNT is 0.
    AVG over integers is a numeric; it is kept here as the exact
    quotient, before the engine rounds it to its display scale. *)
Definition non_null {A : Type} (l : list (option A)) : list A :=
  flat_map (fun o => match o with Some a => [a] | None => [] end) l.

Definition sum_Z (l : list Z) : Z := fold_right Z.add 0%Z l.

Definition AVG (l : list (option Z)) : option Q :=
  match non_null l with
  | [] => None
  | x :: xs => Some (inject_Z (sum_Z (x :: xs))
                     / inject_Z (Z.of_nat (List.length (x :: xs))))%Q
  end.

Definition COUNT {A : Type} (l : list (option A)) : Z :=
  Z.of_nat (List.length (non_null l)).

Definition COALESCE {A : Type} (o : option A) (d : A) : A :=
  match o with Some a => a | None => d end.

Record store_ratings_row := {
  sr_id : uuid;
  sr_name : text;
  sr_email : text;
  sr_address : text;
  sr_owner_id : uuid;
  average_rating : Q;
  total_ratings : Z
}.

Definition aggregate (g : group_key * list (store * option rating))
  : store_ratings_row :=
  let '(id, name, email, address, owner_id) := fst g in
  {| sr_id := id; sr_name := name; sr_email := email;
     sr_address := address; sr_owner_id := owner_id;
     average_rating :=
       COALESCE (AVG (map (fun row => option_map r_rating (snd row)) (snd g))) 0%Q;
     total_ratings :=
       COUNT (map (fun row => option_map r_id (snd row)) (snd g)) |}.

(** The query has no ORDER BY, so the engine may return the rows in any
    order; they are listed here by first occurrence of their group, and
    the position of a row in the list carries no meaning. *)
Definition store_ratings (d : db) : list store_ratings_row :=
  map aggregate (group_by (left_join (stores d) (ratings d))).

(** The arithmetic mean the view is compared with. *)
Definition mean (l : list Z) : Q :=
  (inject_Z (sum_Z l) / inject_Z (Z.of_nat (List.length l)))%Q.

(** The arithmetic mean (r1 + ... + rn) / n as the specification words
    it, written without the aggregates above: the ratings are added up
    from the left, starting from 0, and the total is divided by their
    number. *)
Definition arithmetic_mean (l : list Z) : Q :=
  (inject_Z (fold_left Z.add l 0%Z) / inject_Z (Z.of_nat (List.length l)))%Q.

End View.
Import View.

(* ================================================================== *)
(** * The engine: errors, callers, statement environment *)
(* ================================================================== *)

Module Engine.

(** The error classes a statement of this schema can raise. *)
Inductive pg_error :=
| unique_violation (constraint : string)
| check_violation (constraint : string)
| not_null_violation (column : string)
| foreign_key_violation (constraint : string)
| rls_violation (table : string)
| invalid_enum_value (type_name : string).

Inductive result (A : Type) :=
| Ok (a : A)
| Err (e : pg_error).
Arguments Ok {A} a.
Arguments Err {A} e.

Definition bind {A B : Type} (r : result A) (k : A -> result B) : result B :=
  match r with
  | Ok a => k a
  | Err e => Err e
  end.

Definition guard (b : bool) (e : pg_error) : result unit :=
  if b then Ok tt else Err e.

Definition is_unique_violation (e : pg_error) : bool :=
  match e with unique_violation _ => true | _ => false end.

(** Who issues a statement: the anonymous key, a signed-in identity, or
    the service-role key, which is not subject to row-level security. *)
Inductive caller :=
| Anon
| Authenticated (uid : uuid)
| ServiceRole.

(** auth.uid() *)
Definition auth_uid (c : caller) : option uuid :=
  match c with Authenticated u => Some u | _ => None end.

Definition bypass_rls (c : caller) : bool :=
  match c with ServiceRole => true | _ => false end.

(** SQL equality against a possibly NULL left side: NULL = x is not true. *)
Definition uid_is (o : option uuid) (x : uuid) : bool :=
  match o with Some u => N.eqb u x | None => false end.

(** What the engine supplies to one statement or transaction: the value
    of now() and the value gen_random_uuid() draws. *)
Record stmt_env := {
  now : timestamptz;
  gen_random_uuid : uuid
}.

(** Functions of the platform that the repository calls but does not
    define: the text rendering of a JSON value that is not a string (used
    by the [->>] operator) and JavaScript's JSON.parse. *)
Class Runtime := {
  jsonb_out : json -> text;
  JSON_parse : string -> option json
}.

Definition set_auth_users (d : db) (l : list auth_user) : db :=
  {| auth_users := l; profiles := profiles d; user_roles := user_roles d;
     stores := stores d; ratings := ratings d |}.
Definition set_profiles (d : db) (l : list profile) : db :=
  {| auth_users := auth_users d; profiles := l; user_roles := user_roles d;
     stores := stores d; ratings := ratings d |}.
Definition set_user_roles (d : db) (l : list user_role) : db :=
  {| auth_users := auth_users d; profiles := profiles d; user_roles := l;
     stores := stores d; ratings := ratings d |}.
Definition set_stores (d : db) (l : list store) : db :=
  {| auth_users := auth_users d; profiles := profiles d;
     user_roles := user_roles d; stores := l; ratings := ratings d |}.
Definition set_ratings (d : db) (l : list rating) : db :=
  {| auth_users := auth_users d; profiles := profiles d;
     user_roles := user_roles d; stores := stores d; ratings := l |}.

Definition mem (x : uuid) (l : list uuid) : bool := existsb (N.eqb x) l.

(** Duplicate-freeness of a key column list, as a unique index checks it. *)
Fixpoint distinct {K : Type} (eqb : K -> K -> bool) (l : list K) : bool :=
  match l with
  | [] => true
  | k :: ks => negb (existsb (eqb k) ks) && distinct eqb ks
  end.

Definition pair_eqb (a b : uuid * uuid) : bool :=
  N.eqb (fst a) (fst b) && N.eqb (snd a) (snd b).

Definition user_role_key (ur : user_role) : uuid * app_role :=
  (ur_user_id ur, ur_role ur).
Definition user_role_key_eqb (a b : uuid * app_role) : bool :=
  N.eqb (fst a) (fst b) && app_role_eqb (snd a) (snd b).

Definition rating_key (r : rating) : uuid * uuid := (r_user_id r, r_store_id r).

End Engine.
Import Engine.

Notation "x <- e ;; k" := (bind e (fun x => k))
  (at level 61, e at next level, right associativity).
Notation "e ;;; k" := (bind e (fun _ => k))
  (at level 61, right associativity).

(* ================================================================== *)
(** * Authorization functions and row-level policies *)
(* ================================================================== *)

Module Policies.

(** public.has_role(_user_id, _role): EXISTS over user_roles.  A NULL
    _user_id matches no row. *)
Definition has_role (d : db) (_user_id : option uuid) (_role : app_role) : bool :=
  existsb (fun ur => uid_is _user_id (ur_user_id ur)
                     && app_role_eqb (ur_role ur) _role)
          (user_roles d).

(** public.get_current_user_role(): SELECT role ... LIMIT 1, without
    ORDER BY.  Which of several rows of the caller is returned is left to
    the engine; the first in table order is taken here, and what is
    proved about the function holds for any choice among the caller's
    rows. *)
Definition get_current_user_role (d : db) (c : caller) : option app_role :=
  match filter (fun ur => uid_is (auth_uid c) (ur_user_id ur)) (user_roles d) with
  | [] => None
  | ur :: _ => Some (ur_role ur)
  end.

(** Policies of one command on one table are combined with OR; a FOR ALL
    policy counts for every command, and a USING clause without WITH CHECK
    is also the check of the new row. *)

(** profiles *)
Definition profiles_select (d : db) (c : caller) (row : profile) : bool :=
  uid_is (auth_uid c) (p_id row)                     (* view their own profile *)
  || has_role d (auth_uid c) system_admin.           (* admins view all *)

Definition profiles_update (d : db) (c : caller) (row : profile) : bool :=
  uid_is (auth_uid c) (p_id row)
  || has_role d (auth_uid c) system_admin.

(** The INSERT checks below do not read the new row. *)
Definition profiles_insert (d : db) (c : caller) : bool :=
  has_role d (auth_uid c) system_admin.

(** user_roles *)
Definition user_roles_select (d : db) (c : caller) (row : user_role) : bool :=
  uid_is (auth_uid c) (ur_user_id row)
  || has_role d (auth_uid c) system_admin
  || has_role d (auth_uid c) system_admin.           (* manage all: FOR ALL *)

Definition user_roles_update (d : db) (c : caller) (row : user_role) : bool :=
  has_role d (auth_uid c) system_admin.

Definition user_roles_insert (d : db) (c : caller) : bool :=
  has_role d (auth_uid c) system_admin.

(** stores *)
Definition stores_select (d : db) (c : caller) (row : store) : bool :=
  true || has_role d (auth_uid c) system_admin.

Definition stores_update (d : db) (c : caller) (row : store) : bool :=
  uid_is (auth_uid c) (s_owner_id row)
  || has_role d (auth_uid c) system_admin.

Definition stores_insert (d : db) (c : caller) : bool :=
  has_role d (auth_uid c) system_admin.

(** ratings.  For INSERT the user_id of the new row may still be NULL. *)
Definition ratings_select (d : db) (c : caller) (row : rating) : bool := true.

Definition ratings_insert (d : db) (c : caller) (new_user_id : option uuid) : bool :=
  match auth_uid c, new_user_id with
  | Some u, Some v => N.eqb u v
  | _, _ => false
  end.

Definition ratings_update (d : db) (c : caller) (row : rating) : bool :=
  uid_is (auth_uid c) (r_user_id row).

Definition ratings_delete (d : db) (c : caller) (row : rating) : bool :=
  uid_is (auth_uid c) (r_user_id row).

(** Row-level security as applied to a statement of caller [c]. *)
Definition allowed {R : Type} (policy : caller -> R -> bool) (c : caller) (row : R) : bool :=
  bypass_rls c || policy c row.

End Policies.
Import Policies.

(* ================================================================== *)
(** * Statements on the tables *)
(* ================================================================== *)

Module Statements.

(** ** profiles and user_roles: the inserts the registration trigger runs *)

(** INSERT INTO public.profiles (id, name, email, address) VALUES (...);
    created_at and updated_at take their DEFAULT now(). *)
Definition insert_profile (env : stmt_env) (c : caller) (d : db)
           (id : uuid) (name email address : option text) : result db :=
  guard (bypass_rls c || profiles_insert d c) (rls_violation "profiles") ;;;
  name' <- match name with Some t => Ok t | None => Err (not_null_violation "name") end ;;
  email' <- match email with Some t => Ok t | None => Err (not_null_violation "email") end ;;
  address' <- match address with Some t => Ok t | None => Err (not_null_violation "address") end ;;
  guard (negb (mem id (map p_id (profiles d)))) (unique_violation "profiles_pkey") ;;;
  guard (mem id (map au_id (auth_users d))) (foreign_key_violation "profiles_id_fkey") ;;;
  Ok (set_profiles d (profiles d ++
        [{| p_id := id; p_name := name'; p_email := email'; p_address := address';
            p_created_at := now env; p_updated_at := now env |}])).

(** INSERT INTO public.user_roles (user_id, role) VALUES (...); id takes
    gen_random_uuid() and created_at takes now(). *)
Definition insert_user_role (env : stmt_env) (c : caller) (d : db)
           (user_id : uuid) (role : app_role) : result db :=
  guard (bypass_rls c || user_roles_insert d c) (rls_violation "user_roles") ;;;
  guard (negb (mem (gen_random_uuid env) (map ur_id (user_roles d))))
        (unique_violation "user_roles_pkey") ;;;
  guard (negb (existsb (user_role_key_eqb (user_id, role))
                       (map user_role_key (user_roles d))))
        (unique_violation "user_roles_user_id_role_key") ;;;
  guard (mem user_id (map au_id (auth_users d)))
        (foreign_key_violation "user_roles_user_id_fkey") ;;;
  Ok (set_user_roles d (user_roles d ++
        [{| ur_id := gen_random_uuid env; ur_user_id := user_id;
            ur_role := role; ur_created_at := now env |}])).

(** The text-to-enum input conversion of app_role. *)
Definition app_role_in (v : json) : option app_role :=
  match v with
  | JStr s =>
      if String.eqb s "system_admin" then Some system_admin
      else if String.eqb s "normal_user" then Some normal_user
      else if String.eqb s "store_owner" then Some store_owner
      else None
  | _ => None
  end.

(** UPDATE public.user_roles SET role = <role> WHERE user_id = <uid>.
    The new row must pass the policy as well; the unique constraint on
    (user_id, role) is checked on the statement's result. *)
Definition update_user_roles_role (c : caller) (d : db)
           (role : json) (uid : uuid) : result db :=
  role' <- match app_role_in role with
           | Some r => Ok r
           | None => Err (invalid_enum_value "app_role")
           end ;;
  let target ur := N.eqb (ur_user_id ur) uid
                   && allowed (user_roles_select d) c ur
                   && allowed (user_roles_update d) c ur in
  let new_row ur := {| ur_id := ur_id ur; ur_user_id := ur_user_id ur;
                       ur_role := role'; ur_created_at := ur_created_at ur |} in
  let rows' := map (fun ur => if target ur then new_row ur else ur) (user_roles d) in
  guard (forallb (fun ur => allowed (user_roles_update d) c (new_row ur))
                 (filter target (user_roles d)))
        (rls_violation "user_roles") ;;;
  guard (distinct user_role_key_eqb (map user_role_key rows'))
        (unique_violation "user_roles_user_id_role_key") ;;;
  Ok (set_user_roles d rows').

(** ** profiles: reads *)

(** SELECT ... FROM public.profiles WHERE <filter>, as caller [c]. *)
Definition select_profiles (d : db) (c : caller) (where_ : profile -> bool)
  : list profile :=
  filter where_ (filter (allowed (profiles_select d) c) (profiles d)).

(** ** stores *)

(** INSERT INTO public.stores (name, email, address, owner_id). *)
Definition insert_store (env : stmt_env) (c : caller) (d : db)
           (name email address : text) (owner_id : uuid) : result db :=
  guard (bypass_rls c || stores_insert d c) (rls_violation "stores") ;;;
  guard (negb (mem (gen_random_uuid env) (map s_id (stores d))))
        (unique_violation "stores_pkey") ;;;
  guard (mem owner_id (map au_id (auth_users d)))
        (foreign_key_violation "stores_owner_id_fkey") ;;;
  Ok (set_stores d (stores d ++
        [{| s_id := gen_random_uuid env; s_owner_id := owner_id;
            s_name := name; s_email := email; s_address := address;
            s_created_at := now env; s_updated_at := now env |}])).

(** ** ratings *)

(** The columns a request may give for a ratings row: the values of an
    INSERT (an absent column takes its DEFAULT, or NULL where it has
    none) or the SET list of an UPDATE (an absent column is kept). *)
Record rating_cols := {
  c_id : option uuid;
  c_user_id : option uuid;
  c_store_id : option uuid;
  c_rating : option Z;
  c_created_at : option timestamptz;
  c_updated_at : option timestamptz
}.

Definition or_default {A : Type} (o : option A) (dflt : A) : A :=
  match o with Some a => a | None => dflt end.

(** CHECK (rating >= 1 AND rating <= 5).  The column is an INTEGER; the
    values of a request are taken as integers without the 32-bit bound,
    so a value beyond it is answered here by this check and not by the
    engine's range error. *)
Definition rating_check (v : Z) : bool := (1 <=? v)%Z && (v <=? 5)%Z.

Definition insert_rating (env : stmt_env) (c : caller) (d : db)
           (v : rating_cols) : result db :=
  guard (bypass_rls c || ratings_insert d c (c_user_id v))
        (rls_violation "ratings") ;;;
  user_id <- match c_user_id v with
             | Some u => Ok u | None => Err (not_null_violation "user_id") end ;;
  store_id <- match c_store_id v with
              | Some s => Ok s | None => Err (not_null_violation "store_id") end ;;
  rating <- match c_rating v with
            | Some n => Ok n | None => Err (not_null_violation "rating") end ;;
  guard (rating_check rating) (check_violation "ratings_rating_check") ;;;
  let row := {| r_id := or_default (c_id v) (gen_random_uuid env);
                r_user_id := user_id; r_store_id := store_id;
                r_rating := rating;
                r_created_at := or_default (c_created_at v) (now env);
                r_updated_at := or_default (c_updated_at v) (now env) |} in
  guard (negb (mem (r_id row) (map r_id (ratings d))))
        (unique_violation "ratings_pkey") ;;;
  guard (negb (existsb (pair_eqb (rating_key row)) (map rating_key (ratings d))))
        (unique_violation "ratings_user_id_store_id_key") ;;;
  guard (mem user_id (map au_id (auth_users d)))
        (foreign_key_violation "ratings_user_id_fkey") ;;;
  guard (mem store_id (map s_id (stores d)))
        (foreign_key_violation "ratings_store_id_fkey") ;;;
  Ok (set_ratings d (ratings d ++ [row])).

(** The row an UPDATE's SET list proposes for [old]. *)
Definition rating_set (v : rating_cols) (old : rating) : rating :=
  {| r_id := or_default (c_id v) (r_id old);
     r_user_id := or_default (c_user_id v) (r_user_id old);
     r_store_id := or_default (c_store_id v) (r_store_id old);
     r_rating := or_default (c_rating v) (r_rating old);
     r_created_at := or_default (c_created_at v) (r_created_at old);
     r_updated_at := or_default (c_updated_at v) (r_updated_at old) |}.

(** DELETE FROM public.ratings WHERE <filter>. *)
Definition delete_ratings (c : caller) (d : db) (where_ : rating -> bool) : result db :=
  Ok (set_ratings d
        (filter (fun r => negb (where_ r && allowed (ratings_delete d) c r))
                (ratings d))).

(** SELECT ... FROM public.ratings WHERE <filter>. *)
Definition select_ratings (d : db) (c : caller) (where_ : rating -> bool)
  : list rating :=
  filter where_ (filter (allowed (ratings_select d) c) (ratings d)).

End Statements.
Import Statements.

(* ================================================================== *)
(** * Triggers *)
(* ================================================================== *)

Module Triggers.

(** Rows with an updated_at column. *)
Class Timestamped (R : Type) := {
  updated_at : R -> timestamptz;
  set_updated_at : timestamptz -> R -> R
}.

#[export] Instance profile_timestamped : Timestamped profile := {|
  updated_at := p_updated_at;
  set_updated_at t r :=
    {| p_id := p_id r; p_name := p_name r; p_email := p_email r;
       p_address := p_address r; p_created_at := p_created_at r;
       p_updated_at := t |}
|}.

#[export] Instance store_timestamped : Timestamped store := {|
  updated_at := s_updated_at;
  set_updated_at t r :=
    {| s_id := s_id r; s_owner_id := s_owner_id r; s_name := s_name r;
       s_email := s_email r; s_address := s_address r;
       s_created_at := s_created_at r; s_updated_at := t |}
|}.

#[export] Instance rating_timestamped : Timestamped rating := {|
  updated_at := r_updated_at;
  set_updated_at t r :=
    {| r_id := r_id r; r_user_id := r_user_id r; r_store_id := r_store_id r;
       r_rating := r_rating r; r_created_at := r_created_at r;
       r_updated_at := t |}
|}.

(** public.update_updated_at_column(): NEW.updated_at = now(); RETURN NEW. *)
Definition update_updated_at_column {R : Type} `{Timestamped R}
           (env : stmt_env) (NEW : R) : R :=
  set_updated_at (now env) NEW.

(** The row written by an UPDATE of profiles, stores or ratings for the
    row [proposed] by the statement's SET list: the BEFORE UPDATE ... FOR
    EACH ROW trigger of the table is applied to it. *)
Definition before_update {R : Type} `{Timestamped R}
           (env : stmt_env) (proposed : R) : R :=
  update_updated_at_column env proposed.

Section Registration.
Context `{Runtime}.

(** The [->>] operator on a JSON object: the field as text, NULL when
    the key is missing or holds JSON null. *)
Definition arrow_text (obj : list (string * json)) (key : string) : option text :=
  match find (fun kv => String.eqb (fst kv) key) obj with
  | None => None
  | Some (_, JNull) => None
  | Some (_, JStr s) => Some s
  | Some (_, v) => Some (jsonb_out v)
  end.

(** public.handle_new_user(), SECURITY DEFINER: its two inserts run with
    the rights of the function's owner, not subject to row-level
    security.  An error in either aborts the function. *)
Definition handle_new_user (env : stmt_env) (NEW : auth_user) (d : db) : result db :=
  d1 <- insert_profile env ServiceRole d
          (au_id NEW)
          (Some (COALESCE (arrow_text (au_raw_user_meta_data NEW) "name") "Unknown"))
          (au_email NEW)
          (Some (COALESCE (arrow_text (au_raw_user_meta_data NEW) "address") "")) ;;
  d2 <- insert_user_role env ServiceRole d1 (au_id NEW) normal_user ;;
  Ok d2.

(** Creation of an identity: the INSERT into auth.users followed, in the
    same transaction, by the AFTER INSERT trigger on_auth_user_created.
    The transaction commits as a whole or not at all. *)
Definition create_identity (env : stmt_env) (d : db) (NEW : auth_user) : result db :=
  guard (negb (mem (au_id NEW) (map au_id (auth_users d))))
        (unique_violation "users_pkey") ;;;
  handle_new_user env NEW (set_auth_users d (auth_users d ++ [NEW])).

(** The database after the attempt, and the error if it failed. *)
Definition register (env : stmt_env) (d : db) (NEW : auth_user)
  : db * option pg_error :=
  match create_identity env d NEW with
  | Ok d' => (d', None)
  | Err e => (d, Some e)
  end.

(** The profile row the trigger writes for identity [NEW] with e-mail
    [e]. *)
Definition bootstrap_profile (env : stmt_env) (NEW : auth_user) (e : text) : profile :=
  {| p_id := au_id NEW;
     p_name := match arrow_text (au_raw_user_meta_data NEW) "name" with
               | Some t => t
               | None => "Unknown"
               end;
     p_email := e;
     p_address := match arrow_text (au_raw_user_meta_data NEW) "address" with
                  | Some t => t
                  | None => ""
                  end;
     p_created_at := now env; p_updated_at := now env |}.

Definition bootstrap_role (env : stmt_env) (NEW : auth_user) : user_role :=
  {| ur_id := gen_random_uuid env; ur_user_id := au_id NEW;
     ur_role := normal_user; ur_created_at := now env |}.

(** What the registration needs from the database to go through. *)
Definition registrable (env : stmt_env) (d : db) (NEW : auth_user) : bool :=
  negb (mem (au_id NEW) (map au_id (auth_users d)))
  && match au_email NEW with Some _ => true | None => false end
  && negb (mem (au_id NEW) (map p_id (profiles d)))
  && negb (mem (gen_random_uuid env) (map ur_id (user_roles d)))
  && negb (existsb (user_role_key_eqb (au_id NEW, normal_user))
                   (map user_role_key (user_roles d))).

End Registration.

(** UPDATE public.ratings SET <cols> WHERE <filter>, as caller [c]: the
    rows the filter and the policies select are replaced by what the SET
    list proposes, passed through the BEFORE UPDATE trigger; the new rows
    must pass the policy and the constraints, checked on the statement's
    result. *)
Definition update_ratings (env : stmt_env) (c : caller) (d : db)
           (v : rating_cols) (where_ : rating -> bool) : result db :=
  let target r := where_ r && allowed (ratings_select d) c r
                  && allowed (ratings_update d) c r in
  let new_row r := before_update env (rating_set v r) in
  let rows' := map (fun r => if target r then new_row r else r) (ratings d) in
  let changed := map new_row (filter target (ratings d)) in
  guard (forallb (allowed (ratings_update d) c) changed) (rls_violation "ratings") ;;;
  guard (forallb (fun r => rating_check (r_rating r)) changed)
        (check_violation "ratings_rating_check") ;;;
  guard (distinct N.eqb (map r_id rows')) (unique_violation "ratings_pkey") ;;;
  guard (distinct pair_eqb (map rating_key rows'))
        (unique_violation "ratings_user_id_store_id_key") ;;;
  guard (forallb (fun r => mem (r_user_id r) (map au_id (auth_users d))) changed)
        (foreign_key_violation "ratings_user_id_fkey") ;;;
  guard (forallb (fun r => mem (r_store_id r) (map s_id (stores d))) changed)
        (foreign_key_violation "ratings_store_id_fkey") ;;;
  Ok (set_ratings d rows').

(** The statements on ratings, and the database after one of them. *)
Inductive ratings_stmt :=
| Insert (v : rating_cols)
| Update (v : rating_cols) (where_ : rating -> bool)
| Delete (where_ : rating -> bool).

Definition exec_ratings (env : stmt_env) (c : caller) (d : db) (st : ratings_stmt)
  : db * option pg_error :=
  let r := match st with
           | Insert v => insert_rating env c d v
           | Update v w => update_ratings env c d v w
           | Delete w => delete_ratings c d w
           end in
  match r with
  | Ok d' => (d', None)
  | Err e => (d, Some e)
  end.

(** The SET list of an UPDATE on stores (an absent column is kept). *)
Record store_cols := {
  sc_id : option uuid;
  sc_owner_id : option uuid;
  sc_name : option text;
  sc_email : option text;
  sc_address : option text;
  sc_created_at : option timestamptz;
  sc_updated_at : option timestamptz
}.

Definition store_set (v : store_cols) (old : store) : store :=
  {| s_id := or_default (sc_id v) (s_id old);
     s_owner_id := or_default (sc_owner_id v) (s_owner_id old);
     s_name := or_default (sc_name v) (s_name old);
     s_email := or_default (sc_email v) (s_email old);
     s_address := or_default (sc_address v) (s_address old);
     s_created_at := or_default (sc_created_at v) (s_created_at old);
     s_updated_at := or_default (sc_updated_at v) (s_updated_at old) |}.

(** UPDATE public.stores SET <cols> WHERE <filter>, as caller [c], with
    the BEFORE UPDATE trigger of the table; the new rows must pass the
    update policies, the primary key and the foreign key to the
    identities, checked on the statement's result.  ratings.store_id
    refers to stores(id) with no action on update: the id of a changed
    row that ratings refer to must still be the id of a store when the
    statement ends. *)
Definition update_stores (env : stmt_env) (c : caller) (d : db)
           (v : store_cols) (where_ : store -> bool) : result db :=
  let target s := where_ s && allowed (stores_select d) c s
                  && allowed (stores_update d) c s in
  let new_row s := before_update env (store_set v s) in
  let rows' := map (fun s => if target s then new_row s else s) (stores d) in
  let changed := map new_row (filter target (stores d)) in
  guard (forallb (allowed (stores_update d) c) changed) (rls_violation "stores") ;;;
  guard (distinct N.eqb (map s_id rows')) (unique_violation "stores_pkey") ;;;
  guard (forallb (fun s => mem (s_owner_id s) (map au_id (auth_users d))) changed)
        (foreign_key_violation "stores_owner_id_fkey") ;;;
  guard (forallb (fun s => mem (s_id s) (map s_id rows')
                           || negb (mem (s_id s) (map r_store_id (ratings d))))
                 (filter target (stores d)))
        (foreign_key_violation "ratings_store_id_fkey") ;;;
  Ok (set_stores d rows').

(** The SET list of an UPDATE on profiles. *)
Record profile_cols := {
  pc_id : option uuid;
  pc_name : option text;
  pc_email : option text;
  pc_address : option text;
  pc_created_at : option timestamptz;
  pc_updated_at : option timestamptz
}.

Definition profile_set (v : profile_cols) (old : profile) : profile :=
  {| p_id := or_default (pc_id v) (p_id old);
     p_name := or_default (pc_name v) (p_name old);
     p_email := or_default (pc_email v) (p_email old);
     p_address := or_default (pc_address v) (p_address old);
     p_created_at := or_default (pc_created_at v) (p_created_at old);
     p_updated_at := or_default (pc_updated_at v) (p_updated_at old) |}.

(** UPDATE public.profiles SET <cols> WHERE <filter>, as caller [c]. *)
Definition update_profiles (env : stmt_env) (c : caller) (d : db)
           (v : profile_cols) (where_ : profile -> bool) : result db :=
  let target p := where_ p && allowed (profiles_select d) c p
                  && allowed (profiles_update d) c p in
  let new_row p := before_update env (profile_set v p) in
  let rows' := map (fun p => if target p then new_row p else p) (profiles d) in
  let changed := map new_row (filter target (profiles d)) in
  guard (forallb (allowed (profiles_update d) c) changed) (rls_violation "profiles") ;;;
  guard (distinct N.eqb (map p_id rows')) (unique_violation "profiles_pkey") ;;;
  guard (forallb (fun p => mem (p_id p) (map au_id (auth_users d))) changed)
        (foreign_key_violation "profiles_id_fkey") ;;;
  Ok (set_profiles d rows').

(** A history of statements on ratings, each with its caller and its
    statement environment, run from [d]. *)
Fixpoint exec_ratings_all (d : db)
         (history : list (stmt_env * caller * ratings_stmt)) : db :=
  match history with
  | [] => d
  | (env, c, st) :: rest => exec_ratings_all (fst (exec_ratings env c d st)) rest
  end.

End Triggers.
Import Triggers.

(* ================================================================== *)
(** * The provisioning endpoint *)
(* ================================================================== *)

Module Provisioning.

(** A JavaScript value of the handler is [undefined] ([None]) or a JSON
    value. *)
Definition js := option json.

(** Truthiness, as [&&] and [||] test it. *)
Definition truthy (v : js) : bool :=
  match v with
  | None => false
  | Some JNull => false
  | Some (JBool b) => b
  | Some (JNum n) => negb (n =? 0)%Z
  | Some (JStr s) => negb (String.eqb s "")
  | Some (JArr _) => true
  | Some (JObj _) => true
  end.

(** [v !== 'normal_user'] *)
Definition not_normal_user (v : js) : bool :=
  match v with
  | Some (JStr s) => negb (String.eqb s "normal_user")
  | _ => true
  end.

(** Property read [v.key] on a value that is neither null nor undefined;
    only objects carry the properties read here. *)
Definition get (v : json) (key : string) : js :=
  match v with
  | JObj fields =>
      match find (fun kv => String.eqb (fst kv) key) fields with
      | Some (_, x) => Some x
      | None => None
      end
  | _ => None
  end.

Record request := {
  method : string;
  body : js
}.

(** An error object of the client library; [message] may be missing. *)
Record api_error := { message : option string }.

(** [m || dflt] on a message. *)
Definition message_or (m : option string) (dflt : string) : string :=
  match m with
  | Some s => if String.eqb s "" then dflt else s
  | None => dflt
  end.

(** data.user of a successful createUser *)
Record user := {
  id : uuid;
  email : js;
  user_metadata : list (string * json)
}.

Inductive response_body :=
| error_json (error : string)                 (* { error } *)
| success_json (user : option user).          (* { success: true, user } *)

Record response := {
  status : nat;
  json_body : response_body
}.

(** A call either returns or throws; the thrown value may carry a
    message. *)
Inductive called (A : Type) :=
| Returned (a : A)
| Thrown (err_message : option string).
Arguments Returned {A} a.
Arguments Thrown {A} err_message.

Record create_return := {
  data_user : option user;
  error : option api_error
}.

(** How the managed backend behaves at one request: a call may fail
    before anything is written (the service refuses it, or the call
    throws); otherwise it runs on the database with the service-role
    key.  [new_user_id] is the id the service gives the new identity. *)
Inductive fault :=
| Refuses (e : api_error)
| Throws (err_message : option string).

Record provider_env := {
  create_fault : option fault;
  create_env : stmt_env;
  new_user_id : uuid;
  update_fault : option fault
}.

(** The calls the handler makes on the backend, in order. *)
Inductive call :=
| CreateUser (email password : js) (user_metadata : list (string * json))
| UpdateRole (role : js) (user_id : uuid).

(** The message of an error as the client sees it.  Only the error class
    and the constraint, column, table or type concerned are kept; the
    engine's own wording, with quoted names and the offending value, is
    not reproduced. *)
Definition pg_error_message (e : pg_error) : string :=
  match e with
  | unique_violation c => ("duplicate key value violates unique constraint " ++ c)%string
  | check_violation c => ("new row violates check constraint " ++ c)%string
  | not_null_violation c => ("null value violates not-null constraint in column " ++ c)%string
  | foreign_key_violation c => ("insert or update violates foreign key constraint " ++ c)%string
  | rls_violation t => ("new row violates row-level security policy for table " ++ t)%string
  | invalid_enum_value t => ("invalid input value for enum " ++ t)%string
  end.

(** An object literal drops the properties whose value is undefined when
    it is sent as JSON. *)
Definition object_of (props : list (string * js)) : list (string * json) :=
  flat_map (fun kv => match snd kv with
                      | Some v => [(fst kv, v)]
                      | None => []
                      end) props.

Definition text_of (v : js) : option text :=
  match v with Some (JStr s) => Some s | _ => None end.

Record handler_result := {
  outcome : option response;       (* [None]: an exception left the handler *)
  final_db : db;
  calls : list call
}.

Section Handler.
Context `{Runtime}.

(** supabase.auth.admin.createUser({ email, password, user_metadata }) *)
Definition admin_createUser (pe : provider_env) (d : db)
           (email password : js) (user_metadata : list (string * json))
  : db * called create_return :=
  match create_fault pe with
  | Some (Throws m) => (d, Thrown m)
  | Some (Refuses e) => (d, Returned {| data_user := None; error := Some e |})
  | None =>
      let NEW := {| au_id := new_user_id pe; au_email := text_of email;
                    au_raw_user_meta_data := user_metadata |} in
      match create_identity (create_env pe) d NEW with
      | Ok d' =>
          (d', Returned {| data_user := Some {| id := new_user_id pe;
                                                email := email;
                                                user_metadata := user_metadata |};
                           error := None |})
      | Err _ =>
          (d, Returned {| data_user := None;
                          error := Some {| message :=
                                     Some "Database error creating new user" |} |})
      end
  end.

(** supabase.from('user_roles').update({ role }).eq('user_id', id) *)
Definition user_roles_update_eq (pe : provider_env) (d : db)
           (role : json) (uid : uuid) : db * called (option api_error) :=
  match update_fault pe with
  | Some (Throws m) => (d, Thrown m)
  | Some (Refuses e) => (d, Returned (Some e))
  | None =>
      match update_user_roles_role ServiceRole d role uid with
      | Ok d' => (d', Returned None)
      | Err e => (d, Returned (Some {| message := Some (pg_error_message e) |}))
      end
  end.

Definition respond (d : db) (cs : list call) (code : nat) (b : response_body)
  : handler_result :=
  {| outcome := Some {| status := code; json_body := b |};
     final_db := d; calls := cs |}.

(** The catch block of the handler. *)
Definition caught (d : db) (cs : list call) (err_message : option string)
  : handler_result :=
  respond d cs 400
    (error_json (match err_message with
                 | Some m => if String.eqb m "" then "Unknown error" else m
                 | None => "Unknown error"
                 end)).

(** if (typeof body === 'string') body = JSON.parse(body), which
    throws on text that is not JSON ([None]). *)
Definition parse_body (b : js) : option js :=
  match b with
  | Some (JStr text) =>
      match JSON_parse text with
      | Some v => Some (Some v)
      | None => None
      end
  | _ => Some b
  end.

(** Destructuring [const { ... } = body] throws a TypeError on
    undefined and on null ([None]). *)
Definition destructurable (b : js) : option json :=
  match b with
  | None => None
  | Some JNull => None
  | Some v => Some v
  end.

(** The statements of the try block after a createUser that returned
    without error. *)
Definition assign_role (pe : provider_env) (d1 : db) (cs1 : list call)
           (role : js) (r : create_return) : handler_result :=
  let ok := respond d1 cs1 200 (success_json (data_user r)) in
  match role, data_user r with
  | Some role', Some u =>
      (* role && role !== 'normal_user' && data && data.user && data.user.id;
         an id is a non-empty string *)
      if truthy role && not_normal_user role then
        let cs2 := cs1 ++ [UpdateRole role (id u)] in
        match user_roles_update_eq pe d1 role' (id u) with
        | (d2, Thrown m) => caught d2 cs2 m
        | (d2, Returned (Some roleError)) =>
            respond d2 cs2 400
              (error_json (message_or (message roleError) "Role update error"))
        | (d2, Returned None) =>
            respond d2 cs2 200 (success_json (data_user r))
        end
      else ok
  | _, _ => ok
  end.

Definition handler (pe : provider_env) (d : db) (req : request) : handler_result :=
  if negb (String.eqb (method req) "POST") then
    respond d [] 405 (error_json "Method not allowed")
  else
    match parse_body (body req) with
    | None => respond d [] 400 (error_json "Invalid JSON format")
    | Some parsed =>
        match destructurable parsed with
        | None =>
            (* the TypeError is thrown outside the try block *)
            {| outcome := None; final_db := d; calls := [] |}
        | Some b =>
            let name := get b "name" in
            let email := get b "email" in
            let password := get b "password" in
            let address := get b "address" in
            let role := get b "role" in
            let meta := object_of [("name", name); ("address", address)] in
            let cs1 := [CreateUser email password meta] in
            match admin_createUser pe d email password meta with
            | (d1, Thrown m) => caught d1 cs1 m
            | (d1, Returned r) =>
                match error r with
                | Some e =>
                    respond d1 cs1 400
                      (error_json (message_or (message e) "Supabase error"))
                | None => assign_role pe d1 cs1 role r
                end
            end
        end
    end.

(** The identity the handler asks the backend to create for body [b]. *)
Definition requested_meta (b : json) : list (string * json) :=
  object_of [("name", get b "name"); ("address", get b "address")].

Definition requested_identity (pe : provider_env) (b : json) : auth_user :=
  {| au_id := new_user_id pe; au_email := text_of (get b "email");
     au_raw_user_meta_data := requested_meta b |}.

Definition requested_user (pe : provider_env) (b : json) : user :=
  {| id := new_user_id pe; email := get b "email";
     user_metadata := requested_meta b |}.

Definition create_call (b : json) : call :=
  CreateUser (get b "email") (get b "password") (requested_meta b).

End Handler.

(** Concrete requests.  The platform functions are not exercised by
    them: the bodies are already parsed objects with string fields. *)
Definition sample_runtime : Runtime :=
  {| jsonb_out := fun _ => "?"; JSON_parse := fun _ => None |}.

Definition sample_provider : provider_env :=
  {| create_fault := None;
     create_env := {| now := 5%Z; gen_random_uuid := 40%N |};
     new_user_id := 1%N;
     update_fault := None |}.

Definition post (fields : list (string * json)) : request :=
  {| method := "POST"; body := Some (JObj fields) |}.

End Provisioning.

(* ================================================================== *)
(** * Dashboard operations *)
(* ================================================================== *)

(** A request of the browser client either fails before it reaches the
    database ([Some] error) or runs there with the rights of the
    signed-in session. *)
Definition transport := option Provisioning.api_error.

Inductive toast :=
| toast_success (description : string)
| toast_error (description : option string).

Module NormalUserDashboard.

Record StoreWithRating := {
  id : uuid;
  name : text;
  address : text;
  average_rating : Q;
  total_ratings : Z;
  user_rating : option Z
}.

(** The component state the rating dialog works on; [user] is the id of
    the signed-in session, if any. *)
Record state := {
  user : option uuid;
  stores : list StoreWithRating;
  selectedStore : option StoreWithRating;
  rating : Z
}.

(** The requests the component sends to the ratings table. *)
Inductive call :=
| UpdateRating (rating : Z) (user_id store_id : uuid)
| InsertRating (user_id store_id : uuid) (rating : Z).

(** new Map(pairs).get(key): the last pair with the key wins. *)
Definition map_get (pairs : list (uuid * Z)) (key : uuid) : option Z :=
  match filter (fun kv => N.eqb (fst kv) key) (rev pairs) with
  | kv :: _ => Some (snd kv)
  | [] => None
  end.

(** fetchStores: the view, then the caller's own ratings, merged.  A
    failed request yields no data. *)
Definition fetchStores (t1 t2 : transport) (d : db) (st : state) : state :=
  match user st with
  | None => st
  | Some uid =>
      let storesData : option (list store_ratings_row) :=
        match t1 with Some _ => None | None => Some (store_ratings d) end in
      let userRatings : option (list Schema.rating) :=
        match t2 with
        | Some _ => None
        | None => Some (select_ratings d (Authenticated uid)
                          (fun r => N.eqb (r_user_id r) uid))
        end in
      let userRatingMap :=
        match userRatings with
        | Some rs => map (fun r => (r_store_id r, r_rating r)) rs
        | None => []
        end in
      let storesWithUserRatings :=
        match storesData with
        | Some rows =>
            map (fun row => {| id := sr_id row; name := sr_name row;
                               address := sr_address row;
                               average_rating := View.average_rating row;
                               total_ratings := View.total_ratings row;
                               user_rating := map_get userRatingMap (sr_id row) |})
                rows
        | None => []
        end in
      {| user := user st; stores := storesWithUserRatings;
         selectedStore := selectedStore st; rating := rating st |}
  end.


(** Truthiness of a possibly undefined number. *)
Definition truthy_number (o : option Z) : bool :=
  match o with Some n => negb (n =? 0)%Z | None => false end.



Record submit_env := {
  write_transport : transport;
  write_env : stmt_env;
  fetch_transport1 : transport;
  fetch_transport2 : transport
}.

Record submit_result := {
  db_after : db;
  state_after : state;
  calls : list call;
  toasts : list toast
}.

(** One request on ratings: the new database and the error, if any. *)
Definition run (t : transport) (d : db) (stmt : result db)
  : db * option Provisioning.api_error :=
  match t with
  | Some e => (d, Some e)
  | None =>
      match stmt with
      | Ok d' => (d', None)
      | Err e => (d, Some {| Provisioning.message :=
                               Some (Provisioning.pg_error_message e) |})
      end
  end.

(** After a successful write: fetchStores(); setSelectedStore(null);
    setRating(0). *)
Definition refreshed (e : submit_env) (d : db) (st : state) : state :=
  let st' := fetchStores (fetch_transport1 e) (fetch_transport2 e) d st in
  {| user := user st'; stores := stores st'; selectedStore := None; rating := 0%Z |}.

Definition handleRatingSubmit (e : submit_env) (d : db) (st : state) : submit_result :=
  match selectedStore st, user st with
  | Some sel, Some uid =>
      if (rating st =? 0)%Z then
        {| db_after := d; state_after := st; calls := []; toasts := [] |}
      else if truthy_number (user_rating sel) then
        (* Update existing rating *)
        match run (write_transport e) d
                  (update_ratings (write_env e) (Authenticated uid) d
                     {| c_id := None; c_user_id := None; c_store_id := None;
                        c_rating := Some (rating st);
                        c_created_at := None; c_updated_at := None |}
                     (fun r => N.eqb (r_user_id r) uid
                               && N.eqb (r_store_id r) (id sel))) with
        | (d', Some error) =>
            {| db_after := d'; state_after := st;
               calls := [UpdateRating (rating st) uid (id sel)];
               toasts := [toast_error (Provisioning.message error)] |}
        | (d', None) =>
            {| db_after := d'; state_after := refreshed e d' st;
               calls := [UpdateRating (rating st) uid (id sel)];
               toasts := [toast_success "Rating updated successfully"] |}
        end
      else
        (* Insert new rating *)
        match run (write_transport e) d
                  (insert_rating (write_env e) (Authenticated uid) d
                     {| c_id := None; c_user_id := Some uid;
                        c_store_id := Some (id sel);
                        c_rating := Some (rating st);
                        c_created_at := None; c_updated_at := None |}) with
        | (d', Some error) =>
            {| db_after := d'; state_after := st;
               calls := [InsertRating uid (id sel) (rating st)];
               toasts := [toast_error (Provisioning.message error)] |}
        | (d', None) =>
            {| db_after := d'; state_after := refreshed e d' st;
               calls := [InsertRating uid (id sel) (rating st)];
               toasts := [toast_success "Rating submitted successfully"] |}
        end
  | _, _ => {| db_after := d; state_after := st; calls := []; toasts := [] |}
  end.


(** The (store, rating) pairs fetchStores builds its map from. *)
Definition own_pairs (d : db) (uid : uuid) : list (uuid * Z) :=
  map (fun r => (r_store_id r, r_rating r))
      (select_ratings d (Authenticated uid) (fun r => N.eqb (r_user_id r) uid)).

Definition listing_of (d : db) (uid : uuid) (row : store_ratings_row) : StoreWithRating :=
  {| id := sr_id row; name := sr_name row; address := sr_address row;
     average_rating := View.average_rating row;
     total_ratings := View.total_ratings row;
     user_rating := map_get (own_pairs d uid) (sr_id row) |}.


(** renderStars: for each of the five stars, whether it is drawn filled.
    Ratings are numbers, here rationals; [hoveredRating] is the star under
    the pointer, 0 when there is none. *)
Definition renderStars (hoveredRating currentRating : Q) (isInteractive : bool)
  : list bool :=
  map (fun index =>
         let starValue := (Z.of_nat index + 1)%Z in
         Qle_bool (inject_Z starValue)
                  (if isInteractive
                   then (if Qeq_bool hoveredRating 0 then currentRating
                         else hoveredRating)
                   else currentRating))
      (seq 0 5).

End NormalUserDashboard.

Module SystemAdminDashboard.

Record newStore := {
  name : text;
  email : text;
  address : text;
  ownerEmail : text
}.

Record createStore_env := {
  select_transport : transport;
  insert_transport : transport;
  insert_env : stmt_env;
  update_transport : transport
}.

Record createStore_result := {
  db_after : db;
  toasts : list toast;
  role_update_error : option Provisioning.api_error
}.

(** .single(): the row when the result has exactly one, no data otherwise. *)
Definition single {A : Type} (rows : list A) : option A :=
  match rows with
  | [row] => Some row
  | _ => None
  end.

Definition run (t : transport) (d : db) (stmt : result db)
  : db * option Provisioning.api_error :=
  NormalUserDashboard.run t d stmt.

Definition createStore (e : createStore_env) (c : caller) (d : db) (form : newStore)
  : createStore_result :=
  (* Find owner by email *)
  let ownerData : option profile :=
    match select_transport e with
    | Some _ => None
    | None => single (select_profiles d c
                        (fun p => String.eqb (p_email p) (ownerEmail form)))
    end in
  match ownerData with
  | None =>
      {| db_after := d;
         toasts := [toast_error (Some "Owner not found with this email")];
         role_update_error := None |}
  | Some owner =>
      (* Create store *)
      match run (insert_transport e) d
                (insert_store (insert_env e) c d
                   (name form) (email form) (address form) (p_id owner)) with
      | (d1, Some error) =>
          (* if (error) throw error *)
          {| db_after := d1;
             toasts := [toast_error (Provisioning.message error)];
             role_update_error := None |}
      | (d1, None) =>
          (* Update user role to store_owner; the result is dropped *)
          let '(d2, roleError) :=
            run (update_transport e) d1
                (update_user_roles_role c d1 (JStr "store_owner") (p_id owner)) in
          {| db_after := d2;
             toasts := [toast_success "Store created successfully"];
             role_update_error := roleError |}
      end
  end.

End SystemAdminDashboard.

Module StoreOwnerDashboard.

Record RatingWithUser := {
  id : uuid;
  rating : Z;
  created_at : timestamptz;
  user_name : text;
  user_email : text;
  user_address : text
}.

Record state := {
  storeInfo : option store_ratings_row;
  ratings : list RatingWithUser
}.

(** .single(): the row when the result has exactly one, no data otherwise. *)
Definition single {A : Type} (rows : list A) : option A :=
  match rows with
  | [row] => Some row
  | _ => None
  end.

(** .order('created_at', { ascending: false }); rows with the same
    created_at keep the order of the table. *)
Fixpoint insert_desc (r : Schema.rating) (l : list Schema.rating)
  : list Schema.rating :=
  match l with
  | [] => [r]
  | x :: xs =>
      if (r_created_at x <? r_created_at r)%Z then r :: x :: xs
      else x :: insert_desc r xs
  end.

Definition order_created_at_desc (l : list Schema.rating) : list Schema.rating :=
  fold_right insert_desc [] l.

(** new Map(pairs).get(key): the last pair with the key wins. *)
Definition map_get {V : Type} (pairs : list (uuid * V)) (key : uuid) : option V :=
  match filter (fun kv => N.eqb (fst kv) key) (rev pairs) with
  | kv :: _ => Some (snd kv)
  | [] => None
  end.

(** profile?.field || 'Unknown' *)
Definition or_unknown (o : option text) : text :=
  match o with
  | Some s => if String.eqb s "" then "Unknown" else s
  | None => "Unknown"
  end.

(** fetchStoreData: the caller's store from the view, its ratings newest
    first, and the profiles of the raters as far as the session may read
    them.  A failed request yields no data. *)
Definition fetchStoreData (t1 t2 t3 : transport) (d : db) (user : option uuid)
           (st : state) : state :=
  match user with
  | None => st
  | Some uid =>
      let storeData :=
        match t1 with
        | Some _ => None
        | None => single (filter (fun row => N.eqb (sr_owner_id row) uid)
                                 (store_ratings d))
        end in
      match storeData with
      | None => st
      | Some sd =>
          let ratingsData :=
            match t2 with
            | Some _ => None
            | None => Some (order_created_at_desc
                              (select_ratings d (Authenticated uid)
                                 (fun r => N.eqb (r_store_id r) (sr_id sd))))
            end in
          let userIds :=
            match ratingsData with
            | Some rs => map r_user_id rs
            | None => []
            end in
          let profilesData :=
            match t3 with
            | Some _ => None
            | None => Some (select_profiles d (Authenticated uid)
                              (fun p => mem (p_id p) userIds))
            end in
          let profilesMap :=
            match profilesData with
            | Some ps => map (fun p => (p_id p, p)) ps
            | None => []
            end in
          let formattedRatings :=
            match ratingsData with
            | Some rs =>
                map (fun r =>
                       let profile := map_get profilesMap (r_user_id r) in
                       {| id := r_id r; rating := r_rating r;
                          created_at := r_created_at r;
                          user_name := or_unknown (option_map p_name profile);
                          user_email := or_unknown (option_map p_email profile);
                          user_address := or_unknown (option_map p_address profile) |})
                    rs
            | None => []
            end in
          {| storeInfo := Some sd; ratings := formattedRatings |}
      end
  end.

(** Newest first: [a] may stand before [b]. *)
Definition newer_first (a b : Schema.rating) : Prop :=
  (r_created_at b <= r_created_at a)%Z.

(** renderStars: for each of the five stars, whether it is drawn filled. *)
Definition renderStars (rating : Q) : list bool :=
  map (fun index => negb (Qle_bool rating (inject_Z (Z.of_nat index)))) (seq 0 5).

End StoreOwnerDashboard.

(** The number of filled stars for a whole-number bound [f]. *)
Definition clamp5 (f : Z) : nat := Z.to_nat (Z.max 0 (Z.min 5 f)).

(* ================================================================== *)
(** * Properties *)
(* ================================================================== *)

(** ** Generic list facts *)

Section ListFacts.
Context {A B : Type}.

Lemma filter_map_comm (p : B -> bool) (f : A -> B) (l : list A) :
  filter p (map f l) = map f (filter (fun a => p (f a)) l).
Proof.
  induction l as [|a l IH]; simpl; [reflexivity|].
  destruct (p (f a)); simpl; now rewrite IH.
Qed.

Lemma filter_none {X : Type} (p : X -> bool) (l : list X) :
  (forall a, In a l -> p a = false) -> filter p l = [].
Proof.
  induction l as [|a l IH]; simpl; intros H; [reflexivity|].
  rewrite (H a (or_introl eq_refl)). apply IH. intros; apply H; now right.
Qed.

Lemma filter_all {X : Type} (p : X -> bool) (l : list X) :
  (forall a, In a l -> p a = true) -> filter p l = l.
Proof.
  induction l as [|a l IH]; simpl; intros H; [reflexivity|].
  rewrite (H a (or_introl eq_refl)). f_equal. apply IH.
  intros; apply H; now right.
Qed.

Lemma filter_flat_map_comm (p : B -> bool) (q : A -> bool)
      (f : A -> list B) (l : list A) :
  (forall a b, In b (f a) -> p b = q a) ->
  filter p (flat_map f l) = flat_map f (filter q l).
Proof.
  intros Hpq. induction l as [|a l IH]; simpl; [reflexivity|].
  rewrite filter_app, IH.
  destruct (q a) eqn:Hq; simpl.
  - f_equal. apply filter_all. intros b Hb. now rewrite (Hpq a b Hb).
  - rewrite filter_none; [reflexivity|].
    intros b Hb. now rewrite (Hpq a b Hb).
Qed.

(** On a duplicate-free list, a predicate that singles out [x] filters
    the list down to [x]. *)
Lemma filter_unique (p : A -> bool) (x : A) (l : list A) :
  NoDup l -> In x l -> p x = true ->
  (forall y, In y l -> p y = true -> y = x) ->
  filter p l = [x].
Proof.
  induction 1 as [|a l Hnin Hnd IH]; simpl; intros Hin Hpx Huniq.
  - contradiction.
  - destruct Hin as [->|Hin].
    + rewrite Hpx. f_equal. apply filter_none. intros y Hy.
      destruct (p y) eqn:Hpy; [|reflexivity].
      assert (y = x) by (apply Huniq; auto). subst. contradiction.
    + destruct (p a) eqn:Hpa.
      * assert (a = x) by (apply Huniq; auto). subst. contradiction.
      * apply IH; auto.
Qed.

End ListFacts.

(** ** The [store_ratings] view *)

Section ViewFacts.

(** The primary key of [stores] identifies a row. *)
Lemma stores_pkey_inj (ss : list store) (s s' : store) :
  NoDup (map s_id ss) -> In s ss -> In s' ss -> s_id s = s_id s' -> s = s'.
Proof.
  induction ss as [|a ss IH]; simpl; intros Hnd Hs Hs' Hid; [contradiction|].
  inversion Hnd as [|? ? Hnin Hnd']; subst.
  destruct Hs as [->|Hs], Hs' as [->|Hs']; auto.
  - exfalso. apply Hnin. rewrite Hid. now apply in_map.
  - exfalso. apply Hnin. rewrite <- Hid. now apply in_map.
Qed.

Lemma key_eqb_eq (a b : group_key) : key_eqb a b = true <-> a = b.
Proof. unfold key_eqb. destruct (group_key_dec a b); split; congruence. Qed.

Lemma join_rows_fst (s : store) (rs : list rating) row :
  In row (join_rows s rs) -> fst row = s.
Proof.
  unfold join_rows. destruct (matching s rs) as [|m ms].
  - intros [<-|[]]. reflexivity.
  - intros H. apply in_map_iff in H. destruct H as (r & <- & _). reflexivity.
Qed.

Lemma join_rows_nonempty (s : store) (rs : list rating) :
  exists row, In row (join_rows s rs).
Proof.
  unfold join_rows. destruct (matching s rs) as [|m ms]; simpl; eauto.
Qed.

(** The joined rows of one group are the joined rows of the stores
    carrying the group's key. *)
Lemma group_rows (k : group_key) (ss : list store) (rs : list rating) :
  filter (fun row => key_eqb (key_of (fst row)) k) (left_join ss rs)
  = left_join (filter (fun s => key_eqb (key_of s) k) ss) rs.
Proof.
  unfold left_join. apply filter_flat_map_comm.
  intros s row Hrow. now rewrite (join_rows_fst _ _ _ Hrow).
Qed.

Lemma group_rows_pkey (s : store) (ss : list store) (rs : list rating) :
  NoDup (map s_id ss) -> In s ss ->
  filter (fun row => key_eqb (key_of (fst row)) (key_of s)) (left_join ss rs)
  = join_rows s rs.
Proof.
  intros Hnd Hin. rewrite group_rows.
  rewrite (filter_unique _ s).
  - unfold left_join. simpl. apply app_nil_r.
  - eapply NoDup_map_inv; eassumption.
  - assumption.
  - now apply key_eqb_eq.
  - intros y Hy Hk. apply key_eqb_eq in Hk.
    apply (stores_pkey_inj ss); auto. unfold key_of in Hk. congruence.
Qed.

Lemma left_join_keys (k : group_key) (ss : list store) (rs : list rating) :
  In k (map (fun row => key_of (fst row)) (left_join ss rs))
  <-> exists s, In s ss /\ key_of s = k.
Proof.
  rewrite in_map_iff. unfold left_join. split.
  - intros (row & <- & Hrow). apply in_flat_map in Hrow.
    destruct Hrow as (s & Hs & Hrow). exists s. split; [assumption|].
    now rewrite (join_rows_fst _ _ _ Hrow).
  - intros (s & Hs & <-). destruct (join_rows_nonempty s rs) as (row & Hrow).
    exists row. split.
    + now rewrite (join_rows_fst _ _ _ Hrow).
    + apply in_flat_map. eauto.
Qed.

Lemma aggregate_id k rows : sr_id (aggregate (k, rows)) = fst (fst (fst (fst k))).
Proof. destruct k as [[[[? ?] ?] ?] ?]. reflexivity. Qed.

(** Exactly one view row per store. *)
Lemma store_ratings_row_of (d : db) (s : store) :
  NoDup (map s_id (stores d)) -> In s (stores d) ->
  filter (fun v => N.eqb (sr_id v) (s_id s)) (store_ratings d)
  = [aggregate (key_of s, join_rows s (ratings d))].
Proof.
  intros Hnd Hin. unfold store_ratings, group_by.
  rewrite map_map, filter_map_comm.
  rewrite (filter_unique _ (key_of s)).
  - simpl. now rewrite group_rows_pkey.
  - apply NoDup_nodup.
  - apply nodup_In. apply left_join_keys. eauto.
  - rewrite aggregate_id. simpl. apply N.eqb_refl.
  - intros k Hk Hid. apply nodup_In in Hk. apply left_join_keys in Hk.
    destruct Hk as (s' & Hs' & <-). rewrite aggregate_id in Hid. simpl in Hid.
    apply N.eqb_eq in Hid. f_equal.
    apply (stores_pkey_inj (stores d)); auto.
Qed.

Lemma join_rows_ratings (s : store) (rs : list rating) :
  non_null (map (fun row => option_map r_rating (snd row)) (join_rows s rs))
  = map r_rating (matching s rs).
Proof.
  unfold join_rows. destruct (matching s rs) as [|m ms]; [reflexivity|].
  generalize (m :: ms). intros l. induction l as [|r l IH]; simpl;
    [reflexivity | now rewrite <- IH].
Qed.

Lemma join_rows_ids (s : store) (rs : list rating) :
  non_null (map (fun row => option_map r_id (snd row)) (join_rows s rs))
  = map r_id (matching s rs).
Proof.
  unfold join_rows. destruct (matching s rs) as [|m ms]; [reflexivity|].
  generalize (m :: ms). intros l. induction l as [|r l IH]; simpl;
    [reflexivity | now rewrite <- IH].
Qed.

(** The join condition selects, up to order, the part of the ratings
    table that refers to the store. *)
Lemma filter_permutation {X : Type} (p : X -> bool) (l l' : list X) :
  Permutation l l' -> Permutation (filter p l) (filter p l').
Proof.
  induction 1 as [|x l l' _ IH|x y l|l l' l'' _ IH1 _ IH2]; simpl.
  - constructor.
  - destruct (p x); [now constructor | assumption].
  - destruct (p x), (p y); try apply Permutation_refl. apply perm_swap.
  - eapply Permutation_trans; eassumption.
Qed.

Lemma matching_split (s : store) (rs mine others : list rating) :
  Permutation rs (mine ++ others) ->
  Forall (fun r => r_store_id r = s_id s) mine ->
  Forall (fun r => r_store_id r <> s_id s) others ->
  Permutation (matching s rs) mine.
Proof.
  intros Hperm Hmine Hothers. unfold matching.
  eapply Permutation_trans; [apply filter_permutation; exact Hperm|].
  rewrite filter_app.
  rewrite (filter_all _ mine), (filter_none _ others), app_nil_r.
  - apply Permutation_refl.
  - intros r Hr. apply N.eqb_neq. intros Heq.
    rewrite Forall_forall in Hothers. now apply (Hothers r Hr).
  - intros r Hr. apply N.eqb_eq.
    rewrite Forall_forall in Hmine. symmetry. now apply Hmine.
Qed.

Lemma sum_Z_permutation (l l' : list Z) : Permutation l l' -> sum_Z l = sum_Z l'.
Proof.
  induction 1 as [|x l l' _ IH|x y l|l l' l'' _ IH1 _ IH2]; simpl; lia.
Qed.

Lemma fold_left_add (l : list Z) (a : Z) :
  fold_left Z.add l a = (a + sum_Z l)%Z.
Proof.
  revert a. induction l as [|x l IH]; intros a; simpl; [lia|]. rewrite IH. lia.
Qed.

(** AVG and COUNT over ratings that are, up to order, the list [l]. *)
Lemma mean_permutation (l l' : list Z) :
  Permutation l l' -> mean l = arithmetic_mean l'.
Proof.
  intros Hperm. unfold mean, arithmetic_mean.
  rewrite fold_left_add, (sum_Z_permutation l l' Hperm),
    (Permutation_length Hperm).
  reflexivity.
Qed.

End ViewFacts.

(** C1. For every store of the [store_ratings] view there is exactly one
    view row.  Let the ratings table consist, in any order, of the rows
    [mine] that refer to the store and the rows [others] that do not.
    Then [total_ratings] of the store's row is the number of rows of
    [mine]; when there are none, [average_rating] and [total_ratings] are
    0; and otherwise [average_rating] is the arithmetic mean of their
    ratings, the sum r1 + ... + rn divided by n. *)
Theorem store_ratings_mean_and_count
        (d : db) (s : store) (mine others : list rating) :
  NoDup (map s_id (stores d)) -> In s (stores d) ->
  Permutation (ratings d) (mine ++ others) ->
  Forall (fun r => r_store_id r = s_id s) mine ->
  Forall (fun r => r_store_id r <> s_id s) others ->
  exists row,
    filter (fun v => N.eqb (sr_id v) (s_id s)) (store_ratings d) = [row]
    /\ total_ratings row = Z.of_nat (List.length mine)
    /\ (mine = [] -> average_rating row = 0%Q /\ total_ratings row = 0%Z)
    /\ (mine <> [] -> average_rating row = arithmetic_mean (map r_rating mine)).
Proof.
  intros Hnd Hin Hperm Hmine Hothers.
  assert (Hm := matching_split s (ratings d) mine others Hperm Hmine Hothers).
  eexists. split; [now apply store_ratings_row_of|].
  destruct s as [id owner name email address c u].
  unfold aggregate, key_of; cbn [fst snd average_rating total_ratings].
  unfold COUNT, AVG. rewrite join_rows_ids, join_rows_ratings, length_map.
  split; [now rewrite (Permutation_length Hm)|]. split.
  - intros ->. apply Permutation_sym, Permutation_nil in Hm. rewrite Hm.
    simpl. split; reflexivity.
  - intros Hne. destruct (matching _ (ratings d)) as [|m ms] eqn:Hmatch.
    + apply Permutation_nil in Hm. congruence.
    + cbn [COALESCE]. change (map r_rating (m :: ms)) with (r_rating m :: map r_rating ms).
      apply (mean_permutation (map r_rating (m :: ms))).
      now apply Permutation_map.
Qed.

Lemma store_ratings_mean_and_count_witness :
  let shop i := {| s_id := i; s_owner_id := 7%N; s_name := "Shop";
                   s_email := "s@x"; s_address := "Road";
                   s_created_at := 0%Z; s_updated_at := 0%Z |} in
  let r v u sid := {| r_id := u; r_user_id := u; r_store_id := sid; r_rating := v;
                      r_created_at := 0%Z; r_updated_at := 0%Z |} in
  let d := {| auth_users := []; profiles := []; user_roles := [];
              stores := [shop 1%N; shop 2%N; shop 3%N];
              ratings := [r 4%Z 10%N 1%N; r 3%Z 12%N 2%N; r 5%Z 11%N 1%N] |} in
  NoDup (map s_id (stores d))
  /\ Permutation (ratings d) ([r 4%Z 10%N 1%N; r 5%Z 11%N 1%N] ++ [r 3%Z 12%N 2%N])
  /\ (exists row,
        filter (fun v => N.eqb (sr_id v) 1%N) (store_ratings d) = [row]
        /\ total_ratings row = 2%Z /\ average_rating row = (9 # 2)%Q)
  /\ (exists row,
        filter (fun v => N.eqb (sr_id v) 3%N) (store_ratings d) = [row]
        /\ total_ratings row = 0%Z /\ average_rating row = 0%Q).
Proof.
  intros shop r d.
  assert (Hpk : NoDup (map s_id (stores d))).
  { simpl. constructor; [simpl; intros [H|[H|[]]]; discriminate|].
    constructor; [simpl; intros [H|[]]; discriminate|].
    constructor; [intros []|constructor]. }
  assert (Hperm : Permutation (ratings d)
                    ([r 4%Z 10%N 1%N; r 5%Z 11%N 1%N] ++ [r 3%Z 12%N 2%N])).
  { simpl. apply perm_skip. apply perm_swap. }
  split; [exact Hpk|]. split; [exact Hperm|]. split.
  - assert (Hin : In (shop 1%N) (stores d)) by (simpl; left; reflexivity).
    assert (Hmine : Forall (fun x => r_store_id x = s_id (shop 1%N))
                           [r 4%Z 10%N 1%N; r 5%Z 11%N 1%N])
      by (repeat constructor).
    assert (Hothers : Forall (fun x => r_store_id x <> s_id (shop 1%N))
                             [r 3%Z 12%N 2%N])
      by (repeat constructor; simpl; discriminate).
    destruct (store_ratings_mean_and_count d (shop 1%N) _ _ Hpk Hin Hperm
                Hmine Hothers) as (row & Hrow & Hcount & _ & Hmean).
    exists row. split; [exact Hrow|]. split; [exact Hcount|].
    refine (eq_trans (Hmean _) eq_refl). discriminate.
  - assert (Hin : In (shop 3%N) (stores d))
      by (simpl; right; right; left; reflexivity).
    assert (Hothers : Forall (fun x => r_store_id x <> s_id (shop 3%N)) (ratings d))
      by (repeat constructor; simpl; discriminate).
    destruct (store_ratings_mean_and_count d (shop 3%N) [] (ratings d) Hpk Hin
                (Permutation_refl _) (Forall_nil _) Hothers)
      as (row & Hrow & _ & Hnone & _).
    exists row. split; [exact Hrow|].
    destruct (Hnone eq_refl) as [Havg Hcount]. split; assumption.
Defined.

(** ** Row-level security on profiles *)

Section ProfilesPolicy.

Lemma has_role_user_roles (d d' : db) (u : option uuid) (r : app_role) :
  user_roles d' = user_roles d -> has_role d' u r = has_role d u r.
Proof. unfold has_role. now intros ->. Qed.

(** For a signed-in caller without the admin role the SELECT policies
    reduce to "the row is the caller's own". *)
Lemma profiles_visible_non_admin (d : db) (C : uuid) :
  has_role d (Some C) system_admin = false ->
  filter (allowed (profiles_select d) (Authenticated C)) (profiles d)
  = filter (fun p => N.eqb C (p_id p)) (profiles d).
Proof.
  intros Hna. apply filter_ext. intros p.
  unfold allowed, profiles_select. simpl. rewrite Hna.
  now rewrite orb_false_r.
Qed.

Lemma filter_swap {X : Type} (p q : X -> bool) (l : list X) :
  filter p (filter q l) = filter q (filter p l).
Proof.
  induction l as [|x l IH]; simpl; [reflexivity|].
  destruct (q x) eqn:Hq, (p x) eqn:Hp; simpl;
    rewrite ?Hq, ?Hp, IH; reflexivity.
Qed.

End ProfilesPolicy.

(** C4. A caller C who does not hold system_admin never gets a profiles
    row whose id differs from C: whatever the query's filter, the row is
    not in the result; a query for that row's id returns the empty
    result (a list, not an error); and the result of every query is the
    same in any two databases that agree on user_roles and on C's own
    profile row, whatever the other profiles hold. *)
Theorem profiles_of_others_invisible (d : db) (C : uuid) (R : profile) :
  has_role d (Some C) system_admin = false ->
  p_id R <> C ->
  (forall where_, ~ In R (select_profiles d (Authenticated C) where_))
  /\ select_profiles d (Authenticated C) (fun p => N.eqb (p_id p) (p_id R)) = []
  /\ (forall d' where_,
        user_roles d' = user_roles d ->
        filter (fun p => N.eqb C (p_id p)) (profiles d')
        = filter (fun p => N.eqb C (p_id p)) (profiles d) ->
        select_profiles d' (Authenticated C) where_
        = select_profiles d (Authenticated C) where_).
Proof.
  intros Hna Hneq. unfold select_profiles. repeat split.
  - intros w Hin. apply filter_In in Hin. destruct Hin as [Hin _].
    rewrite (profiles_visible_non_admin d C Hna) in Hin.
    apply filter_In in Hin. destruct Hin as [_ Hid].
    apply N.eqb_eq in Hid. congruence.
  - rewrite (profiles_visible_non_admin d C Hna).
    apply filter_none. intros p Hp. apply filter_In in Hp.
    destruct Hp as [_ Hid]. apply N.eqb_eq in Hid. subst C.
    apply N.eqb_neq. congruence.
  - intros d' w Hroles Hown.
    rewrite (profiles_visible_non_admin d C Hna).
    rewrite (profiles_visible_non_admin d' C).
    + now rewrite Hown.
    + now rewrite (has_role_user_roles d d' _ _ Hroles).
Qed.

Lemma profiles_of_others_invisible_witness :
  let mine := {| p_id := 1%N; p_name := "Ann"; p_email := "a@x"; p_address := "A";
                 p_created_at := 0%Z; p_updated_at := 0%Z |} in
  let R := {| p_id := 2%N; p_name := "Bob"; p_email := "b@x"; p_address := "B";
              p_created_at := 0%Z; p_updated_at := 0%Z |} in
  let d := {| auth_users := []; profiles := [mine; R];
              user_roles := [{| ur_id := 9%N; ur_user_id := 1%N;
                                ur_role := normal_user; ur_created_at := 0%Z |}];
              stores := []; ratings := [] |} in
  has_role d (Some 1%N) system_admin = false
  /\ p_id R <> 1%N
  /\ select_profiles d (Authenticated 1%N) (fun _ => true) = [mine]
  /\ select_profiles d (Authenticated 1%N) (fun p => N.eqb (p_id p) (p_id R)) = [].
Proof.
  intros mine R d.
  assert (Hneq : p_id R <> 1%N) by (simpl; discriminate).
  split; [reflexivity|]. split; [exact Hneq|]. split; [reflexivity|].
  exact (proj1 (proj2 (profiles_of_others_invisible d 1%N R eq_refl Hneq))).
Defined.

(** ** Membership tests *)

Lemma mem_In (x : uuid) (l : list uuid) : mem x l = true <-> In x l.
Proof.
  unfold mem. rewrite existsb_exists. split.
  - intros (y & Hy & Heq). apply N.eqb_eq in Heq. now subst.
  - intros Hin. exists x. split; [assumption | apply N.eqb_refl].
Qed.

Lemma mem_not_In (x : uuid) (l : list uuid) : mem x l = false <-> ~ In x l.
Proof.
  rewrite <- mem_In. destruct (mem x l); split; congruence.
Qed.

Lemma guard_ok (b : bool) (e : pg_error) (u : unit) : guard b e = Ok u -> b = true.
Proof. destruct b; simpl; congruence. Qed.

(** Inversion of a bound computation that succeeded. *)
Lemma bind_ok {A B : Type} (r : result A) (k : A -> result B) (b : B) :
  bind r k = Ok b -> exists a, r = Ok a /\ k a = Ok b.
Proof. destruct r as [a|e]; simpl; [eauto | discriminate]. Qed.

Ltac invert_binds :=
  repeat match goal with
         | H : bind _ _ = Ok _ |- _ =>
             let a := fresh "a" in
             let Ha := fresh "Hstep" in
             apply bind_ok in H; destruct H as (a & Ha & H)
         | H : guard _ _ = Ok _ |- _ => apply guard_ok in H
         | H : Ok _ = Ok _ |- _ => injection H as H
         end.

(** ** The registration trigger *)

Section RegistrationFacts.
Context `{Runtime}.

Lemma mem_app_last (x : uuid) (l : list uuid) : mem x (l ++ [x]) = true.
Proof. apply mem_In, in_or_app. right. now left. Qed.

Lemma create_identity_ok (env : stmt_env) (d d' : db) (NEW : auth_user) :
  create_identity env d NEW = Ok d' ->
  exists e, au_email NEW = Some e
    /\ d' = {| auth_users := auth_users d ++ [NEW];
               profiles := profiles d ++ [bootstrap_profile env NEW e];
               user_roles := user_roles d ++ [bootstrap_role env NEW];
               stores := stores d; ratings := ratings d |}
    /\ registrable env d NEW = true.
Proof.
  unfold create_identity, handle_new_user, insert_profile, insert_user_role.
  intros Hc. invert_binds.
  destruct (au_email NEW) as [e|] eqn:Hemail; [|discriminate].
  simpl in *. invert_binds. subst. simpl in *.
  eexists. split; [reflexivity|]. split.
  - unfold bootstrap_profile, bootstrap_role, COALESCE. reflexivity.
  - unfold registrable. rewrite Hemail.
    repeat match goal with
           | Hb : _ = true |- _ => rewrite Hb; clear Hb
           end.
    reflexivity.
Qed.

Lemma create_identity_succeeds (env : stmt_env) (d : db) (NEW : auth_user) :
  registrable env d NEW = true -> exists d', create_identity env d NEW = Ok d'.
Proof.
  unfold registrable. intros Hr.
  repeat (apply andb_prop in Hr; destruct Hr as [Hr ?]).
  destruct (au_email NEW) as [e|] eqn:Hemail; [|discriminate].
  unfold create_identity, handle_new_user, insert_profile, insert_user_role.
  rewrite Hr, Hemail. simpl.
  rewrite map_app. simpl. rewrite mem_app_last.
  match goal with Hb : negb (mem _ (map p_id _)) = true |- _ => rewrite Hb end.
  simpl. rewrite map_app. simpl. rewrite mem_app_last.
  repeat match goal with
         | Hb : negb _ = true |- _ => rewrite Hb; clear Hb
         end.
  simpl. eauto.
Qed.

End RegistrationFacts.



(** ** One rating per user and store *)

Section UniqueKeys.

Lemma distinct_NoDup {K : Type} (eqb : K -> K -> bool) (l : list K) :
  (forall a b, eqb a b = true <-> a = b) ->
  distinct eqb l = true <-> NoDup l.
Proof.
  intros Heqb. induction l as [|k ks IH]; simpl.
  - split; [constructor | reflexivity].
  - rewrite andb_true_iff, negb_true_iff, IH. split.
    + intros [Hnin Hnd]. constructor; [|assumption].
      intros Hin. apply not_true_iff_false in Hnin. apply Hnin.
      apply existsb_exists. exists k. split; [assumption | now apply Heqb].
    + intros Hnd. inversion Hnd as [|? ? Hnin Hnd']; subst. split; [|assumption].
      apply not_true_iff_false. intros Hex. apply existsb_exists in Hex.
      destruct Hex as (y & Hy & Heq). apply Heqb in Heq. now subst.
Qed.

Lemma pair_eqb_eq (a b : uuid * uuid) : pair_eqb a b = true <-> a = b.
Proof.
  destruct a as [a1 a2], b as [b1 b2]. unfold pair_eqb. simpl.
  rewrite andb_true_iff, !N.eqb_eq. split; [intros [-> ->] | intros [= -> ->]]; auto.
Qed.

Lemma pair_exists_In (k : uuid * uuid) (l : list (uuid * uuid)) :
  existsb (pair_eqb k) l = true <-> In k l.
Proof.
  rewrite existsb_exists. split.
  - intros (y & Hy & Heq). apply pair_eqb_eq in Heq. now subst.
  - intros Hin. exists k. split; [assumption | now apply pair_eqb_eq].
Qed.

Lemma NoDup_map_filter {X K : Type} (f : X -> K) (p : X -> bool) (l : list X) :
  NoDup (map f l) -> NoDup (map f (filter p l)).
Proof.
  induction l as [|x l IH]; simpl; intros Hnd; [constructor|].
  inversion Hnd as [|? ? Hnin Hnd']; subst.
  destruct (p x); simpl; [|auto].
  constructor; [|auto].
  intros Hin. apply Hnin. apply in_map_iff in Hin.
  destruct Hin as (y & Hy & Hin). apply filter_In in Hin.
  rewrite <- Hy. apply in_map. tauto.
Qed.

Lemma NoDup_snoc {K : Type} (l : list K) (k : K) :
  NoDup l -> ~ In k l -> NoDup (l ++ [k]).
Proof.
  intros Hnd Hnin. apply NoDup_app; [assumption | repeat constructor; auto |].
  intros x Hx [<-|[]]. contradiction.
Qed.

(** What a successful INSERT into ratings did. *)
Lemma insert_rating_ok (env : stmt_env) (c : caller) (d d' : db) (v : rating_cols) :
  insert_rating env c d v = Ok d' ->
  exists u s n,
    c_user_id v = Some u /\ c_store_id v = Some s /\ c_rating v = Some n
    /\ rating_check n = true
    /\ ~ In (u, s) (map rating_key (ratings d))
    /\ ~ In (or_default (c_id v) (gen_random_uuid env)) (map r_id (ratings d))
    /\ d' = set_ratings d (ratings d ++
              [{| r_id := or_default (c_id v) (gen_random_uuid env);
                  r_user_id := u; r_store_id := s; r_rating := n;
                  r_created_at := or_default (c_created_at v) (now env);
                  r_updated_at := or_default (c_updated_at v) (now env) |}]).
Proof.
  unfold insert_rating. intros Hi. invert_binds.
  destruct (c_user_id v) as [u|]; [|discriminate].
  destruct (c_store_id v) as [s|]; [|discriminate].
  destruct (c_rating v) as [n|]; [|discriminate].
  invert_binds. subst. do 3 eexists.
  repeat (split; [reflexivity|]). split; [assumption|].
  simpl in *. split; [|split; [|reflexivity]].
  - match goal with
    | Hb : negb (existsb (pair_eqb _) _) = true |- _ =>
        apply negb_true_iff, not_true_iff_false in Hb;
        intros Hin; apply Hb; now apply pair_exists_In
    end.
  - match goal with
    | Hb : negb (mem _ (map r_id _)) = true |- _ =>
        now apply negb_true_iff, mem_not_In in Hb
    end.
Qed.

Lemma update_ratings_ok (env : stmt_env) (c : caller) (d d' : db)
      (v : rating_cols) (w : rating -> bool) :
  update_ratings env c d v w = Ok d' ->
  d' = set_ratings d
         (map (fun r => if w r && allowed (ratings_select d) c r
                           && allowed (ratings_update d) c r
                        then before_update env (rating_set v r) else r)
              (ratings d))
  /\ NoDup (map rating_key (ratings d'))
  /\ NoDup (map r_id (ratings d')).
Proof.
  unfold update_ratings. intros Hu. invert_binds. subst d'. simpl.
  split; [reflexivity|]. split.
  - eapply distinct_NoDup; [apply pair_eqb_eq | eassumption].
  - eapply distinct_NoDup; [apply N.eqb_eq | eassumption].
Qed.

End UniqueKeys.

Lemma exec_ratings_keeps_pairs (env : stmt_env) (c : caller) (d : db)
      (st : ratings_stmt) :
  NoDup (map rating_key (ratings d)) ->
  NoDup (map rating_key (ratings (fst (exec_ratings env c d st)))).
Proof.
  intros Hnd. unfold exec_ratings. destruct st as [v|v w|w].
  - destruct (insert_rating env c d v) as [d'|e] eqn:Hi; simpl; [|assumption].
    apply insert_rating_ok in Hi.
    destruct Hi as (u & s & n & _ & _ & _ & _ & Hnin & _ & ->). simpl.
    rewrite map_app. simpl. now apply NoDup_snoc.
  - destruct (update_ratings env c d v w) as [d'|e] eqn:Hu; simpl; [|assumption].
    now apply update_ratings_ok in Hu.
  - simpl. now apply NoDup_map_filter.
Qed.

(** C2. The ratings table never holds two rows for one (user, store)
    pair: after any history of statements on it the pairs are still
    distinct; and an INSERT for a pair that already has a row fails and
    leaves the database as it was, with a uniqueness violation whenever
    the new row is one the caller may insert and its rating passes the
    range check. *)
Theorem one_rating_per_user_and_store (env : stmt_env) (c : caller) (d : db) :
  NoDup (map rating_key (ratings d)) ->
  (forall history, NoDup (map rating_key (ratings (exec_ratings_all d history))))
  /\ (forall v u s,
        c_user_id v = Some u -> c_store_id v = Some s ->
        In (u, s) (map rating_key (ratings d)) ->
        exists e,
          exec_ratings env c d (Insert v) = (d, Some e)
          /\ (bypass_rls c || ratings_insert d c (Some u) = true ->
              (exists n, c_rating v = Some n /\ rating_check n = true) ->
              is_unique_violation e = true)).
Proof.
  intros Hnd. split.
  - intros history. revert d Hnd.
    induction history as [|[[env' c'] st] rest IH]; intros d Hnd; simpl.
    + assumption.
    + apply IH. now apply exec_ratings_keeps_pairs.
  - intros v u s Hu Hs Hin. unfold exec_ratings, insert_rating.
    rewrite Hu, Hs. apply pair_exists_In in Hin.
    destruct (bypass_rls c || ratings_insert d c (Some u)); simpl;
      [|eexists; split; [reflexivity | discriminate]].
    destruct (c_rating v) as [n|]; simpl;
      [|eexists; split; [reflexivity | intros _ (n & Hn & _); discriminate]].
    destruct (rating_check n) eqn:Hchk; simpl;
      [|eexists; split; [reflexivity|];
        intros _ (n' & [= <-] & Hn'); congruence].
    destruct (mem _ (map r_id (ratings d))); simpl;
      [eexists; split; reflexivity|].
    unfold rating_key at 1. simpl. rewrite Hin. simpl.
    eexists; split; reflexivity.
Qed.

Lemma one_rating_per_user_and_store_witness :
  let env := {| now := 9%Z; gen_random_uuid := 31%N |} in
  let d := {| auth_users := [{| au_id := 1%N; au_email := Some "a@x";
                                au_raw_user_meta_data := [] |}];
              profiles := []; user_roles := [];
              stores := [{| s_id := 7%N; s_owner_id := 1%N; s_name := "Shop";
                            s_email := "s@x"; s_address := "Road";
                            s_created_at := 0%Z; s_updated_at := 0%Z |}];
              ratings := [{| r_id := 30%N; r_user_id := 1%N; r_store_id := 7%N;
                             r_rating := 4%Z; r_created_at := 1%Z;
                             r_updated_at := 1%Z |}] |} in
  let v := {| c_id := None; c_user_id := Some 1%N; c_store_id := Some 7%N;
              c_rating := Some 2%Z; c_created_at := None; c_updated_at := None |} in
  NoDup (map rating_key (ratings d))
  /\ In (1%N, 7%N) (map rating_key (ratings d))
  /\ exec_ratings env (Authenticated 1%N) d (Insert v)
     = (d, Some (unique_violation "ratings_user_id_store_id_key"))
  /\ exists e, exec_ratings env (Authenticated 1%N) d (Insert v) = (d, Some e)
       /\ (bypass_rls (Authenticated 1%N)
           || ratings_insert d (Authenticated 1%N) (Some 1%N) = true ->
           (exists n, c_rating v = Some n /\ rating_check n = true) ->
           is_unique_violation e = true).
Proof.
  intros env d v.
  assert (Hnd : NoDup (map rating_key (ratings d)))
    by (simpl; constructor; [intros [] | constructor]).
  assert (Hin : In (1%N, 7%N) (map rating_key (ratings d)))
    by (simpl; left; reflexivity).
  split; [exact Hnd|]. split; [exact Hin|]. split; [reflexivity|].
  exact (proj2 (one_rating_per_user_and_store env (Authenticated 1%N) d Hnd)
               v 1%N 7%N eq_refl eq_refl Hin).
Defined.

(** ** The timestamp trigger *)

Section OwnRowsOnly.

Lemma update_stores_ok (env : stmt_env) (c : caller) (d d' : db)
      (v : store_cols) (w : store -> bool) :
  update_stores env c d v w = Ok d' ->
  d' = set_stores d
         (map (fun s => if w s && allowed (stores_select d) c s
                           && allowed (stores_update d) c s
                        then before_update env (store_set v s) else s)
              (stores d))
  /\ forall s, In s (stores d) ->
       w s && allowed (stores_select d) c s && allowed (stores_update d) c s = true ->
       allowed (stores_update d) c (before_update env (store_set v s)) = true.
Proof.
  unfold update_stores. intros Hu. invert_binds. split; [now subst|].
  intros s Hs Ht.
  match goal with
  | Hf : forallb (allowed _ _) _ = true |- _ =>
      rewrite forallb_forall in Hf; apply Hf
  end.
  apply in_map_iff. exists s. split; [reflexivity|]. apply filter_In. now split.
Qed.

Lemma update_profiles_ok (env : stmt_env) (c : caller) (d d' : db)
      (v : profile_cols) (w : profile -> bool) :
  update_profiles env c d v w = Ok d' ->
  d' = set_profiles d
         (map (fun p => if w p && allowed (profiles_select d) c p
                           && allowed (profiles_update d) c p
                        then before_update env (profile_set v p) else p)
              (profiles d))
  /\ forall p, In p (profiles d) ->
       w p && allowed (profiles_select d) c p && allowed (profiles_update d) c p = true ->
       allowed (profiles_update d) c (before_update env (profile_set v p)) = true.
Proof.
  unfold update_profiles. intros Hu. invert_binds. split; [now subst|].
  intros p Hp Ht.
  match goal with
  | Hf : forallb (allowed _ _) _ = true |- _ =>
      rewrite forallb_forall in Hf; apply Hf
  end.
  apply in_map_iff. exists p. split; [reflexivity|]. apply filter_In. now split.
Qed.

End OwnRowsOnly.

(** C8 (as amended).  The trigger function replaces updated_at of the
    row it is given by the current time and returns every other column
    as it was.  Every UPDATE statement on profiles, on stores and on
    ratings that goes through passes each row it changes through it: the
    row written carries, column by column, the value of the SET list
    where it gives one and the old value where it does not, except for
    updated_at, which is the current time whatever the SET list says;
    the rows the statement does not select stay as they are.  The new
    updated_at is greater than or equal to the previous one whenever the
    previous one is not later than the current time. *)
Theorem updated_at_set_to_now (env : stmt_env) (c : caller) (d : db) :
  (forall NEW : profile,
      update_updated_at_column env NEW
      = {| p_id := p_id NEW; p_name := p_name NEW; p_email := p_email NEW;
           p_address := p_address NEW; p_created_at := p_created_at NEW;
           p_updated_at := now env |})
  /\ (forall NEW : store,
      update_updated_at_column env NEW
      = {| s_id := s_id NEW; s_owner_id := s_owner_id NEW; s_name := s_name NEW;
           s_email := s_email NEW; s_address := s_address NEW;
           s_created_at := s_created_at NEW; s_updated_at := now env |})
  /\ (forall NEW : rating,
      update_updated_at_column env NEW
      = {| r_id := r_id NEW; r_user_id := r_user_id NEW;
           r_store_id := r_store_id NEW; r_rating := r_rating NEW;
           r_created_at := r_created_at NEW; r_updated_at := now env |})
  /\ (forall (v : profile_cols) (w : profile -> bool) (d' : db),
      update_profiles env c d v w = Ok d' ->
      let selected p := w p && allowed (profiles_select d) c p
                        && allowed (profiles_update d) c p in
      let written p := {| p_id := or_default (pc_id v) (p_id p);
                          p_name := or_default (pc_name v) (p_name p);
                          p_email := or_default (pc_email v) (p_email p);
                          p_address := or_default (pc_address v) (p_address p);
                          p_created_at := or_default (pc_created_at v) (p_created_at p);
                          p_updated_at := now env |} in
      profiles d' = map (fun p => if selected p then written p else p) (profiles d)
      /\ forall p, (p_updated_at p <= now env)%Z ->
                   (p_updated_at p <= p_updated_at (written p))%Z)
  /\ (forall (v : store_cols) (w : store -> bool) (d' : db),
      update_stores env c d v w = Ok d' ->
      let selected s := w s && allowed (stores_select d) c s
                        && allowed (stores_update d) c s in
      let written s := {| s_id := or_default (sc_id v) (s_id s);
                          s_owner_id := or_default (sc_owner_id v) (s_owner_id s);
                          s_name := or_default (sc_name v) (s_name s);
                          s_email := or_default (sc_email v) (s_email s);
                          s_address := or_default (sc_address v) (s_address s);
                          s_created_at := or_default (sc_created_at v) (s_created_at s);
                          s_updated_at := now env |} in
      stores d' = map (fun s => if selected s then written s else s) (stores d)
      /\ forall s, (s_updated_at s <= now env)%Z ->
                   (s_updated_at s <= s_updated_at (written s))%Z)
  /\ (forall (v : rating_cols) (w : rating -> bool) (d' : db),
      update_ratings env c d v w = Ok d' ->
      let selected r := w r && allowed (ratings_select d) c r
                        && allowed (ratings_update d) c r in
      let written r := {| r_id := or_default (c_id v) (r_id r);
                          r_user_id := or_default (c_user_id v) (r_user_id r);
                          r_store_id := or_default (c_store_id v) (r_store_id r);
                          r_rating := or_default (c_rating v) (r_rating r);
                          r_created_at := or_default (c_created_at v) (r_created_at r);
                          r_updated_at := now env |} in
      ratings d' = map (fun r => if selected r then written r else r) (ratings d)
      /\ forall r, (r_updated_at r <= now env)%Z ->
                   (r_updated_at r <= r_updated_at (written r))%Z).
Proof.
  split; [reflexivity|]. split; [reflexivity|]. split; [reflexivity|].
  split; [|split].
  - intros v w d' Hu. apply update_profiles_ok in Hu. destruct Hu as [-> _].
    split; [reflexivity | intros p Hp; exact Hp].
  - intros v w d' Hu. apply update_stores_ok in Hu. destruct Hu as [-> _].
    split; [reflexivity | intros s Hs; exact Hs].
  - intros v w d' Hu. apply update_ratings_ok in Hu. destruct Hu as (-> & _ & _).
    split; [reflexivity | intros r Hr; exact Hr].
Qed.

Lemma updated_at_set_to_now_witness :
  let env := {| now := 50%Z; gen_random_uuid := 0%N |} in
  let d := {| auth_users := [{| au_id := 1%N; au_email := Some "a@x";
                                au_raw_user_meta_data := [] |}];
              profiles := [{| p_id := 1%N; p_name := "Ann"; p_email := "a@x";
                              p_address := "A"; p_created_at := 10%Z;
                              p_updated_at := 20%Z |}];
              user_roles := [];
              stores := [{| s_id := 7%N; s_owner_id := 1%N; s_name := "Shop";
                            s_email := "s@x"; s_address := "Road";
                            s_created_at := 10%Z; s_updated_at := 20%Z |}];
              ratings := [{| r_id := 30%N; r_user_id := 1%N; r_store_id := 7%N;
                             r_rating := 4%Z; r_created_at := 10%Z;
                             r_updated_at := 20%Z |}] |} in
  let vp := {| pc_id := None; pc_name := Some "Zed"; pc_email := None;
               pc_address := None; pc_created_at := None;
               pc_updated_at := Some 5%Z |} in
  let vs := {| sc_id := None; sc_owner_id := None; sc_name := Some "Mine";
               sc_email := None; sc_address := None; sc_created_at := None;
               sc_updated_at := Some 5%Z |} in
  let vr := {| c_id := None; c_user_id := None; c_store_id := None;
               c_rating := Some 2%Z; c_created_at := None;
               c_updated_at := Some 5%Z |} in
  exists d1 d2 d3,
    update_profiles env (Authenticated 1%N) d vp (fun _ => true) = Ok d1
    /\ profiles d1 = [{| p_id := 1%N; p_name := "Zed"; p_email := "a@x";
                         p_address := "A"; p_created_at := 10%Z;
                         p_updated_at := 50%Z |}]
    /\ update_stores env (Authenticated 1%N) d vs (fun _ => true) = Ok d2
    /\ stores d2 = [{| s_id := 7%N; s_owner_id := 1%N; s_name := "Mine";
                       s_email := "s@x"; s_address := "Road";
                       s_created_at := 10%Z; s_updated_at := 50%Z |}]
    /\ update_ratings env (Authenticated 1%N) d vr (fun _ => true) = Ok d3
    /\ ratings d3 = [{| r_id := 30%N; r_user_id := 1%N; r_store_id := 7%N;
                        r_rating := 2%Z; r_created_at := 10%Z;
                        r_updated_at := 50%Z |}].
Proof.
  intros env d vp vs vr.
  destruct (update_profiles env (Authenticated 1%N) d vp (fun _ => true))
    as [d1|e1] eqn:H1; [|vm_compute in H1; discriminate].
  destruct (update_stores env (Authenticated 1%N) d vs (fun _ => true))
    as [d2|e2] eqn:H2; [|vm_compute in H2; discriminate].
  destruct (update_ratings env (Authenticated 1%N) d vr (fun _ => true))
    as [d3|e3] eqn:H3; [|vm_compute in H3; discriminate].
  destruct (updated_at_set_to_now env (Authenticated 1%N) d)
    as (_ & _ & _ & Hp & Hs & Hr).
  exists d1, d2, d3.
  split; [reflexivity|].
  split; [exact (proj1 (Hp vp (fun _ => true) d1 H1))|].
  split; [reflexivity|].
  split; [exact (proj1 (Hs vs (fun _ => true) d2 H2))|].
  split; [reflexivity|].
  exact (proj1 (Hr vr (fun _ => true) d3 H3)).
Defined.

(** C8 as stated fails: a row inserted with an updated_at that lies in
    the future (the trigger does not fire on INSERT, and the column only
    has a DEFAULT) gets a smaller updated_at at its next update. *)
Lemma updated_at_may_decrease :
  let d0 := {| auth_users := [{| au_id := 1%N; au_email := Some "a@x";
                                 au_raw_user_meta_data := [] |}];
               profiles := []; user_roles := [];
               stores := [{| s_id := 7%N; s_owner_id := 1%N; s_name := "Shop";
                             s_email := "s@x"; s_address := "Road";
                             s_created_at := 0%Z; s_updated_at := 0%Z |}];
               ratings := [] |} in
  let old := {| r_id := 30%N; r_user_id := 1%N; r_store_id := 7%N; r_rating := 4%Z;
                r_created_at := 10%Z; r_updated_at := 100%Z |} in
  let new := {| r_id := 30%N; r_user_id := 1%N; r_store_id := 7%N; r_rating := 2%Z;
                r_created_at := 10%Z; r_updated_at := 20%Z |} in
  exists d1 d2,
    insert_rating {| now := 10%Z; gen_random_uuid := 30%N |} (Authenticated 1%N) d0
      {| c_id := None; c_user_id := Some 1%N; c_store_id := Some 7%N;
         c_rating := Some 4%Z; c_created_at := None;
         c_updated_at := Some 100%Z |} = Ok d1
    /\ ratings d1 = [old]
    /\ update_ratings {| now := 20%Z; gen_random_uuid := 31%N |} (Authenticated 1%N) d1
         {| c_id := None; c_user_id := None; c_store_id := None;
            c_rating := Some 2%Z; c_created_at := None; c_updated_at := None |}
         (fun r => N.eqb (r_user_id r) 1 && N.eqb (r_store_id r) 7) = Ok d2
    /\ ratings d2 = [new]
    /\ ~ (r_updated_at old <= r_updated_at new)%Z.
Proof.
  intros d0 old new. eexists. eexists.
  split; [reflexivity|]. split; [reflexivity|].
  split; [reflexivity|]. split; [reflexivity|].
  simpl. lia.
Qed.

(** ** The provisioning endpoint *)

Module ProvisioningFacts.
Import Provisioning.

Section HandlerFacts.
Context `{Runtime}.

(** A failed call writes nothing. *)
Lemma user_roles_update_eq_failed (pe : provider_env) (d d' : db)
      (role : json) (uid : uuid) (res : called (option api_error)) :
  user_roles_update_eq pe d role uid = (d', res) ->
  res <> Returned None -> d' = d.
Proof.
  unfold user_roles_update_eq.
  destruct (update_fault pe) as [[e|m]|].
  - now intros [= <- _].
  - now intros [= <- _].
  - destruct (update_user_roles_role ServiceRole d role uid).
    + intros [= _ <-]. congruence.
    + now intros [= <- _].
Qed.

Lemma admin_createUser_created (pe : provider_env) (d d1 : db) (b : json) :
  create_fault pe = None ->
  create_identity (create_env pe) d (requested_identity pe b) = Ok d1 ->
  admin_createUser pe d (get b "email") (get b "password") (requested_meta b)
  = (d1, Returned {| data_user := Some (requested_user pe b); error := None |}).
Proof.
  intros Hf Hc. unfold admin_createUser. rewrite Hf.
  unfold requested_identity in Hc. now rewrite Hc.
Qed.

(** createUser returns a user exactly when it returns no error. *)
Lemma admin_createUser_returned (pe : provider_env) (d d1 : db)
      (em pw : js) (meta : list (string * json)) (r : create_return) :
  admin_createUser pe d em pw meta = (d1, Returned r) ->
  (error r = None ->
     create_fault pe = None
     /\ data_user r = Some {| id := new_user_id pe; email := em;
                              user_metadata := meta |})
  /\ (forall f, create_fault pe = Some f -> error r <> None).
Proof.
  unfold admin_createUser.
  destruct (create_fault pe) as [[e|m]|].
  - intros [= _ <-]. simpl. split; [discriminate | intros; discriminate].
  - discriminate.
  - destruct (create_identity _ _ _); intros [= _ <-]; simpl;
      (split; [intros; try discriminate; auto | intros; discriminate]).
Qed.

Lemma has_role_snoc (d : db) (rows : list user_role) (ur : user_role) :
  user_roles d = rows ++ [ur] ->
  has_role d (Some (ur_user_id ur)) (ur_role ur) = true.
Proof.
  intros Hrows. unfold has_role. rewrite Hrows, existsb_app. simpl.
  rewrite N.eqb_refl. destruct (ur_role ur); simpl; apply orb_true_r.
Qed.

(** Without a textual e-mail no identity is created: the registration
    trigger cannot write the profile, whose email column is NOT NULL, and
    the creation is undone with it. *)
Lemma admin_createUser_without_email (pe : provider_env) (d : db)
      (em pw : js) (meta : list (string * json)) :
  text_of em = None ->
  fst (admin_createUser pe d em pw meta) = d
  /\ forall r, snd (admin_createUser pe d em pw meta) = Returned r ->
               exists e, error r = Some e.
Proof.
  intros Hem. unfold admin_createUser.
  destruct (create_fault pe) as [[e|m]|]; simpl.
  - split; [reflexivity|]. intros r [= <-]. simpl. eauto.
  - split; [reflexivity | discriminate].
  - destruct (create_identity _ _ _) as [d'|err] eqn:Hc; simpl.
    + apply create_identity_ok in Hc. destruct Hc as (e & He & _).
      simpl in He. congruence.
    + split; [reflexivity|]. intros r [= <-]. simpl. eauto.
Qed.

(** The handler on a POST request whose body can be destructured. *)
Lemma handler_post (pe : provider_env) (d : db) (req : request)
      (parsed : js) (b : json) :
  String.eqb (method req) "POST" = true ->
  parse_body (body req) = Some parsed ->
  destructurable parsed = Some b ->
  handler pe d req
  = match admin_createUser pe d (get b "email") (get b "password")
            (requested_meta b) with
    | (d1, Thrown m) => caught d1 [create_call b] m
    | (d1, Returned r) =>
        match error r with
        | Some e =>
            respond d1 [create_call b] 400
              (error_json (message_or (message e) "Supabase error"))
        | None => assign_role pe d1 [create_call b] (get b "role") r
        end
    end.
Proof.
  intros Hm Hp Hd. unfold handler. rewrite Hm, Hp, Hd. reflexivity.
Qed.

(** C5 (as amended).  The handler answers 405 to every request whose
    method is not POST and 400 to a string body that is not JSON.  It
    does not look at email or password itself: they go to the backend as
    they are.  For a body that can be destructured the answer is either
    400 with an error string or 200 with success and the created user
    (id, email, user_metadata); it is 400 whenever the backend refuses
    or throws at identity creation, or at a role update the handler
    made, and it is 200 exactly when the identity creation returned
    without error and the role update, if one was due, did too.  A
    request without a textual email is always answered 400, after the one
    call to the backend, with nothing written: the identity cannot be
    created without it.  No such guarantee holds for the password. *)
Theorem handler_status_codes (pe : provider_env) (d : db) (req : request) :
  let r := handler pe d req in
  (String.eqb (method req) "POST" = false ->
     outcome r = Some {| status := 405; json_body := error_json "Method not allowed" |}
     /\ final_db r = d /\ calls r = [])
  /\ (String.eqb (method req) "POST" = true ->
      parse_body (body req) = None ->
      outcome r = Some {| status := 400; json_body := error_json "Invalid JSON format" |}
      /\ final_db r = d /\ calls r = [])
  /\ (String.eqb (method req) "POST" = true ->
      forall parsed b,
        parse_body (body req) = Some parsed ->
        destructurable parsed = Some b ->
        exists resp,
          outcome r = Some resp
          /\ ((status resp = 400 /\ exists msg, json_body resp = error_json msg)
              \/ (status resp = 200
                  /\ json_body resp = success_json (Some (requested_user pe b))
                  /\ create_fault pe = None))
          /\ (forall f, create_fault pe = Some f -> status resp = 400)
          /\ (forall f role uid,
                update_fault pe = Some f ->
                In (UpdateRole role uid) (calls r) -> status resp = 400)
          /\ (status resp = 200 <->
              exists d1 ret,
                admin_createUser pe d (get b "email") (get b "password")
                  (requested_meta b) = (d1, Returned ret)
                /\ error ret = None
                /\ (truthy (get b "role") && not_normal_user (get b "role") = false
                    \/ exists role d2,
                         get b "role" = Some role
                         /\ user_roles_update_eq pe d1 role (new_user_id pe)
                            = (d2, Returned None))))
  /\ (String.eqb (method req) "POST" = true ->
      forall parsed b,
        parse_body (body req) = Some parsed ->
        destructurable parsed = Some b ->
        text_of (get b "email") = None ->
        (exists msg,
            outcome r = Some {| status := 400; json_body := error_json msg |})
        /\ final_db r = d /\ calls r = [create_call b]).
Proof.
  intros r. subst r. split; [|split; [|split]].
  - intros Hm. unfold handler. rewrite Hm. simpl. auto.
  - intros Hm Hp. unfold handler. rewrite Hm, Hp. simpl. auto.
  - intros Hm parsed b Hp Hd. rewrite (handler_post pe d req parsed b Hm Hp Hd).
    destruct (admin_createUser pe d (get b "email") (get b "password")
                (requested_meta b)) as [d1 [ret|m]] eqn:Hcreate.
    + destruct (admin_createUser_returned _ _ _ _ _ _ _ Hcreate) as [Hok Hfault].
      destruct (error ret) as [e|] eqn:Herr.
      * eexists. split; [reflexivity|]. cbn [status json_body calls respond].
        split; [left; eauto|]. split; [reflexivity|].
        split; [intros f ro uid _ [[=]|[]]|].
        split; [discriminate|].
        intros (d1' & ret' & [= _ <-] & Hnone & _). congruence.
      * destruct (Hok eq_refl) as [Hnf Huser].
        unfold assign_role. rewrite Huser.
        destruct (get b "role") as [role|] eqn:Hrole;
          [destruct (truthy (Some role) && not_normal_user (Some role)) eqn:Hwant|].
        -- cbn [id].
           destruct (user_roles_update_eq pe d1 role (new_user_id pe))
             as [d2 [[roleError|]|m]] eqn:Hupd.
           ++ eexists. split; [reflexivity|]. cbn [status json_body calls respond].
              split; [left; eauto|]. split; [reflexivity|].
              split; [reflexivity|]. split; [discriminate|].
              intros (d1' & ret' & [= <- _] & _ & [Hno | (ro & d2' & [= <-] & Hup)]);
                congruence.
           ++ eexists. split; [reflexivity|]. cbn [status json_body calls respond].
              split; [right; auto|]. split; [congruence|].
              split.
              { intros f ro uid Hf _. unfold user_roles_update_eq in Hupd.
                rewrite Hf in Hupd. destruct f; discriminate. }
              split; [intros _|reflexivity].
              exists d1, ret. split; [reflexivity|]. split; [assumption|].
              right. exists role, d2. split; [reflexivity | assumption].
           ++ eexists. split; [reflexivity|].
              cbn [status json_body calls respond caught].
              split; [left; eauto|]. split; [reflexivity|].
              split; [reflexivity|]. split; [discriminate|].
              intros (d1' & ret' & [= <- _] & _ & [Hno | (ro & d2' & [= <-] & Hup)]);
                congruence.
        -- eexists. split; [reflexivity|]. cbn [status json_body calls respond].
           split; [right; auto|]. split; [congruence|].
           split; [intros f ro uid _ [[=]|[]]|].
           split; [intros _|reflexivity].
           exists d1, ret. split; [reflexivity|]. split; [assumption|]. now left.
        -- eexists. split; [reflexivity|]. cbn [status json_body calls respond].
           split; [right; auto|]. split; [congruence|].
           split; [intros f ro uid _ [[=]|[]]|].
           split; [intros _|reflexivity].
           exists d1, ret. split; [reflexivity|]. split; [assumption|]. now left.
    + eexists. split; [reflexivity|]. cbn [status json_body calls respond caught].
      split; [left; eauto|]. split; [reflexivity|].
      split; [reflexivity|]. split; [discriminate|].
      intros (d1' & ret' & [=] & _).
  - intros Hm parsed b Hp Hd Hem. rewrite (handler_post pe d req parsed b Hm Hp Hd).
    destruct (admin_createUser_without_email pe d (get b "email")
                (get b "password") (requested_meta b) Hem) as [Hdb Herr].
    destruct (admin_createUser pe d (get b "email") (get b "password")
                (requested_meta b)) as [d1 [ret|m]]; simpl in Hdb; subst d1.
    + destruct (Herr ret eq_refl) as (e & ->).
      cbn [outcome final_db calls respond]. eauto.
    + cbn [outcome final_db calls respond caught]. eauto.
Qed.

(** C6. When the identity is created and the role update that follows
    fails, the handler answers 400 with the error message of the
    failed call (or the fixed text when it has none), makes no further
    call, and leaves the database as the identity creation left it: the
    identity is there and holds the role normal_user the registration
    trigger gave it. *)
Theorem failed_role_update_keeps_default_role
        (pe : provider_env) (d d1 : db) (req : request)
        (parsed : js) (b role : json) :
  String.eqb (method req) "POST" = true ->
  parse_body (body req) = Some parsed ->
  destructurable parsed = Some b ->
  create_fault pe = None ->
  create_identity (create_env pe) d (requested_identity pe b) = Ok d1 ->
  get b "role" = Some role ->
  truthy (Some role) && not_normal_user (Some role) = true ->
  snd (user_roles_update_eq pe d1 role (new_user_id pe)) <> Returned None ->
  let r := handler pe d req in
  (exists msg,
      outcome r = Some {| status := 400; json_body := error_json msg |}
      /\ (forall e, snd (user_roles_update_eq pe d1 role (new_user_id pe))
                    = Returned (Some e) ->
                    msg = message_or (message e) "Role update error")
      /\ (forall m, snd (user_roles_update_eq pe d1 role (new_user_id pe))
                    = Thrown m ->
                    msg = message_or m "Unknown error"))
  /\ calls r = [create_call b; UpdateRole (Some role) (new_user_id pe)]
  /\ final_db r = d1
  /\ In (requested_identity pe b) (auth_users (final_db r))
  /\ user_roles (final_db r)
     = user_roles d ++ [{| ur_id := gen_random_uuid (create_env pe);
                           ur_user_id := new_user_id pe;
                           ur_role := normal_user;
                           ur_created_at := now (create_env pe) |}]
  /\ has_role (final_db r) (Some (new_user_id pe)) normal_user = true.
Proof.
  intros Hm Hp Hd Hnf Hc Hrole Hwant Hfail r. subst r.
  rewrite (handler_post pe d req parsed b Hm Hp Hd).
  rewrite (admin_createUser_created pe d d1 b Hnf Hc).
  cbn [error]. unfold assign_role. cbn [data_user]. rewrite Hrole, Hwant.
  cbn [id requested_user].
  assert (Hdb : forall d2 res,
             user_roles_update_eq pe d1 role (new_user_id pe) = (d2, res) ->
             res <> Returned None ->
             In (requested_identity pe b) (auth_users d2)
             /\ user_roles d2
                = user_roles d ++ [{| ur_id := gen_random_uuid (create_env pe);
                                      ur_user_id := new_user_id pe;
                                      ur_role := normal_user;
                                      ur_created_at := now (create_env pe) |}]
             /\ has_role d2 (Some (new_user_id pe)) normal_user = true
             /\ d2 = d1).
  { intros d2 res Hupd Hres.
    rewrite (user_roles_update_eq_failed pe d1 d2 role _ res Hupd Hres).
    apply create_identity_ok in Hc. destruct Hc as (e & _ & -> & _). simpl.
    repeat split.
    - apply in_or_app. right. now left.
    - apply (has_role_snoc _ (user_roles d) (bootstrap_role (create_env pe)
                                               (requested_identity pe b))).
      reflexivity. }
  destruct (user_roles_update_eq pe d1 role (new_user_id pe))
    as [d2 [[roleError|]|m]] eqn:Hupd; simpl in Hfail.
  - destruct (Hdb d2 _ eq_refl Hfail) as (Hin & Hroles & Hhas & ->).
    cbn [outcome calls final_db respond]. split.
    + eexists. split; [reflexivity|]. split.
      * now intros e [= <-].
      * discriminate.
    + repeat split; assumption.
  - congruence.
  - destruct (Hdb d2 _ eq_refl Hfail) as (Hin & Hroles & Hhas & ->).
    cbn [outcome calls final_db respond caught]. split.
    + eexists. split; [reflexivity|]. split.
      * discriminate.
      * intros m' [= <-]. reflexivity.
    + repeat split; assumption.
Qed.

(** C9. When the role field of the request is absent or 'normal_user',
    the only call the handler makes is the identity creation: the
    database it leaves is the one the creation left, user_roles
    included, and a successful creation is answered with 200. *)
Theorem default_role_is_not_rewritten
        (pe : provider_env) (d : db) (req : request) (parsed : js) (b : json) :
  String.eqb (method req) "POST" = true ->
  parse_body (body req) = Some parsed ->
  destructurable parsed = Some b ->
  get b "role" = None \/ get b "role" = Some (JStr "normal_user") ->
  let r := handler pe d req in
  let created := admin_createUser pe d (get b "email") (get b "password")
                   (requested_meta b) in
  calls r = [create_call b]
  /\ final_db r = fst created
  /\ user_roles (final_db r) = user_roles (fst created)
  /\ (forall d1,
        create_fault pe = None ->
        create_identity (create_env pe) d (requested_identity pe b) = Ok d1 ->
        outcome r = Some {| status := 200;
                            json_body := success_json (Some (requested_user pe b)) |}
        /\ final_db r = d1
        /\ user_roles (final_db r)
           = user_roles d ++ [{| ur_id := gen_random_uuid (create_env pe);
                                 ur_user_id := new_user_id pe;
                                 ur_role := normal_user;
                                 ur_created_at := now (create_env pe) |}]).
Proof.
  intros Hm Hp Hd Hrole r created. subst r created.
  rewrite (handler_post pe d req parsed b Hm Hp Hd).
  assert (Hskip : forall d1 cs ret,
             assign_role pe d1 cs (get b "role") ret
             = respond d1 cs 200 (success_json (data_user ret))).
  { intros d1 cs ret. unfold assign_role.
    destruct Hrole as [-> | ->]; [reflexivity|].
    destruct (data_user ret); reflexivity. }
  assert (Hgen :
    let created := admin_createUser pe d (get b "email") (get b "password")
                     (requested_meta b) in
    forall res,
      res = match created with
            | (d1, Thrown m) => caught d1 [create_call b] m
            | (d1, Returned r) =>
                match error r with
                | Some e => respond d1 [create_call b] 400
                              (error_json (message_or (message e) "Supabase error"))
                | None => assign_role pe d1 [create_call b] (get b "role") r
                end
            end ->
      calls res = [create_call b] /\ final_db res = fst created).
  { intros created res ->. subst created.
    destruct (admin_createUser pe d _ _ _) as [d1 [ret|m]].
    - destruct (error ret); [split; reflexivity|].
      rewrite Hskip. split; reflexivity.
    - split; reflexivity. }
  destruct (Hgen _ eq_refl) as [Hcalls Hfinal].
  split; [exact Hcalls|]. split; [exact Hfinal|].
  split; [now rewrite Hfinal|].
  intros d1 Hnf Hc.
  rewrite (admin_createUser_created pe d d1 b Hnf Hc).
  cbn [error]. rewrite Hskip. cbn [outcome final_db respond data_user].
  split; [reflexivity|]. split; [reflexivity|].
  apply create_identity_ok in Hc. now destruct Hc as (e & _ & -> & _).
Qed.

End HandlerFacts.

Lemma handler_status_codes_witness :
  let req := post [("name", JStr "Jane"); ("email", JStr "jane@x");
                   ("password", JStr "secret"); ("address", JStr "Road 1");
                   ("role", JStr "store_owner")] in
  let no_email := [("name", JStr "Jane"); ("password", JStr "secret")] in
  String.eqb (method req) "POST" = true
  /\ text_of (get (JObj no_email) "email") = None
  /\ (exists resp,
        outcome (@handler sample_runtime sample_provider empty_db req) = Some resp
        /\ status resp = 200)
  /\ (exists msg,
        outcome (@handler sample_runtime sample_provider empty_db (post no_email))
        = Some {| status := 400; json_body := error_json msg |})
  /\ final_db (@handler sample_runtime sample_provider empty_db (post no_email))
     = empty_db.
Proof.
  intros req no_email.
  assert (Hm : String.eqb (method req) "POST" = true) by reflexivity.
  assert (Hem : text_of (get (JObj no_email) "email") = None) by reflexivity.
  split; [exact Hm|]. split; [exact Hem|]. split.
  - destruct (proj1 (proj2 (proj2 (@handler_status_codes sample_runtime
                                     sample_provider empty_db req)))
                Hm _ _ eq_refl eq_refl)
      as (resp & Hout & _ & _).
    exists resp. split; [exact Hout|].
    vm_compute in Hout. injection Hout as <-. reflexivity.
  - destruct (proj2 (proj2 (proj2 (@handler_status_codes sample_runtime
                                     sample_provider empty_db (post no_email))))
                eq_refl _ (JObj no_email) eq_refl eq_refl Hem)
      as (Hout & Hdb & _).
    split; [exact Hout | exact Hdb].
Defined.

(** C5 as stated fails: the handler does not check that a password is
    present.  A POST without one is answered 200 when the backend
    creates the identity. *)
Lemma handler_accepts_missing_password :
  let req := post [("name", JStr "Jane"); ("email", JStr "jane@x")] in
  get (JObj [("name", JStr "Jane"); ("email", JStr "jane@x")]) "password" = None
  /\ outcome (@handler sample_runtime sample_provider empty_db req)
     = Some {| status := 200;
               json_body := success_json
                 (Some {| id := 1%N; email := Some (JStr "jane@x");
                          user_metadata := [("name", JStr "Jane")] |}) |}
  /\ ~ (exists msg,
          outcome (@handler sample_runtime sample_provider empty_db req)
          = Some {| status := 400; json_body := error_json msg |}).
Proof.
  intros req. split; [reflexivity|]. split; [reflexivity|].
  intros (msg & Hout). vm_compute in Hout. discriminate.
Qed.

Lemma failed_role_update_keeps_default_role_witness :
  let fields := [("email", JStr "owner@x"); ("password", JStr "secret");
                 ("role", JStr "admin")] in
  let r := @handler sample_runtime sample_provider empty_db (post fields) in
  snd (@user_roles_update_eq sample_provider
         {| auth_users := [@requested_identity sample_provider (JObj fields)];
            profiles := [{| p_id := 1%N; p_name := "Unknown"; p_email := "owner@x";
                            p_address := ""; p_created_at := 5%Z;
                            p_updated_at := 5%Z |}];
            user_roles := [{| ur_id := 40%N; ur_user_id := 1%N;
                              ur_role := normal_user; ur_created_at := 5%Z |}];
            stores := []; ratings := [] |}
         (JStr "admin") 1%N) <> Returned None
  /\ outcome r
     = Some {| status := 400;
               json_body := error_json "invalid input value for enum app_role" |}
  /\ has_role (final_db r) (Some 1%N) normal_user = true.
Proof.
  intros fields r.
  match goal with |- ?Hyp /\ _ => assert (Hfail : Hyp) by (vm_compute; discriminate) end.
  split; [exact Hfail|]. split; [reflexivity|].
  exact (proj2 (proj2 (proj2 (proj2 (proj2
           (@failed_role_update_keeps_default_role sample_runtime sample_provider
              empty_db _ (post fields) _ (JObj fields) (JStr "admin")
              eq_refl eq_refl eq_refl eq_refl eq_refl eq_refl eq_refl Hfail)))))).
Defined.

Lemma default_role_is_not_rewritten_witness :
  let fields := [("email", JStr "user@x"); ("password", JStr "secret");
                 ("role", JStr "normal_user")] in
  let r := @handler sample_runtime sample_provider empty_db (post fields) in
  (get (JObj fields) "role" = None \/ get (JObj fields) "role" = Some (JStr "normal_user"))
  /\ calls r = [create_call (JObj fields)]
  /\ option_map status (outcome r) = Some 200.
Proof.
  intros fields r.
  assert (Hrole : get (JObj fields) "role" = None
                  \/ get (JObj fields) "role" = Some (JStr "normal_user"))
    by (right; reflexivity).
  split; [exact Hrole|].
  split; [|reflexivity].
  exact (proj1 (@default_role_is_not_rewritten sample_runtime sample_provider
                  empty_db (post fields) _ (JObj fields)
                  eq_refl eq_refl eq_refl Hrole)).
Defined.

End ProvisioningFacts.

(** ** Roles held *)

Section RoleFunctions.

Lemma app_role_eqb_eq (a b : app_role) : app_role_eqb a b = true <-> a = b.
Proof. destruct a, b; simpl; split; congruence. Qed.

Lemma has_role_In (d : db) (u : uuid) (r : app_role) :
  has_role d (Some u) r = true
  <-> exists ur, In ur (user_roles d) /\ ur_user_id ur = u /\ ur_role ur = r.
Proof.
  unfold has_role. rewrite existsb_exists. split.
  - intros (ur & Hin & Hb). apply andb_prop in Hb. destruct Hb as [Hu Hr].
    simpl in Hu. apply N.eqb_eq in Hu. apply app_role_eqb_eq in Hr. eauto.
  - intros (ur & Hin & Hu & Hr). exists ur. split; [assumption|].
    simpl. rewrite <- Hu, N.eqb_refl. now apply app_role_eqb_eq.
Qed.

(** After the rewrite the user holds the new role and no other. *)
Lemma has_role_after_rewrite (d : db) (uid : uuid) (ro r : app_role) :
  let d' := set_user_roles d
              (map (fun x => if N.eqb (ur_user_id x) uid
                             then {| ur_id := ur_id x; ur_user_id := ur_user_id x;
                                     ur_role := ro; ur_created_at := ur_created_at x |}
                             else x)
                   (user_roles d)) in
  has_role d' (Some uid) r = true
  <-> r = ro /\ exists x, In x (user_roles d) /\ ur_user_id x = uid.
Proof.
  intros d'. subst d'. rewrite has_role_In. simpl. split.
  - intros (ur & Hin & Hu & Hr). apply in_map_iff in Hin.
    destruct Hin as (x & Hx & Hin).
    destruct (N.eqb (ur_user_id x) uid) eqn:Hxu.
    + subst ur. simpl in *. split; [congruence|]. eauto.
    + subst ur. apply N.eqb_neq in Hxu. contradiction.
  - intros (-> & x & Hin & Hu).
    exists {| ur_id := ur_id x; ur_user_id := ur_user_id x;
              ur_role := ro; ur_created_at := ur_created_at x |}.
    split; [|split; [assumption | reflexivity]].
    apply in_map_iff. exists x. split; [|assumption].
    apply N.eqb_eq in Hu. now rewrite Hu.
Qed.

End RoleFunctions.

(** ** Dashboard operations *)

Module DashboardFacts.

Lemma run_ok (t : transport) (d d' : db) (stmt : result db) :
  NormalUserDashboard.run t d stmt = (d', None) -> t = None /\ stmt = Ok d'.
Proof.
  unfold NormalUserDashboard.run. destruct t; [discriminate|].
  destruct stmt; [|discriminate]. now intros [= ->].
Qed.

Lemma run_failed (t : transport) (d d' : db) (stmt : result db) err :
  NormalUserDashboard.run t d stmt = (d', Some err) -> d' = d.
Proof.
  unfold NormalUserDashboard.run. destruct t; [now intros [= <- _]|].
  destruct stmt; [discriminate | now intros [= <- _]].
Qed.

Lemma insert_store_ok (env : stmt_env) (c : caller) (d d' : db)
      (name email address : text) (owner_id : uuid) :
  insert_store env c d name email address owner_id = Ok d' ->
  d' = set_stores d (stores d ++
         [{| s_id := gen_random_uuid env; s_owner_id := owner_id;
             s_name := name; s_email := email; s_address := address;
             s_created_at := now env; s_updated_at := now env |}]).
Proof.
  unfold insert_store. intros Hi. invert_binds. now subst.
Qed.

Import SystemAdminDashboard.

Lemma insert_store_allowed (env : stmt_env) (c : caller) (d d' : db)
      (name email address : text) (owner_id : uuid) :
  insert_store env c d name email address owner_id = Ok d' ->
  bypass_rls c || has_role d (auth_uid c) system_admin = true.
Proof.
  unfold insert_store, stores_insert. intros Hi. invert_binds. assumption.
Qed.

(** The role update of createStore, sent by a caller who was allowed to
    insert the store, rewrites every role row of the owner. *)
Lemma owner_role_update (c : caller) (d d2 : db) (uid : uuid) :
  bypass_rls c || has_role d (auth_uid c) system_admin = true ->
  update_user_roles_role c d (JStr "store_owner") uid = Ok d2 ->
  d2 = set_user_roles d
         (map (fun x => if N.eqb (ur_user_id x) uid
                        then {| ur_id := ur_id x; ur_user_id := ur_user_id x;
                                ur_role := store_owner;
                                ur_created_at := ur_created_at x |}
                        else x)
              (user_roles d)).
Proof.
  intros Hpriv Hu. unfold update_user_roles_role in Hu. simpl in Hu.
  invert_binds. subst d2. f_equal. apply map_ext. intros ur.
  assert (Hupd : allowed (user_roles_update d) c ur = true) by exact Hpriv.
  assert (Hsel : allowed (user_roles_select d) c ur = true).
  { unfold allowed, user_roles_select.
    destruct (bypass_rls c); [reflexivity|]. simpl in Hpriv |- *.
    rewrite Hpriv. now rewrite orb_true_r. }
  rewrite Hsel, Hupd, !andb_true_r. reflexivity.
Qed.

(** C10. In createStore, once the owner is found and the store row is
    inserted, the update of the owner's role to store_owner is sent and
    the operation reports success whatever that update returned.  When
    the update goes through, every role row of the owner carries
    store_owner afterwards, and store_owner is the one role the owner
    holds, provided they had a role row at all.  When it fails its error
    is dropped: the success notice is shown all the same, the store
    exists, and the owner holds store_owner only if they held it
    before. *)
Theorem createStore_ignores_failed_role_update
        (e : createStore_env) (c : caller) (d d1 : db) (form : newStore)
        (owner : profile) :
  select_transport e = None ->
  single (select_profiles d c (fun p => String.eqb (p_email p) (ownerEmail form)))
  = Some owner ->
  run (insert_transport e) d
      (insert_store (insert_env e) c d (name form) (email form) (address form)
         (p_id owner)) = (d1, None) ->
  let r := createStore e c d form in
  let update := run (update_transport e) d1
                    (update_user_roles_role c d1 (JStr "store_owner") (p_id owner)) in
  toasts r = [toast_success "Store created successfully"]
  /\ In {| s_id := gen_random_uuid (insert_env e); s_owner_id := p_id owner;
           s_name := name form; s_email := email form; s_address := address form;
           s_created_at := now (insert_env e); s_updated_at := now (insert_env e) |}
        (stores (db_after r))
  /\ db_after r = fst update
  /\ role_update_error r = snd update
  /\ (snd update = None ->
      user_roles (db_after r)
      = map (fun x => if N.eqb (ur_user_id x) (p_id owner)
                      then {| ur_id := ur_id x; ur_user_id := ur_user_id x;
                              ur_role := store_owner;
                              ur_created_at := ur_created_at x |}
                      else x)
            (user_roles d)
      /\ forall ro,
           has_role (db_after r) (Some (p_id owner)) ro = true
           <-> ro = store_owner
               /\ exists x, In x (user_roles d) /\ ur_user_id x = p_id owner)
  /\ (forall err,
        snd update = Some err ->
        role_update_error r = Some err
        /\ db_after r = d1
        /\ has_role (db_after r) (Some (p_id owner)) store_owner
           = has_role d (Some (p_id owner)) store_owner).
Proof.
  intros Hsel Howner Hins r update. subst r update. unfold createStore.
  rewrite Hsel, Howner, Hins.
  apply run_ok in Hins. destruct Hins as [_ Hins].
  assert (Hpriv := insert_store_allowed _ _ _ _ _ _ _ _ Hins).
  apply insert_store_ok in Hins.
  destruct (run (update_transport e) d1 _) as [d2 roleError] eqn:Hrun.
  cbn [toasts role_update_error db_after fst snd].
  split; [reflexivity|]. split; [|split; [reflexivity|split; [reflexivity|split]]].
  - assert (Hstores : stores d2 = stores d1).
    { destruct roleError as [err|].
      - apply run_failed in Hrun. now subst d2.
      - apply run_ok in Hrun. destruct Hrun as [_ Hupd].
        unfold update_user_roles_role in Hupd. simpl in Hupd. invert_binds.
        now subst d2. }
    rewrite Hstores, Hins. simpl. apply in_or_app. right. now left.
  - intros ->. apply run_ok in Hrun. destruct Hrun as [_ Hupd].
    assert (Hpriv1 : bypass_rls c || has_role d1 (auth_uid c) system_admin = true)
      by (rewrite Hins; exact Hpriv).
    apply (owner_role_update c d1 d2 (p_id owner) Hpriv1) in Hupd.
    assert (Hroles : user_roles d1 = user_roles d) by now rewrite Hins.
    split.
    + rewrite Hupd. cbn [user_roles set_user_roles]. now rewrite Hroles.
    + intros ro. rewrite Hupd, has_role_after_rewrite, Hroles. reflexivity.
  - intros err ->. apply run_failed in Hrun. subst d2.
    split; [reflexivity|]. split; [reflexivity|]. now rewrite Hins.
Qed.

Lemma createStore_ignores_failed_role_update_witness :
  let admin := {| au_id := 1%N; au_email := Some "admin@x"; au_raw_user_meta_data := [] |} in
  let owner := {| p_id := 2%N; p_name := "Olga"; p_email := "olga@x"; p_address := "O";
                  p_created_at := 0%Z; p_updated_at := 0%Z |} in
  let d := {| auth_users := [admin; {| au_id := 2%N; au_email := Some "olga@x";
                                       au_raw_user_meta_data := [] |}];
              profiles := [owner];
              user_roles := [{| ur_id := 10%N; ur_user_id := 1%N;
                                ur_role := system_admin; ur_created_at := 0%Z |};
                             {| ur_id := 11%N; ur_user_id := 2%N;
                                ur_role := normal_user; ur_created_at := 0%Z |}];
              stores := []; ratings := [] |} in
  let failing := {| select_transport := None; insert_transport := None;
                    insert_env := {| now := 3%Z; gen_random_uuid := 20%N |};
                    update_transport :=
                      Some {| Provisioning.message := Some "Failed to fetch" |} |} in
  let working := {| select_transport := None; insert_transport := None;
                    insert_env := {| now := 3%Z; gen_random_uuid := 20%N |};
                    update_transport := None |} in
  let form := {| name := "Shop"; email := "shop@x"; address := "Road";
                 ownerEmail := "olga@x" |} in
  let r := createStore failing (Authenticated 1%N) d form in
  let r' := createStore working (Authenticated 1%N) d form in
  select_transport failing = None
  /\ toasts r = [toast_success "Store created successfully"]
  /\ (exists st, In st (stores (db_after r)) /\ s_owner_id st = 2%N)
  /\ has_role (db_after r) (Some 2%N) store_owner = false
  /\ toasts r' = [toast_success "Store created successfully"]
  /\ user_roles (db_after r')
     = [{| ur_id := 10%N; ur_user_id := 1%N;
           ur_role := system_admin; ur_created_at := 0%Z |};
        {| ur_id := 11%N; ur_user_id := 2%N;
           ur_role := store_owner; ur_created_at := 0%Z |}].
Proof.
  intros admin owner d failing working form r r'.
  assert (Hsel : select_transport failing = None) by reflexivity.
  split; [exact Hsel|].
  destruct (createStore_ignores_failed_role_update failing (Authenticated 1%N) d _
              form owner Hsel eq_refl eq_refl)
    as (Htoast & Hstore & _ & _ & _ & Hfail).
  destruct (Hfail {| Provisioning.message := Some "Failed to fetch" |} eq_refl)
    as (_ & _ & Hrole).
  destruct (createStore_ignores_failed_role_update working (Authenticated 1%N) d _
              form owner eq_refl eq_refl eq_refl)
    as (Htoast' & _ & _ & _ & Hok & _).
  split; [exact Htoast|]. split.
  - eexists. split; [exact Hstore | reflexivity].
  - split; [etransitivity; [exact Hrole | reflexivity]|].
    split; [exact Htoast'|]. exact (proj1 (Hok eq_refl)).
Defined.

End DashboardFacts.

Module RatingSubmitFacts.
Import NormalUserDashboard.

Lemma fetchStores_listing (d : db) (st : state) (uid : uuid) :
  user st = Some uid ->
  user (fetchStores None None d st) = Some uid
  /\ stores (fetchStores None None d st) = map (listing_of d uid) (store_ratings d).
Proof.
  intros Hu. unfold fetchStores. rewrite Hu. simpl. split; reflexivity.
Qed.



Lemma map_get_none (pairs : list (uuid * Z)) (key : uuid) :
  ~ In key (map fst pairs) -> map_get pairs key = None.
Proof.
  intros Hnin. unfold map_get. rewrite filter_none; [reflexivity|].
  intros kv Hkv. apply N.eqb_neq. intros Heq. apply Hnin.
  rewrite <- Heq. apply in_map. now apply in_rev.
Qed.


Lemma own_pairs_filter (d : db) (uid : uuid) :
  own_pairs d uid
  = map (fun r => (r_store_id r, r_rating r))
        (filter (fun r => N.eqb (r_user_id r) uid) (ratings d)).
Proof.
  unfold own_pairs, select_ratings. f_equal. f_equal. now apply filter_all.
Qed.

Lemma own_pairs_unrated (d : db) (uid sid : uuid) :
  ~ In (uid, sid) (map rating_key (ratings d)) ->
  ~ In sid (map fst (own_pairs d uid)).
Proof.
  intros Hnin Hin. apply Hnin. rewrite own_pairs_filter, map_map in Hin.
  apply in_map_iff in Hin. destruct Hin as (r & Hs & Hr). simpl in Hs.
  apply filter_In in Hr. destruct Hr as [Hr Hu]. apply N.eqb_eq in Hu.
  apply in_map_iff. exists r. split; [|assumption].
  unfold rating_key. now rewrite Hu, Hs.
Qed.



















End RatingSubmitFacts.

(* ================================================================== *)
(** * Further properties of the schema and its policies *)
(* ================================================================== *)

Section RecordFacts.

Lemma set_user_roles_same (d : db) : set_user_roles d (user_roles d) = d.
Proof. now destruct d. Qed.

Lemma set_ratings_same (d : db) : set_ratings d (ratings d) = d.
Proof. now destruct d. Qed.

Lemma map_if_false {X : Type} (t : X -> bool) (g : X -> X) (l : list X) :
  (forall x, In x l -> t x = false) ->
  map (fun x => if t x then g x else x) l = l.
Proof.
  intros Hf. rewrite <- (map_id l) at 2. apply map_ext_in.
  intros x Hx. now rewrite (Hf x Hx).
Qed.

(** Rewriting rows that [p] rejects, before and after, is invisible
    through [p]. *)
Lemma filter_map_if {X : Type} (p t : X -> bool) (g : X -> X) (l : list X) :
  (forall x, In x l -> t x = true -> p x = false /\ p (g x) = false) ->
  filter p (map (fun x => if t x then g x else x) l) = filter p l.
Proof.
  induction l as [|x l IH]; simpl; intros Hp; [reflexivity|].
  rewrite IH by (intros y Hy; apply Hp; now right).
  destruct (t x) eqn:Ht; [|reflexivity].
  destruct (Hp x (or_introl eq_refl) Ht) as [-> ->]. reflexivity.
Qed.

Lemma filter_filter_implied {X : Type} (p q : X -> bool) (l : list X) :
  (forall x, In x l -> p x = true -> q x = true) ->
  filter p (filter q l) = filter p l.
Proof.
  induction l as [|x l IH]; simpl; intros Hpq; [reflexivity|].
  rewrite <- IH by (intros y Hy; apply Hpq; now right).
  destruct (q x) eqn:Hq; simpl; [reflexivity|].
  destruct (p x) eqn:Hp; [|reflexivity].
  rewrite (Hpq x (or_introl eq_refl) Hp) in Hq. discriminate.
Qed.

End RecordFacts.

(** ** user_roles: who may write *)

(** X1. A caller who is not the service role and does not hold
    system_admin can neither add a role row nor change one: the INSERT is
    refused by the policy, and the UPDATE of a role, when it returns
    without error, has changed nothing, whichever user it names. *)
Theorem roles_writable_by_admin_only
        (env : stmt_env) (c : caller) (d : db) (role : json) (uid : uuid) :
  bypass_rls c = false ->
  has_role d (auth_uid c) system_admin = false ->
  (forall r, insert_user_role env c d uid r = Err (rls_violation "user_roles"))
  /\ (forall d', update_user_roles_role c d role uid = Ok d' -> d' = d).
Proof.
  intros Hb Hna. split.
  - intros r. unfold insert_user_role, user_roles_insert. now rewrite Hb, Hna.
  - intros d' Hu. unfold update_user_roles_role in Hu.
    destruct (app_role_in role) as [ro|]; [|discriminate]. simpl in Hu.
    invert_binds. subst d'.
    rewrite map_if_false; [apply set_user_roles_same|].
    intros ur _. unfold allowed, user_roles_update. rewrite Hb, Hna. simpl.
    apply andb_false_r.
Qed.

Lemma roles_writable_by_admin_only_witness :
  let d := {| auth_users := []; profiles := [];
              user_roles := [{| ur_id := 9%N; ur_user_id := 2%N;
                                ur_role := normal_user; ur_created_at := 0%Z |}];
              stores := []; ratings := [] |} in
  bypass_rls (Authenticated 2%N) = false
  /\ has_role d (Some 2%N) system_admin = false
  /\ update_user_roles_role (Authenticated 2%N) d (JStr "system_admin") 2%N = Ok d.
Proof.
  intros d.
  assert (Hna : has_role d (auth_uid (Authenticated 2%N)) system_admin = false)
    by reflexivity.
  split; [reflexivity|]. split; [exact Hna|].
  destruct (update_user_roles_role (Authenticated 2%N) d (JStr "system_admin") 2%N)
    as [d'|e] eqn:Hu; [|vm_compute in Hu; discriminate].
  f_equal.
  exact (proj2 (roles_writable_by_admin_only {| now := 0%Z; gen_random_uuid := 0%N |}
                  (Authenticated 2%N) d (JStr "system_admin") 2%N eq_refl Hna)
               d' Hu).
Defined.

(** ** ratings: what a statement can touch, and what the table keeps *)

Section RatingStatements.

Lemma insert_rating_checked (env : stmt_env) (c : caller) (d d' : db) (v : rating_cols) :
  insert_rating env c d v = Ok d' ->
  exists u s n,
    c_user_id v = Some u /\ c_store_id v = Some s /\ c_rating v = Some n
    /\ bypass_rls c || ratings_insert d c (Some u) = true
    /\ rating_check n = true
    /\ In u (map au_id (auth_users d))
    /\ In s (map s_id (stores d))
    /\ ~ In (or_default (c_id v) (gen_random_uuid env)) (map r_id (ratings d))
    /\ d' = set_ratings d (ratings d ++
              [{| r_id := or_default (c_id v) (gen_random_uuid env);
                  r_user_id := u; r_store_id := s; r_rating := n;
                  r_created_at := or_default (c_created_at v) (now env);
                  r_updated_at := or_default (c_updated_at v) (now env) |}]).
Proof.
  unfold insert_rating. intros Hi. invert_binds.
  destruct (c_user_id v) as [u|]; [|discriminate].
  destruct (c_store_id v) as [s|]; [|discriminate].
  destruct (c_rating v) as [n|]; [|discriminate].
  invert_binds. subst. do 3 eexists.
  repeat (split; [reflexivity|]). split; [assumption|]. split; [assumption|].
  simpl in *.
  split; [now apply mem_In|]. split; [now apply mem_In|].
  split; [|reflexivity].
  match goal with
  | Hb : negb (mem _ (map r_id _)) = true |- _ =>
      now apply negb_true_iff, mem_not_In in Hb
  end.
Qed.

Lemma update_ratings_checked (env : stmt_env) (c : caller) (d d' : db)
      (v : rating_cols) (w : rating -> bool) :
  update_ratings env c d v w = Ok d' ->
  forall r, In r (ratings d) ->
    w r && allowed (ratings_select d) c r && allowed (ratings_update d) c r = true ->
    allowed (ratings_update d) c (before_update env (rating_set v r)) = true
    /\ rating_check (r_rating (before_update env (rating_set v r))) = true
    /\ In (r_user_id (before_update env (rating_set v r))) (map au_id (auth_users d))
    /\ In (r_store_id (before_update env (rating_set v r))) (map s_id (stores d)).
Proof.
  unfold update_ratings. intros Hu r Hr Ht. invert_binds.
  assert (Hin : In (before_update env (rating_set v r))
                   (map (fun r0 => before_update env (rating_set v r0))
                      (filter (fun r0 => w r0 && allowed (ratings_select d) c r0
                                         && allowed (ratings_update d) c r0)
                              (ratings d)))).
  { apply in_map_iff. exists r. split; [reflexivity|]. apply filter_In. now split. }
  repeat match goal with
         | Hf : forallb _ _ = true |- _ =>
             rewrite forallb_forall in Hf; specialize (Hf _ Hin)
         end.
  repeat split; try assumption; now apply mem_In.
Qed.

End RatingStatements.

(** X2. Whatever statement a signed-in caller C runs on ratings and
    whatever its outcome, the rows of every other user are afterwards
    exactly what they were: C can neither insert a row for someone else,
    nor change or delete one, nor hand one of their own rows over. *)
Theorem ratings_of_others_untouched
        (env : stmt_env) (C : uuid) (d : db) (st : ratings_stmt) :
  filter (fun r => negb (N.eqb (r_user_id r) C))
         (ratings (fst (exec_ratings env (Authenticated C) d st)))
  = filter (fun r => negb (N.eqb (r_user_id r) C)) (ratings d).
Proof.
  unfold exec_ratings. destruct st as [v|v w|w].
  - destruct (insert_rating env (Authenticated C) d v) as [d'|e] eqn:Hi;
      simpl; [|reflexivity].
    apply insert_rating_checked in Hi.
    destruct Hi as (u & s & n & _ & _ & _ & Hrls & _ & _ & _ & _ & ->).
    simpl in *. apply N.eqb_eq in Hrls. subst u.
    rewrite filter_app. simpl. rewrite N.eqb_refl. simpl. apply app_nil_r.
  - destruct (update_ratings env (Authenticated C) d v w) as [d'|e] eqn:Hu;
      simpl; [|reflexivity].
    assert (Hchk := update_ratings_checked _ _ _ _ _ _ Hu).
    apply update_ratings_ok in Hu. destruct Hu as (-> & _ & _). simpl.
    apply filter_map_if. intros r Hr Ht.
    destruct (Hchk r Hr Ht) as (Hnew & _ & _ & _).
    apply andb_prop in Ht. destruct Ht as [_ Hold].
    unfold allowed, ratings_update in Hold, Hnew. simpl in Hold, Hnew.
    apply N.eqb_eq in Hold, Hnew.
    split; apply negb_false_iff, N.eqb_eq; symmetry; assumption.
  - simpl. apply filter_filter_implied. intros r _ Hp.
    unfold allowed, ratings_delete. simpl.
    apply negb_true_iff in Hp. rewrite N.eqb_sym in Hp. rewrite Hp.
    now rewrite andb_false_r.
Qed.

(** X3. The ratings table keeps its integrity through any history of
    statements: every stored rating lies between 1 and 5 and refers to
    an existing identity and an existing store, and the row ids stay
    pairwise distinct. *)
Theorem ratings_integrity_kept (d : db) :
  Forall (fun r => rating_check (r_rating r) = true
                   /\ In (r_user_id r) (map au_id (auth_users d))
                   /\ In (r_store_id r) (map s_id (stores d)))
         (ratings d) ->
  NoDup (map r_id (ratings d)) ->
  forall history,
    let d' := exec_ratings_all d history in
    auth_users d' = auth_users d /\ stores d' = stores d
    /\ Forall (fun r => (1 <= r_rating r <= 5)%Z
                        /\ In (r_user_id r) (map au_id (auth_users d'))
                        /\ In (r_store_id r) (map s_id (stores d')))
              (ratings d')
    /\ NoDup (map r_id (ratings d')).
Proof.
  intros Hall Hids history. revert d Hall Hids.
  induction history as [|[[env c] st] rest IH]; intros d Hall Hids; simpl.
  - split; [reflexivity|]. split; [reflexivity|]. split; [|assumption].
    eapply Forall_impl; [|exact Hall]. intros r (Hc & Hu & Hs).
    split; [|split; assumption].
    unfold rating_check in Hc. apply andb_prop in Hc. destruct Hc as [Hlo Hhi].
    apply Z.leb_le in Hlo, Hhi. lia.
  - assert (Hstep :
      auth_users (fst (exec_ratings env c d st)) = auth_users d
      /\ stores (fst (exec_ratings env c d st)) = stores d
      /\ Forall (fun r => rating_check (r_rating r) = true
                          /\ In (r_user_id r) (map au_id (auth_users d))
                          /\ In (r_store_id r) (map s_id (stores d)))
                (ratings (fst (exec_ratings env c d st)))
      /\ NoDup (map r_id (ratings (fst (exec_ratings env c d st))))).
    { unfold exec_ratings. destruct st as [v|v w|w].
      - destruct (insert_rating env c d v) as [d1|e] eqn:Hi; simpl; [|auto].
        apply insert_rating_checked in Hi.
        destruct Hi as (u & s & n & _ & _ & _ & _ & Hc & Hu & Hs & Hfresh & ->).
        simpl. split; [reflexivity|]. split; [reflexivity|]. split.
        + apply Forall_app. split; [assumption|]. constructor; [|constructor].
          simpl. auto.
        + rewrite map_app. simpl. now apply NoDup_snoc.
      - destruct (update_ratings env c d v w) as [d1|e] eqn:Hu; simpl; [|auto].
        assert (Hchk := update_ratings_checked _ _ _ _ _ _ Hu).
        apply update_ratings_ok in Hu. destruct Hu as (Hd1 & _ & Hnd).
        split; [now rewrite Hd1|]. split; [now rewrite Hd1|].
        split; [|assumption]. rewrite Hd1. simpl.
        apply Forall_forall. intros r' Hr'. apply in_map_iff in Hr'.
        destruct Hr' as (r & <- & Hr).
        destruct (w r && allowed (ratings_select d) c r
                  && allowed (ratings_update d) c r) eqn:Ht.
        + destruct (Hchk r Hr Ht) as (_ & Hc & Hu' & Hs'). auto.
        + rewrite Forall_forall in Hall. now apply Hall.
      - simpl. split; [reflexivity|]. split; [reflexivity|]. split.
        + rewrite Forall_forall in *. intros r Hr. apply filter_In in Hr.
          now apply Hall.
        + now apply NoDup_map_filter. }
    destruct Hstep as (Hau & Hst & Hall' & Hids').
    rewrite <- Hau, <- Hst in Hall'.
    destruct (IH _ Hall' Hids') as (Hau2 & Hst2 & Hall2 & Hids2).
    split; [congruence|]. split; [congruence|]. split; assumption.
Qed.

Lemma ratings_integrity_kept_witness :
  let d := {| auth_users := [{| au_id := 1%N; au_email := Some "a@x";
                                au_raw_user_meta_data := [] |}];
              profiles := []; user_roles := [];
              stores := [{| s_id := 7%N; s_owner_id := 1%N; s_name := "Shop";
                            s_email := "s@x"; s_address := "Road";
                            s_created_at := 0%Z; s_updated_at := 0%Z |}];
              ratings := [] |} in
  let cols v := {| c_id := None; c_user_id := Some 1%N; c_store_id := Some 7%N;
                   c_rating := Some v; c_created_at := None;
                   c_updated_at := None |} in
  let history := [({| now := 1%Z; gen_random_uuid := 30%N |}, Authenticated 1%N,
                   Insert (cols 9%Z));
                  ({| now := 2%Z; gen_random_uuid := 31%N |}, Authenticated 1%N,
                   Insert (cols 5%Z));
                  ({| now := 3%Z; gen_random_uuid := 32%N |}, Authenticated 1%N,
                   Update (cols 0%Z) (fun _ => true))] in
  NoDup (map r_id (ratings d))
  /\ map r_rating (ratings (exec_ratings_all d history)) = [5%Z]
  /\ Forall (fun r => (1 <= r_rating r <= 5)%Z
                      /\ In (r_user_id r) (map au_id (auth_users (exec_ratings_all d history)))
                      /\ In (r_store_id r) (map s_id (stores (exec_ratings_all d history))))
            (ratings (exec_ratings_all d history)).
Proof.
  intros d cols history.
  assert (Hids : NoDup (map r_id (ratings d))) by constructor.
  split; [exact Hids|]. split; [reflexivity|].
  exact (proj1 (proj2 (proj2
           (ratings_integrity_kept d (Forall_nil _) Hids history)))).
Defined.

(** ** The authorization functions *)

(** X4. get_current_user_role agrees with has_role: the role it returns
    is one the caller holds, and it returns none exactly when the caller
    holds no role at all (in particular for the anonymous caller). *)
Theorem current_role_is_a_held_role (d : db) (c : caller) :
  (forall r, get_current_user_role d c = Some r ->
             has_role d (auth_uid c) r = true)
  /\ (get_current_user_role d c = None
      <-> forall r, has_role d (auth_uid c) r = false)
  /\ (auth_uid c = None -> get_current_user_role d c = None).
Proof.
  unfold get_current_user_role, has_role. split; [|split].
  - intros r Hget.
    destruct (filter _ (user_roles d)) as [|ur rest] eqn:Hf; [discriminate|].
    injection Hget as <-.
    assert (Hin : In ur (filter (fun x => uid_is (auth_uid c) (ur_user_id x))
                                (user_roles d)))
      by (rewrite Hf; now left).
    apply filter_In in Hin. destruct Hin as [Hin Hu].
    apply existsb_exists. exists ur. split; [assumption|].
    rewrite Hu. simpl. now apply app_role_eqb_eq.
  - split.
    + intros Hget r.
      destruct (filter _ (user_roles d)) as [|ur rest] eqn:Hf; [|discriminate].
      apply not_true_iff_false. intros Hex. apply existsb_exists in Hex.
      destruct Hex as (ur & Hin & Hb). apply andb_prop in Hb. destruct Hb as [Hu _].
      assert (Hin' : In ur (filter (fun x => uid_is (auth_uid c) (ur_user_id x))
                                   (user_roles d)))
        by (apply filter_In; now split).
      rewrite Hf in Hin'. contradiction.
    + intros Hnone.
      destruct (filter _ (user_roles d)) as [|ur rest] eqn:Hf; [reflexivity|].
      exfalso.
      assert (Hin : In ur (filter (fun x => uid_is (auth_uid c) (ur_user_id x))
                                  (user_roles d)))
        by (rewrite Hf; now left).
      apply filter_In in Hin. destruct Hin as [Hin Hu].
      specialize (Hnone (ur_role ur)). apply not_true_iff_false in Hnone.
      apply Hnone. apply existsb_exists. exists ur. split; [assumption|].
      rewrite Hu. simpl. now apply app_role_eqb_eq.
  - intros ->. simpl. rewrite filter_none; [reflexivity | reflexivity].
Qed.

Lemma current_role_is_a_held_role_witness :
  let d := {| auth_users := []; profiles := [];
              user_roles := [{| ur_id := 9%N; ur_user_id := 2%N;
                                ur_role := store_owner; ur_created_at := 0%Z |};
                             {| ur_id := 10%N; ur_user_id := 2%N;
                                ur_role := normal_user; ur_created_at := 0%Z |}];
              stores := []; ratings := [] |} in
  get_current_user_role d (Authenticated 2%N) = Some store_owner
  /\ has_role d (Some 2%N) store_owner = true
  /\ get_current_user_role d Anon = None.
Proof.
  intros d. split; [reflexivity|]. split.
  - exact (proj1 (current_role_is_a_held_role d (Authenticated 2%N))
                 store_owner eq_refl).
  - exact (proj2 (proj2 (current_role_is_a_held_role d Anon)) eq_refl).
Defined.

(** X5. Once an identity has registered (the database held no role row
    for its id before), it holds exactly the role normal_user: that is
    its current role, it is neither system_admin nor store_owner, and a
    read of profiles under its session returns its own profile row and
    nothing else. *)
Theorem registered_identity_is_normal_user
        `{Runtime} (env : stmt_env) (d : db) (NEW : auth_user) :
  registrable env d NEW = true ->
  ~ In (au_id NEW) (map ur_user_id (user_roles d)) ->
  let d' := fst (register env d NEW) in
  get_current_user_role d' (Authenticated (au_id NEW)) = Some normal_user
  /\ has_role d' (Some (au_id NEW)) normal_user = true
  /\ has_role d' (Some (au_id NEW)) system_admin = false
  /\ has_role d' (Some (au_id NEW)) store_owner = false
  /\ exists row,
       select_profiles d' (Authenticated (au_id NEW)) (fun _ => true) = [row]
       /\ p_id row = au_id NEW
       /\ au_email NEW = Some (p_email row).
Proof.
  intros Hreg Hnew d'. subst d'. unfold register.
  destruct (create_identity_succeeds env d NEW Hreg) as (d1 & Hc). rewrite Hc.
  apply create_identity_ok in Hc. destruct Hc as (e & Hemail & -> & _). simpl.
  assert (Hnone : filter (fun ur => N.eqb (au_id NEW) (ur_user_id ur)) (user_roles d) = []).
  { apply filter_none. intros ur Hur. apply N.eqb_neq. intros Heq.
    apply Hnew. rewrite Heq. now apply in_map. }
  assert (Hother : forall r,
             r <> normal_user ->
             has_role {| auth_users := auth_users d ++ [NEW];
                         profiles := profiles d ++ [bootstrap_profile env NEW e];
                         user_roles := user_roles d ++ [bootstrap_role env NEW];
                         stores := stores d; ratings := ratings d |}
                      (Some (au_id NEW)) r = false).
  { intros r Hr. apply not_true_iff_false. intros Hhas.
    apply has_role_In in Hhas. destruct Hhas as (ur & Hin & Hu & Hro).
    simpl in Hin. apply in_app_or in Hin. destruct Hin as [Hin | [<- | []]].
    - apply Hnew. rewrite <- Hu. now apply in_map.
    - simpl in Hro. congruence. }
  split.
  { unfold get_current_user_role. simpl. rewrite filter_app, Hnone. simpl.
    now rewrite N.eqb_refl. }
  split.
  { apply (ProvisioningFacts.has_role_snoc _ (user_roles d) (bootstrap_role env NEW)).
    reflexivity. }
  split; [apply Hother; discriminate|]. split; [apply Hother; discriminate|].
  exists (bootstrap_profile env NEW e). split; [|split; [reflexivity | assumption]].
  unfold select_profiles. rewrite filter_all by reflexivity.
  rewrite profiles_visible_non_admin by (apply Hother; discriminate).
  simpl. rewrite filter_app. simpl. rewrite N.eqb_refl.
  rewrite filter_none; [reflexivity|].
  intros p Hp. apply N.eqb_neq. intros Heq.
  unfold registrable in Hreg.
  repeat (apply andb_prop in Hreg; destruct Hreg as [Hreg ?]).
  match goal with
  | Hb : negb (mem _ (map p_id _)) = true |- _ =>
      apply negb_true_iff, mem_not_In in Hb; apply Hb
  end.
  rewrite Heq. now apply in_map.
Qed.

Lemma registered_identity_is_normal_user_witness :
  let env := {| now := 5%Z; gen_random_uuid := 40%N |} in
  let NEW := {| au_id := 1%N; au_email := Some "jane@x";
                au_raw_user_meta_data := [("name", JStr "Jane")] |} in
  let d' := fst (@register Provisioning.sample_runtime env empty_db NEW) in
  registrable env empty_db NEW = true
  /\ ~ In (au_id NEW) (map ur_user_id (user_roles empty_db))
  /\ get_current_user_role d' (Authenticated 1%N) = Some normal_user
  /\ has_role d' (Some 1%N) system_admin = false.
Proof.
  intros env NEW d'.
  assert (Hreg : registrable env empty_db NEW = true) by reflexivity.
  assert (Hnew : ~ In (au_id NEW) (map ur_user_id (user_roles empty_db)))
    by (simpl; tauto).
  destruct (@registered_identity_is_normal_user Provisioning.sample_runtime
              env empty_db NEW Hreg Hnew) as (Hcur & _ & Hadm & _).
  split; [exact Hreg|]. split; [exact Hnew|]. split; [exact Hcur | exact Hadm].
Defined.

(** ** The view as a whole *)

Section ViewAsMap.

Lemma nodup_repeat_app (k : group_key) (n : nat) (rest : list group_key) :
  ~ In k rest ->
  nodup group_key_dec (repeat k (S n) ++ rest) = k :: nodup group_key_dec rest.
Proof.
  intros Hnin. induction n as [|n IH].
  - simpl. destruct (in_dec group_key_dec k rest); [contradiction | reflexivity].
  - change (repeat k (S (S n)) ++ rest) with (k :: (repeat k (S n) ++ rest)).
    cbn [nodup].
    destruct (in_dec group_key_dec k (repeat k (S n) ++ rest)) as [_|Hno].
    + exact IH.
    + exfalso. apply Hno. simpl. now left.
Qed.

Lemma join_rows_keys (s : store) (rs : list rating) :
  exists n, map (fun row => key_of (fst row)) (join_rows s rs) = repeat (key_of s) (S n).
Proof.
  unfold join_rows. destruct (matching s rs) as [|m ms].
  - exists 0%nat. reflexivity.
  - exists (List.length ms). rewrite map_map. simpl. f_equal.
    induction ms as [|x xs IH]; simpl; [reflexivity | now rewrite IH].
Qed.

Lemma left_join_group_keys (ss : list store) (rs : list rating) :
  NoDup (map s_id ss) ->
  nodup group_key_dec (map (fun row => key_of (fst row)) (left_join ss rs))
  = map key_of ss.
Proof.
  induction ss as [|a ss IH]; intros Hnd; [reflexivity|].
  inversion Hnd as [|? ? Hnin Hnd']; subst.
  change (left_join (a :: ss) rs) with (join_rows a rs ++ left_join ss rs).
  rewrite map_app. destruct (join_rows_keys a rs) as (n & ->).
  rewrite nodup_repeat_app.
  - simpl. now rewrite IH.
  - intros Hin. apply left_join_keys in Hin. destruct Hin as (s & Hs & Hk).
    apply Hnin. replace (s_id a) with (s_id s).
    + now apply in_map.
    + unfold key_of in Hk. congruence.
Qed.

(** The rows of the view as listed here, store by store. *)
Lemma store_ratings_rows (d : db) :
  NoDup (map s_id (stores d)) ->
  store_ratings d
  = map (fun s =>
           {| sr_id := s_id s; sr_name := s_name s; sr_email := s_email s;
              sr_address := s_address s; sr_owner_id := s_owner_id s;
              average_rating :=
                match matching s (ratings d) with
                | [] => 0%Q
                | r :: rest => mean (map r_rating (r :: rest))
                end;
              total_ratings := Z.of_nat (List.length (matching s (ratings d))) |})
        (stores d).
Proof.
  intros Hnd. unfold store_ratings, group_by.
  rewrite left_join_group_keys by assumption.
  rewrite !map_map. apply map_ext_in. intros s Hs.
  cbn [fst snd]. rewrite group_rows_pkey by assumption.
  destruct s as [id owner name email address cr up].
  unfold aggregate, key_of. cbn [fst snd s_id s_name s_email s_address s_owner_id].
  unfold COUNT, AVG. rewrite join_rows_ids, join_rows_ratings, length_map.
  f_equal. destruct (matching _ (ratings d)) as [|m ms]; reflexivity.
Qed.

End ViewAsMap.

(** X6. Under the primary key of stores the rows of the view are, up to
    the order in which they are returned, the stores of the table: one
    view row per store, carrying the store's id, name, email, address
    and owner, the number of the ratings that refer to it and their
    arithmetic mean (0 without ratings); and no row besides: the ids of
    the view are pairwise distinct, they are the ids of the stores, and
    every view row belongs to a store of the table. *)
Theorem store_ratings_is_stores_with_aggregates (d : db) :
  NoDup (map s_id (stores d)) ->
  let of_store s := filter (fun r => N.eqb (r_store_id r) (s_id s)) (ratings d) in
  Permutation
    (store_ratings d)
    (map (fun s =>
            {| sr_id := s_id s; sr_name := s_name s; sr_email := s_email s;
               sr_address := s_address s; sr_owner_id := s_owner_id s;
               average_rating :=
                 match of_store s with
                 | [] => 0%Q
                 | _ :: _ => arithmetic_mean (map r_rating (of_store s))
                 end;
               total_ratings := Z.of_nat (List.length (of_store s)) |})
         (stores d))
  /\ NoDup (map sr_id (store_ratings d))
  /\ (forall i, In i (map sr_id (store_ratings d)) <-> In i (map s_id (stores d)))
  /\ forall row, In row (store_ratings d) ->
       exists s, In s (stores d) /\ sr_id row = s_id s
                 /\ sr_owner_id row = s_owner_id s
                 /\ total_ratings row = Z.of_nat (List.length (of_store s)).
Proof.
  intros Hpk of_store.
  assert (Hof : forall s, matching s (ratings d) = of_store s).
  { intros s. unfold matching, of_store. apply filter_ext. intros r.
    apply N.eqb_sym. }
  rewrite (store_ratings_rows d Hpk). split; [|split; [|split]].
  - erewrite map_ext; [apply Permutation_refl|].
    intros s. cbv beta. rewrite Hof. f_equal.
    destruct (of_store s) as [|m ms]; [reflexivity|].
    apply mean_permutation, Permutation_refl.
  - rewrite map_map. exact Hpk.
  - intros i. rewrite map_map. reflexivity.
  - intros row Hrow. apply in_map_iff in Hrow. destruct Hrow as (s & <- & Hs).
    exists s. cbn [sr_id sr_owner_id total_ratings]. rewrite Hof.
    repeat split. assumption.
Qed.

Lemma store_ratings_is_stores_with_aggregates_witness :
  let shop i := {| s_id := i; s_owner_id := 7%N; s_name := "Shop";
                   s_email := "s@x"; s_address := "Road";
                   s_created_at := 0%Z; s_updated_at := 0%Z |} in
  let r v u := {| r_id := u; r_user_id := u; r_store_id := 1%N; r_rating := v;
                  r_created_at := 0%Z; r_updated_at := 0%Z |} in
  let d := {| auth_users := []; profiles := []; user_roles := [];
              stores := [shop 1%N; shop 2%N];
              ratings := [r 4%Z 10%N; r 5%Z 11%N] |} in
  NoDup (map s_id (stores d))
  /\ Permutation
       (map (fun row => (sr_id row, total_ratings row, average_rating row))
            (store_ratings d))
       [(2%N, 0%Z, 0%Q); (1%N, 2%Z, (9 # 2)%Q)].
Proof.
  intros shop r d.
  assert (Hpk : NoDup (map s_id (stores d))).
  { simpl. constructor; [simpl; intros [H|[]]; discriminate|].
    constructor; [intros []|constructor]. }
  split; [exact Hpk|].
  refine (Permutation_trans
            (Permutation_map
               (fun row => (sr_id row, total_ratings row, average_rating row))
               (proj1 (store_ratings_is_stores_with_aggregates d Hpk))) _).
  apply perm_swap.
Defined.



(** ** The provisioning endpoint: what it calls and what it leaves alone *)

Module HandlerProtocol.
Import Provisioning ProvisioningFacts.

Section Protocol.
Context `{Runtime}.

Lemma update_user_roles_role_ok (c : caller) (d d' : db) (role : json) (uid : uuid) :
  update_user_roles_role c d role uid = Ok d' ->
  exists ro,
    app_role_in role = Some ro
    /\ d' = set_user_roles d
              (map (fun ur =>
                      if N.eqb (ur_user_id ur) uid
                         && allowed (user_roles_select d) c ur
                         && allowed (user_roles_update d) c ur
                      then {| ur_id := ur_id ur; ur_user_id := ur_user_id ur;
                              ur_role := ro; ur_created_at := ur_created_at ur |}
                      else ur)
                   (user_roles d)).
Proof.
  unfold update_user_roles_role. intros Hu.
  destruct (app_role_in role) as [ro|]; [|discriminate]. simpl in Hu.
  invert_binds. exists ro. split; [reflexivity | now subst].
Qed.

Lemma admin_createUser_cases (pe : provider_env) (d d1 : db) (b : json)
      (res : called create_return) :
  admin_createUser pe d (get b "email") (get b "password") (requested_meta b)
  = (d1, res) ->
  (d1 = d /\ (forall ret, res = Returned ret -> error ret <> None))
  \/ (create_fault pe = None
      /\ create_identity (create_env pe) d (requested_identity pe b) = Ok d1
      /\ res = Returned {| data_user := Some (requested_user pe b); error := None |}).
Proof.
  unfold admin_createUser.
  destruct (create_fault pe) as [[e|m]|].
  - intros [= <- <-]. left. split; [reflexivity|]. intros ret [= <-]. discriminate.
  - intros [= <- <-]. left. split; [reflexivity|]. discriminate.
  - fold (requested_identity pe b).
    destruct (create_identity (create_env pe) d (requested_identity pe b)) as [d'|e].
    + intros [= <- <-]. right. auto.
    + intros [= <- <-]. left. split; [reflexivity|]. intros ret [= <-]. discriminate.
Qed.

Lemma user_roles_update_eq_cases (pe : provider_env) (d d' : db) (role : json)
      (uid : uuid) (res : called (option api_error)) :
  user_roles_update_eq pe d role uid = (d', res) ->
  d' = d \/ (update_fault pe = None
             /\ update_user_roles_role ServiceRole d role uid = Ok d'
             /\ res = Returned None).
Proof.
  unfold user_roles_update_eq.
  destruct (update_fault pe) as [[e|m]|].
  - intros [= <- _]. now left.
  - intros [= <- _]. now left.
  - destruct (update_user_roles_role ServiceRole d role uid).
    + intros [= <- <-]. right. auto.
    + intros [= <- _]. now left.
Qed.

(** Every run of the handler is of one of three shapes. *)
Lemma handler_trace (pe : provider_env) (d : db) (req : request) :
  let r := handler pe d req in
  (calls r = [] /\ final_db r = d)
  \/ (exists b,
        String.eqb (method req) "POST" = true
        /\ calls r = [create_call b]
        /\ (final_db r = d
            \/ create_identity (create_env pe) d (requested_identity pe b)
               = Ok (final_db r)))
  \/ (exists b role d1,
        String.eqb (method req) "POST" = true
        /\ calls r = [create_call b; UpdateRole (Some role) (new_user_id pe)]
        /\ create_fault pe = None
        /\ create_identity (create_env pe) d (requested_identity pe b) = Ok d1
        /\ get b "role" = Some role
        /\ truthy (Some role) && not_normal_user (Some role) = true
        /\ (final_db r = d1
            \/ update_user_roles_role ServiceRole d1 role (new_user_id pe)
               = Ok (final_db r))).
Proof.
  intros r. subst r.
  destruct (String.eqb (method req) "POST") eqn:Hm;
    [|left; unfold handler; rewrite Hm; split; reflexivity].
  destruct (parse_body (body req)) as [parsed|] eqn:Hp;
    [|left; unfold handler; rewrite Hm, Hp; split; reflexivity].
  destruct (destructurable parsed) as [b|] eqn:Hd;
    [|left; unfold handler; rewrite Hm, Hp, Hd; split; reflexivity].
  rewrite (handler_post pe d req parsed b Hm Hp Hd).
  destruct (admin_createUser pe d (get b "email") (get b "password")
              (requested_meta b)) as [d1 [ret|m]] eqn:Hcreate.
  - destruct (admin_createUser_cases _ _ _ _ _ Hcreate)
      as [[-> Herr] | (Hnf & Hc & [= ->])].
    + right. left. exists b. split; [reflexivity|].
      specialize (Herr ret eq_refl).
      destruct (error ret) as [e|]; [|congruence].
      split; [reflexivity|]. now left.
    + cbn [error]. unfold assign_role. cbn [data_user].
      destruct (get b "role") as [role|] eqn:Hrole;
        [destruct (truthy (Some role) && not_normal_user (Some role)) eqn:Hwant|].
      * right. right. exists b, role, d1. cbn [id requested_user].
        destruct (user_roles_update_eq pe d1 role (new_user_id pe))
          as [d2 res] eqn:Hupd.
        assert (Hd2 := user_roles_update_eq_cases _ _ _ _ _ _ Hupd).
        destruct res as [[roleError|]|m];
          (split; [reflexivity|]; split; [reflexivity|];
           split; [assumption|]; split; [assumption|];
           split; [assumption|]; split; [assumption|];
           cbn [final_db respond caught];
           destruct Hd2 as [-> | (_ & Hu & _)]; [now left | now right]).
      * right. left. exists b. split; [reflexivity|]. split; [reflexivity|].
        now right.
      * right. left. exists b. split; [reflexivity|]. split; [reflexivity|].
        now right.
  - destruct (admin_createUser_cases _ _ _ _ _ Hcreate)
      as [[-> _] | (_ & _ & [=])].
    right. left. exists b. split; [reflexivity|]. split; [reflexivity|]. now left.
Qed.

End Protocol.

End HandlerProtocol.

(** ** Rewriting the role of a user with one role row *)

Section RoleUpdate.

Lemma user_role_key_eqb_eq (a b : uuid * app_role) :
  user_role_key_eqb a b = true <-> a = b.
Proof.
  destruct a as [a1 a2], b as [b1 b2]. unfold user_role_key_eqb. simpl.
  rewrite andb_true_iff, N.eqb_eq, app_role_eqb_eq.
  split; [intros [-> ->] | intros [= -> ->]]; auto.
Qed.

Lemma no_rows_of (uid : uuid) (l : list user_role) :
  filter (fun x => N.eqb (ur_user_id x) uid) l = [] ->
  forall x, In x l -> ur_user_id x <> uid.
Proof.
  intros Hnone x Hx Heq.
  assert (Hin : In x (filter (fun y => N.eqb (ur_user_id y) uid) l)).
  { apply filter_In. split; [assumption|]. now apply N.eqb_eq. }
  rewrite Hnone in Hin. contradiction.
Qed.

(** Giving the single role row of [uid] another role keeps the pairs
    (user_id, role) distinct. *)
Lemma single_role_rewrite_distinct (uid : uuid) (ro : app_role) (l : list user_role) :
  NoDup (map user_role_key l) ->
  (List.length (filter (fun x => N.eqb (ur_user_id x) uid) l) <= 1)%nat ->
  NoDup (map user_role_key
           (map (fun x => if N.eqb (ur_user_id x) uid
                          then {| ur_id := ur_id x; ur_user_id := ur_user_id x;
                                  ur_role := ro; ur_created_at := ur_created_at x |}
                          else x) l)).
Proof.
  induction l as [|a l IH]; simpl; intros Hnd Hlen; [constructor|].
  inversion Hnd as [|? ? Hnin Hnd']; subst.
  destruct (N.eqb (ur_user_id a) uid) eqn:Ha.
  - simpl in Hlen.
    assert (Hnone : filter (fun x => N.eqb (ur_user_id x) uid) l = []).
    { destruct (filter _ l); [reflexivity | simpl in Hlen; lia]. }
    rewrite map_if_false
      by (intros x Hx; apply N.eqb_neq; now apply (no_rows_of uid l Hnone)).
    constructor; [|assumption].
    intros Hin. apply in_map_iff in Hin. destruct Hin as (x & Hk & Hx).
    apply (no_rows_of uid l Hnone x Hx).
    apply N.eqb_eq in Ha. unfold user_role_key in Hk. simpl in Hk. congruence.
  - constructor; [|apply IH; assumption].
    intros Hin. rewrite map_map in Hin. apply in_map_iff in Hin.
    destruct Hin as (x & Hk & Hx).
    destruct (N.eqb (ur_user_id x) uid) eqn:Hxu.
    + apply N.eqb_eq in Hxu. apply N.eqb_neq in Ha.
      unfold user_role_key in Hk. simpl in Hk. congruence.
    + apply Hnin. rewrite <- Hk. now apply in_map.
Qed.

(** The UPDATE of a role by a caller with the right to write roles, on a
    user with at most one role row. *)
Lemma update_role_single (c : caller) (d : db) (role : json) (ro : app_role)
      (uid : uuid) :
  app_role_in role = Some ro ->
  bypass_rls c || has_role d (auth_uid c) system_admin = true ->
  NoDup (map user_role_key (user_roles d)) ->
  (List.length (filter (fun x => N.eqb (ur_user_id x) uid) (user_roles d)) <= 1)%nat ->
  update_user_roles_role c d role uid
  = Ok (set_user_roles d
          (map (fun x => if N.eqb (ur_user_id x) uid
                         then {| ur_id := ur_id x; ur_user_id := ur_user_id x;
                                 ur_role := ro; ur_created_at := ur_created_at x |}
                         else x)
               (user_roles d))).
Proof.
  intros Hro Hpriv Hnd Hlen.
  assert (Hupd : forall ur, allowed (user_roles_update d) c ur = true).
  { intros ur. unfold allowed, user_roles_update. exact Hpriv. }
  assert (Hsel : forall ur, allowed (user_roles_select d) c ur = true).
  { intros ur. unfold allowed, user_roles_select.
    destruct (bypass_rls c); [reflexivity|]. simpl in *. rewrite Hpriv.
    now rewrite orb_true_r. }
  unfold update_user_roles_role. rewrite Hro. cbn [bind]. cbv zeta.
  erewrite (map_ext (fun ur => if N.eqb (ur_user_id ur) uid
                                  && allowed (user_roles_select d) c ur
                                  && allowed (user_roles_update d) c ur
                               then _ else ur));
    [|intros ur; rewrite Hsel, Hupd, !andb_true_r; reflexivity].
  match goal with
  | |- context [guard (forallb ?P ?L) _] => replace (forallb P L) with true
  end.
  2:{ symmetry. apply forallb_forall. intros ur _. apply Hupd. }
  match goal with
  | |- context [guard (distinct ?E ?L) _] => replace (distinct E L) with true
  end.
  2:{ symmetry. apply distinct_NoDup; [apply user_role_key_eqb_eq|].
      now apply single_role_rewrite_distinct. }
  reflexivity.
Qed.

End RoleUpdate.

Module HandlerOutcomes.
Import Provisioning ProvisioningFacts HandlerProtocol.

Section Outcomes.
Context `{Runtime}.

(** X8. Whatever the request and whatever the backend does, the handler
    leaves stores and ratings as they were, adds at most the one new
    identity and its one profile to the existing ones, and leaves the
    role rows of every existing user other than the new identity exactly
    as they were. *)
Theorem handler_touches_only_the_new_identity
        (pe : provider_env) (d : db) (req : request) :
  let r := handler pe d req in
  stores (final_db r) = stores d
  /\ ratings (final_db r) = ratings d
  /\ (exists added, auth_users (final_db r) = auth_users d ++ added
                    /\ (List.length added <= 1)%nat
                    /\ Forall (fun u => au_id u = new_user_id pe) added)
  /\ (exists added, profiles (final_db r) = profiles d ++ added
                    /\ (List.length added <= 1)%nat
                    /\ Forall (fun p => p_id p = new_user_id pe) added)
  /\ filter (fun ur => negb (N.eqb (ur_user_id ur) (new_user_id pe)))
            (user_roles (final_db r))
     = filter (fun ur => negb (N.eqb (ur_user_id ur) (new_user_id pe)))
              (user_roles d).
Proof.
  intros r.
  assert (Hsame : forall d0, d0 = d ->
    stores d0 = stores d /\ ratings d0 = ratings d
    /\ (exists added, auth_users d0 = auth_users d ++ added
                      /\ (List.length added <= 1)%nat
                      /\ Forall (fun u => au_id u = new_user_id pe) added)
    /\ (exists added, profiles d0 = profiles d ++ added
                      /\ (List.length added <= 1)%nat
                      /\ Forall (fun p => p_id p = new_user_id pe) added)
    /\ filter (fun ur => negb (N.eqb (ur_user_id ur) (new_user_id pe))) (user_roles d0)
       = filter (fun ur => negb (N.eqb (ur_user_id ur) (new_user_id pe))) (user_roles d)).
  { intros d0 ->. repeat split; try reflexivity;
      exists []; rewrite app_nil_r; repeat split; auto. }
  assert (Hcreated : forall b d1,
    create_identity (create_env pe) d (requested_identity pe b) = Ok d1 ->
    stores d1 = stores d /\ ratings d1 = ratings d
    /\ (exists added, auth_users d1 = auth_users d ++ added
                      /\ (List.length added <= 1)%nat
                      /\ Forall (fun u => au_id u = new_user_id pe) added)
    /\ (exists added, profiles d1 = profiles d ++ added
                      /\ (List.length added <= 1)%nat
                      /\ Forall (fun p => p_id p = new_user_id pe) added)
    /\ filter (fun ur => negb (N.eqb (ur_user_id ur) (new_user_id pe))) (user_roles d1)
       = filter (fun ur => negb (N.eqb (ur_user_id ur) (new_user_id pe))) (user_roles d)).
  { intros b d1 Hc. apply create_identity_ok in Hc.
    destruct Hc as (e & _ & -> & _). simpl.
    split; [reflexivity|]. split; [reflexivity|].
    split; [eexists; split; [reflexivity|]; split; [simpl; lia|];
            repeat constructor|].
    split; [eexists; split; [reflexivity|]; split; [simpl; lia|];
            repeat constructor|].
    rewrite filter_app. simpl. rewrite N.eqb_refl. simpl. apply app_nil_r. }
  destruct (handler_trace pe d req)
    as [[_ Hd] | [(b & _ & _ & [Hd | Hc]) | (b & role & d1 & _ & _ & _ & Hc & _ & _ & Hfin)]];
    fold r in Hd || fold r in Hc || fold r in Hfin.
  - now apply Hsame.
  - now apply Hsame.
  - now apply (Hcreated b).
  - destruct (Hcreated b d1 Hc) as (Hs & Hr & Hau & Hp & Hroles).
    destruct Hfin as [-> | Hu]; [repeat split; assumption|].
    apply update_user_roles_role_ok in Hu. destruct Hu as (ro & _ & ->).
    simpl. split; [assumption|]. split; [assumption|].
    split; [assumption|]. split; [assumption|].
    rewrite <- Hroles. apply filter_map_if. intros ur _ Ht.
    apply andb_prop in Ht. destruct Ht as [Ht _].
    apply andb_prop in Ht. destruct Ht as [Ht _]. simpl. now rewrite Ht.
Qed.

(** X9. The handler asks for a role update only after the identity was
    created without error, only for the id of that identity, and only
    with a role value that is truthy and not 'normal_user'; the update
    is then its second and last call. *)
Theorem role_update_only_for_created_identity
        (pe : provider_env) (d : db) (req : request) (role : js) (uid : uuid) :
  In (UpdateRole role uid) (calls (handler pe d req)) ->
  String.eqb (method req) "POST" = true
  /\ uid = new_user_id pe
  /\ truthy role && not_normal_user role = true
  /\ create_fault pe = None
  /\ exists b d1,
       role = get b "role"
       /\ create_identity (create_env pe) d (requested_identity pe b) = Ok d1
       /\ calls (handler pe d req) = [create_call b; UpdateRole role uid].
Proof.
  intros Hin.
  destruct (handler_trace pe d req)
    as [[Hc _] | [(b & _ & Hc & _) | (b & ro & d1 & Hm & Hc & Hnf & Hcr & Hrole & Hwant & _)]];
    rewrite Hc in Hin.
  - contradiction.
  - destruct Hin as [Hin | []]. discriminate.
  - destruct Hin as [Hin | [Hin | []]]; [discriminate|].
    injection Hin as <- <-.
    split; [assumption|]. split; [reflexivity|]. split; [assumption|].
    split; [assumption|]. exists b, d1. rewrite Hrole. auto.
Qed.

(** X10. A provisioning request for a role other than normal_user that
    the backend serves without fault is answered 200 and replaces the
    default role, it does not add to it: the only role row of the new
    identity carries the requested role. *)
Theorem requested_role_replaces_default
        (pe : provider_env) (d : db) (req : request) (parsed : js) (b role : json)
        (ro : app_role) :
  String.eqb (method req) "POST" = true ->
  parse_body (body req) = Some parsed ->
  destructurable parsed = Some b ->
  create_fault pe = None -> update_fault pe = None ->
  registrable (create_env pe) d (requested_identity pe b) = true ->
  ~ In (new_user_id pe) (map ur_user_id (user_roles d)) ->
  NoDup (map user_role_key (user_roles d)) ->
  get b "role" = Some role ->
  app_role_in role = Some ro -> ro <> normal_user ->
  let r := handler pe d req in
  outcome r = Some {| status := 200;
                      json_body := success_json (Some (requested_user pe b)) |}
  /\ calls r = [create_call b; UpdateRole (Some role) (new_user_id pe)]
  /\ user_roles (final_db r)
     = user_roles d ++ [{| ur_id := gen_random_uuid (create_env pe);
                           ur_user_id := new_user_id pe; ur_role := ro;
                           ur_created_at := now (create_env pe) |}]
  /\ has_role (final_db r) (Some (new_user_id pe)) ro = true
  /\ has_role (final_db r) (Some (new_user_id pe)) normal_user = false.
Proof.
  intros Hm Hp Hd Hnf Hnu Hreg Hnew Hnd Hrole Hro Hneq r. subst r.
  destruct (create_identity_succeeds _ _ _ Hreg) as (d1 & Hc).
  rewrite (handler_post pe d req parsed b Hm Hp Hd).
  rewrite (admin_createUser_created pe d d1 b Hnf Hc).
  cbn [error]. unfold assign_role. cbn [data_user]. rewrite Hrole.
  assert (Hwant : truthy (Some role) && not_normal_user (Some role) = true).
  { unfold app_role_in in Hro. destruct role; try discriminate. simpl.
    destruct (String.eqb s "system_admin") eqn:E1.
    - apply String.eqb_eq in E1. subst s. reflexivity.
    - destruct (String.eqb s "normal_user") eqn:E2; [congruence|].
      destruct (String.eqb s "store_owner") eqn:E3; [|discriminate].
      apply String.eqb_eq in E3. subst s. reflexivity. }
  rewrite Hwant. cbn [id requested_user].
  apply create_identity_ok in Hc. destruct Hc as (e & _ & Hd1 & _).
  assert (Hnone : filter (fun x => N.eqb (ur_user_id x) (new_user_id pe)) (user_roles d) = []).
  { apply filter_none. intros x Hx. apply N.eqb_neq. intros Heq.
    apply Hnew. rewrite <- Heq. now apply in_map. }
  assert (Hupd : update_user_roles_role ServiceRole d1 role (new_user_id pe)
                 = Ok (set_user_roles d1
                         (user_roles d ++
                            [{| ur_id := gen_random_uuid (create_env pe);
                                ur_user_id := new_user_id pe; ur_role := ro;
                                ur_created_at := now (create_env pe) |}]))).
  { rewrite (update_role_single ServiceRole d1 role ro (new_user_id pe) Hro eq_refl).
    - rewrite Hd1. cbn [user_roles]. rewrite map_app.
      rewrite map_if_false
        by (intros x Hx; apply N.eqb_neq; now apply (no_rows_of _ _ Hnone)).
      simpl. now rewrite N.eqb_refl.
    - rewrite Hd1. cbn [user_roles]. rewrite map_app. apply NoDup_snoc; [assumption|].
      intros Hin. apply in_map_iff in Hin. destruct Hin as (x & Hk & Hx).
      apply (no_rows_of _ _ Hnone x Hx). unfold user_role_key in Hk.
      simpl in Hk. congruence.
    - rewrite Hd1. cbn [user_roles]. rewrite filter_app, Hnone. simpl.
      rewrite N.eqb_refl. simpl. lia. }
  unfold user_roles_update_eq. rewrite Hnu, Hupd.
  cbn [outcome calls final_db respond]. rewrite Hd1. cbn [user_roles set_user_roles].
  split; [reflexivity|]. split; [reflexivity|]. split; [reflexivity|].
  split.
  - apply (has_role_snoc _ (user_roles d)
             {| ur_id := gen_random_uuid (create_env pe);
                ur_user_id := new_user_id pe; ur_role := ro;
                ur_created_at := now (create_env pe) |}).
    reflexivity.
  - apply not_true_iff_false. intros Hhas. apply has_role_In in Hhas.
    destruct Hhas as (ur & Hin & Hu & Hr). simpl in Hin.
    apply in_app_or in Hin. destruct Hin as [Hin | [<- | []]].
    + now apply (no_rows_of _ _ Hnone ur Hin).
    + simpl in Hr. contradiction.
Qed.

End Outcomes.

Lemma role_update_only_for_created_identity_witness :
  let fields := [("email", JStr "owner@x"); ("password", JStr "secret");
                 ("role", JStr "store_owner")] in
  let r := @handler sample_runtime sample_provider empty_db (post fields) in
  In (UpdateRole (Some (JStr "store_owner")) 1%N) (calls r)
  /\ calls r = [create_call (JObj fields); UpdateRole (Some (JStr "store_owner")) 1%N]
  /\ create_fault sample_provider = None.
Proof.
  intros fields r.
  assert (Hin : In (UpdateRole (Some (JStr "store_owner")) 1%N) (calls r))
    by (right; left; reflexivity).
  split; [exact Hin|]. split; [reflexivity|].
  exact (proj1 (proj2 (proj2 (proj2
          (@role_update_only_for_created_identity sample_runtime sample_provider
             empty_db (post fields) _ _ Hin))))).
Defined.

Lemma requested_role_replaces_default_witness :
  let fields := [("email", JStr "owner@x"); ("password", JStr "secret");
                 ("role", JStr "store_owner")] in
  let r := @handler sample_runtime sample_provider empty_db (post fields) in
  registrable (create_env sample_provider) empty_db
    (requested_identity sample_provider (JObj fields)) = true
  /\ NoDup (map user_role_key (user_roles empty_db))
  /\ user_roles (final_db r)
     = [{| ur_id := 40%N; ur_user_id := 1%N; ur_role := store_owner;
           ur_created_at := 5%Z |}]
  /\ has_role (final_db r) (Some 1%N) normal_user = false.
Proof.
  intros fields r.
  assert (Hreg : registrable (create_env sample_provider) empty_db
                   (requested_identity sample_provider (JObj fields)) = true)
    by reflexivity.
  assert (Hnd : NoDup (map user_role_key (user_roles empty_db))) by constructor.
  assert (Hnew : ~ In (new_user_id sample_provider)
                      (map ur_user_id (user_roles empty_db))) by (simpl; tauto).
  assert (Hneq : store_owner <> normal_user) by discriminate.
  destruct (@requested_role_replaces_default sample_runtime sample_provider
              empty_db (post fields) _ (JObj fields) (JStr "store_owner") store_owner
              eq_refl eq_refl eq_refl eq_refl eq_refl Hreg Hnew Hnd
              eq_refl eq_refl Hneq) as (_ & _ & Hroles & _ & Hno).
  split; [exact Hreg|]. split; [exact Hnd|]. split; [exact Hroles | exact Hno].
Defined.

End HandlerOutcomes.

(** ** Store creation through the admin dashboard *)

Module StoreCreation.
Import SystemAdminDashboard DashboardFacts HandlerProtocol.

Lemma single_In {A : Type} (rows : list A) (x : A) :
  single rows = Some x -> rows = [x].
Proof.
  destruct rows as [|a [|b rest]]; simpl; try discriminate. now intros [= ->].
Qed.

Lemma insert_store_refused (env : stmt_env) (c : caller) (d : db)
      (name email address : text) (owner_id : uuid) :
  bypass_rls c = false ->
  has_role d (auth_uid c) system_admin = false ->
  insert_store env c d name email address owner_id = Err (rls_violation "stores").
Proof.
  intros Hb Hna. unfold insert_store, stores_insert. now rewrite Hb, Hna.
Qed.

(** X11. createStore changes nothing for a caller who does not hold
    system_admin: whatever the form and the transport, the database is
    left as it was and the operation ends in an error notice. *)
Theorem createStore_needs_admin
        (e : createStore_env) (c : caller) (d : db) (form : newStore) :
  bypass_rls c = false ->
  has_role d (auth_uid c) system_admin = false ->
  let r := createStore e c d form in
  db_after r = d
  /\ role_update_error r = None
  /\ exists msg, toasts r = [toast_error msg].
Proof.
  intros Hb Hna r. subst r. unfold createStore.
  destruct (match select_transport e with
            | Some _ => None
            | None => single (select_profiles d c
                                (fun p => String.eqb (p_email p) (ownerEmail form)))
            end) as [owner|].
  - rewrite (insert_store_refused _ c d _ _ _ _ Hb Hna).
    unfold run, NormalUserDashboard.run.
    destruct (insert_transport e); simpl; eauto.
  - simpl. eauto.
Qed.

Lemma createStore_needs_admin_witness :
  let owner := {| p_id := 2%N; p_name := "Olga"; p_email := "olga@x"; p_address := "O";
                  p_created_at := 0%Z; p_updated_at := 0%Z |} in
  let d := {| auth_users := [{| au_id := 2%N; au_email := Some "olga@x";
                                au_raw_user_meta_data := [] |}];
              profiles := [owner];
              user_roles := [{| ur_id := 11%N; ur_user_id := 2%N;
                                ur_role := normal_user; ur_created_at := 0%Z |}];
              stores := []; ratings := [] |} in
  let e := {| select_transport := None; insert_transport := None;
              insert_env := {| now := 3%Z; gen_random_uuid := 20%N |};
              update_transport := None |} in
  let form := {| name := "Shop"; email := "shop@x"; address := "Road";
                 ownerEmail := "olga@x" |} in
  has_role d (auth_uid (Authenticated 2%N)) system_admin = false
  /\ db_after (createStore e (Authenticated 2%N) d form) = d
  /\ toasts (createStore e (Authenticated 2%N) d form)
     = [toast_error (Some "new row violates row-level security policy for table stores")].
Proof.
  intros owner d e form.
  assert (Hna : has_role d (auth_uid (Authenticated 2%N)) system_admin = false)
    by reflexivity.
  split; [exact Hna|]. split; [|reflexivity].
  exact (proj1 (createStore_needs_admin e (Authenticated 2%N) d form eq_refl Hna)).
Defined.

(** X12. When an admin creates a store for another user who has one role
    row, and the three requests go through, the store is added with that
    user as owner and the user's role becomes store_owner: it is then
    their current role and the only one they hold. *)
Theorem createStore_makes_store_owner
        (e : createStore_env) (a : uuid) (d : db) (form : newStore)
        (owner : profile) (ur : user_role) :
  has_role d (Some a) system_admin = true ->
  p_id owner <> a ->
  select_transport e = None -> insert_transport e = None ->
  update_transport e = None ->
  single (select_profiles d (Authenticated a)
            (fun p => String.eqb (p_email p) (ownerEmail form))) = Some owner ->
  ~ In (gen_random_uuid (insert_env e)) (map s_id (stores d)) ->
  In (p_id owner) (map au_id (auth_users d)) ->
  NoDup (map user_role_key (user_roles d)) ->
  filter (fun x => N.eqb (ur_user_id x) (p_id owner)) (user_roles d) = [ur] ->
  let r := createStore e (Authenticated a) d form in
  toasts r = [toast_success "Store created successfully"]
  /\ role_update_error r = None
  /\ stores (db_after r)
     = stores d ++
       [{| s_id := gen_random_uuid (insert_env e); s_owner_id := p_id owner;
           s_name := name form; s_email := email form; s_address := address form;
           s_created_at := now (insert_env e); s_updated_at := now (insert_env e) |}]
  /\ (forall ro, has_role (db_after r) (Some (p_id owner)) ro = true <-> ro = store_owner)
  /\ get_current_user_role (db_after r) (Authenticated (p_id owner)) = Some store_owner
  /\ has_role (db_after r) (Some a) system_admin = true.
Proof.
  intros Hadm Hneq Hst Hit Hut Hsingle Hfresh Hau Hnd Hrow r. subst r.
  unfold createStore. rewrite Hst, Hsingle.
  assert (Hins : insert_store (insert_env e) (Authenticated a) d
                   (name form) (email form) (address form) (p_id owner)
                 = Ok (set_stores d (stores d ++
                         [{| s_id := gen_random_uuid (insert_env e);
                             s_owner_id := p_id owner; s_name := name form;
                             s_email := email form; s_address := address form;
                             s_created_at := now (insert_env e);
                             s_updated_at := now (insert_env e) |}]))).
  { unfold insert_store, stores_insert. simpl. rewrite Hadm. simpl.
    apply mem_not_In in Hfresh. rewrite Hfresh. simpl.
    apply mem_In in Hau. now rewrite Hau. }
  rewrite Hins. unfold run, NormalUserDashboard.run. rewrite Hit, Hut.
  set (d1 := set_stores d _).
  assert (Hupd := update_role_single (Authenticated a) d1 (JStr "store_owner")
                    store_owner (p_id owner) eq_refl).
  rewrite Hupd.
  2:{ simpl. exact Hadm. }
  2:{ exact Hnd. }
  2:{ unfold d1. cbn [user_roles set_stores]. rewrite Hrow. simpl. lia. }
  cbn [toasts role_update_error db_after].
  split; [reflexivity|]. split; [reflexivity|]. split; [reflexivity|].
  split; [|split].
  - intros ro. rewrite has_role_after_rewrite. split.
    + now intros [-> _].
    + intros ->. split; [reflexivity|]. exists ur.
      assert (Hin : In ur (filter (fun x => N.eqb (ur_user_id x) (p_id owner))
                                  (user_roles d)))
        by (rewrite Hrow; now left).
      apply filter_In in Hin. destruct Hin as [Hin Hu]. apply N.eqb_eq in Hu.
      split; assumption.
  - unfold get_current_user_role. cbn [auth_uid user_roles set_user_roles uid_is].
    rewrite filter_map_comm.
    erewrite (filter_ext _ (fun x => N.eqb (ur_user_id x) (p_id owner))).
    + unfold d1. cbn [user_roles set_stores]. rewrite Hrow. simpl.
      assert (Hin : In ur (filter (fun x => N.eqb (ur_user_id x) (p_id owner))
                                  (user_roles d)))
        by (rewrite Hrow; now left).
      apply filter_In in Hin. destruct Hin as [_ Hu]. now rewrite Hu.
    + intros x. destruct (N.eqb (ur_user_id x) (p_id owner)) eqn:Hx; simpl.
      * apply N.eqb_eq in Hx. rewrite Hx. apply N.eqb_refl.
      * now rewrite N.eqb_sym.
  - apply has_role_In. apply has_role_In in Hadm.
    destruct Hadm as (x & Hin & Hu & Hr). exists x. split; [|split; assumption].
    cbn [user_roles set_user_roles]. apply in_map_iff. exists x. split; [|exact Hin].
    destruct (N.eqb (ur_user_id x) (p_id owner)) eqn:Hx; [|reflexivity].
    apply N.eqb_eq in Hx. congruence.
Qed.

Lemma createStore_makes_store_owner_witness :
  let owner := {| p_id := 2%N; p_name := "Olga"; p_email := "olga@x"; p_address := "O";
                  p_created_at := 0%Z; p_updated_at := 0%Z |} in
  let role := {| ur_id := 11%N; ur_user_id := 2%N;
                 ur_role := normal_user; ur_created_at := 0%Z |} in
  let d := {| auth_users := [{| au_id := 1%N; au_email := Some "admin@x";
                                au_raw_user_meta_data := [] |};
                             {| au_id := 2%N; au_email := Some "olga@x";
                                au_raw_user_meta_data := [] |}];
              profiles := [owner];
              user_roles := [{| ur_id := 10%N; ur_user_id := 1%N;
                                ur_role := system_admin; ur_created_at := 0%Z |};
                             role];
              stores := []; ratings := [] |} in
  let e := {| select_transport := None; insert_transport := None;
              insert_env := {| now := 3%Z; gen_random_uuid := 20%N |};
              update_transport := None |} in
  let form := {| name := "Shop"; email := "shop@x"; address := "Road";
                 ownerEmail := "olga@x" |} in
  let r := createStore e (Authenticated 1%N) d form in
  has_role d (Some 1%N) system_admin = true
  /\ NoDup (map user_role_key (user_roles d))
  /\ toasts r = [toast_success "Store created successfully"]
  /\ get_current_user_role (db_after r) (Authenticated 2%N) = Some store_owner.
Proof.
  intros owner role d e form r.
  assert (Hadm : has_role d (Some 1%N) system_admin = true) by reflexivity.
  assert (Hneq : p_id owner <> 1%N) by (simpl; discriminate).
  assert (Hfresh : ~ In (gen_random_uuid (insert_env e)) (map s_id (stores d)))
    by (simpl; tauto).
  assert (Hau : In (p_id owner) (map au_id (auth_users d)))
    by (simpl; right; left; reflexivity).
  assert (Hnd : NoDup (map user_role_key (user_roles d))).
  { simpl. constructor; [simpl; intros [Heq|[]]; discriminate|].
    constructor; [intros []|constructor]. }
  destruct (createStore_makes_store_owner e 1%N d form owner role
              Hadm Hneq eq_refl eq_refl eq_refl eq_refl Hfresh Hau Hnd eq_refl)
    as (Htoast & _ & _ & _ & Hcur & _).
  split; [exact Hadm|]. split; [exact Hnd|]. split; [exact Htoast | exact Hcur].
Defined.

End StoreCreation.

(** ** The store directory of the normal-user dashboard *)

Module StoreDirectory.
Import NormalUserDashboard RatingSubmitFacts.

Lemma NoDup_map_inj_on {X K : Type} (f : X -> K) (l : list X) (x y : X) :
  NoDup (map f l) -> In x l -> In y l -> f x = f y -> x = y.
Proof.
  induction l as [|a l IH]; simpl; intros Hnd Hx Hy Hf; [contradiction|].
  inversion Hnd as [|? ? Hnin Hnd']; subst.
  destruct Hx as [->|Hx], Hy as [->|Hy]; auto.
  - exfalso. apply Hnin. rewrite Hf. now apply in_map.
  - exfalso. apply Hnin. rewrite <- Hf. now apply in_map.
Qed.

Lemma NoDup_map_finer {X K L : Type} (f : X -> K) (g : X -> L) (l : list X) :
  NoDup (map f l) ->
  (forall x y, In x l -> In y l -> g x = g y -> f x = f y) ->
  NoDup (map g l).
Proof.
  induction l as [|a l IH]; simpl; intros Hnd Hfg; [constructor|].
  inversion Hnd as [|? ? Hnin Hnd']; subst. constructor.
  - intros Hin. apply in_map_iff in Hin. destruct Hin as (y & Hg & Hy).
    apply Hnin. rewrite (Hfg a y); auto. now apply in_map.
  - apply IH; [assumption|]. intros x y Hx Hy. apply Hfg; now right.
Qed.

(** On pairs with distinct keys the map holds exactly the pairs. *)
Lemma map_get_In (pairs : list (uuid * Z)) (key : uuid) (v : Z) :
  NoDup (map fst pairs) ->
  map_get pairs key = Some v <-> In (key, v) pairs.
Proof.
  intros Hnd. unfold map_get. split.
  - destruct (filter (fun kv => N.eqb (fst kv) key) (rev pairs))
      as [|kv rest] eqn:Hf; [discriminate|].
    intros [= <-].
    assert (Hin : In kv (filter (fun kv => N.eqb (fst kv) key) (rev pairs)))
      by (rewrite Hf; now left).
    apply filter_In in Hin. destruct Hin as [Hin Hk]. apply N.eqb_eq in Hk.
    apply in_rev in Hin. destruct kv as [k x]. simpl in *. now subst.
  - intros Hin.
    rewrite (filter_unique (fun kv => N.eqb (fst kv) key) (key, v)); [reflexivity| | | |].
    + apply NoDup_rev. eapply NoDup_map_inv. eassumption.
    + now apply in_rev in Hin.
    + simpl. apply N.eqb_refl.
    + intros y Hy Hk. apply N.eqb_eq in Hk. apply in_rev in Hy.
      apply (NoDup_map_inj_on fst pairs); auto.
Qed.

Lemma own_pairs_distinct (d : db) (uid : uuid) :
  NoDup (map rating_key (ratings d)) -> NoDup (map fst (own_pairs d uid)).
Proof.
  intros Hnd. rewrite own_pairs_filter, map_map. simpl.
  apply (NoDup_map_finer rating_key).
  - now apply NoDup_map_filter.
  - intros x y Hx Hy Hs. apply filter_In in Hx, Hy.
    destruct Hx as [_ Hx], Hy as [_ Hy]. apply N.eqb_eq in Hx, Hy.
    unfold rating_key. congruence.
Qed.

(** X13. What fetchStores lists is what the database holds: one entry
    per store, in whatever order the view returns them, and in each entry
    user_rating is the value of the caller's own rating row for that
    store, and is undefined exactly when the caller has no such row. *)
Theorem listing_shows_own_ratings (d : db) (st : state) (uid : uuid) :
  user st = Some uid ->
  NoDup (map s_id (Schema.stores d)) ->
  NoDup (map rating_key (ratings d)) ->
  let st' := fetchStores None None d st in
  Permutation (map id (stores st')) (map s_id (Schema.stores d))
  /\ forall entry, In entry (stores st') ->
       (forall v, user_rating entry = Some v
                  <-> exists r, In r (ratings d) /\ r_user_id r = uid
                                /\ r_store_id r = id entry /\ r_rating r = v)
       /\ (user_rating entry = None
           <-> ~ In (uid, id entry) (map rating_key (ratings d))).
Proof.
  intros Hu Hpk Hkeys st'. subst st'.
  destruct (fetchStores_listing d st uid Hu) as [_ ->]. split.
  - rewrite store_ratings_rows by assumption.
    rewrite !map_map. apply Permutation_refl.
  - intros entry Hentry. apply in_map_iff in Hentry.
    destruct Hentry as (row & <- & _). cbn [user_rating id listing_of].
    assert (Hget : forall v,
               map_get (own_pairs d uid) (sr_id row) = Some v
               <-> exists r, In r (ratings d) /\ r_user_id r = uid
                             /\ r_store_id r = sr_id row /\ r_rating r = v).
    { intros v. rewrite (map_get_In _ _ _ (own_pairs_distinct d uid Hkeys)).
      rewrite own_pairs_filter, in_map_iff. split.
      - intros (r & [= Hs Hv] & Hr). apply filter_In in Hr.
        destruct Hr as [Hr Hu']. apply N.eqb_eq in Hu'. eauto.
      - intros (r & Hr & Hu' & Hs & Hv). exists r. split; [congruence|].
        apply filter_In. split; [assumption|]. now apply N.eqb_eq. }
    split; [exact Hget|]. split.
    + intros Hnone Hin. apply in_map_iff in Hin. destruct Hin as (r & Hk & Hr).
      unfold rating_key in Hk. injection Hk as Hu' Hs.
      assert (Hsome : map_get (own_pairs d uid) (sr_id row) = Some (r_rating r))
        by (apply Hget; eauto).
      congruence.
    + intros Hnin. apply map_get_none. now apply own_pairs_unrated.
Qed.

Lemma listing_shows_own_ratings_witness :
  let shop i := {| s_id := i; s_owner_id := 1%N; s_name := "Shop";
                   s_email := "s@x"; s_address := "Road";
                   s_created_at := 0%Z; s_updated_at := 0%Z |} in
  let d := {| auth_users := []; profiles := []; user_roles := [];
              Schema.stores := [shop 7%N; shop 8%N];
              ratings := [{| r_id := 30%N; r_user_id := 1%N; r_store_id := 8%N;
                             r_rating := 4%Z; r_created_at := 1%Z;
                             r_updated_at := 1%Z |}] |} in
  let st := {| user := Some 1%N; stores := []; selectedStore := None;
               rating := 0%Z |} in
  NoDup (map s_id (Schema.stores d))
  /\ NoDup (map rating_key (ratings d))
  /\ Permutation (map id (stores (fetchStores None None d st))) [8%N; 7%N]
  /\ forall entry, In entry (stores (fetchStores None None d st)) ->
       (id entry = 8%N -> user_rating entry = Some 4%Z)
       /\ (id entry = 7%N -> user_rating entry = None).
Proof.
  intros shop d st.
  assert (Hpk : NoDup (map s_id (Schema.stores d))).
  { simpl. constructor; [simpl; intros [Heq|[]]; discriminate|].
    constructor; [intros []|constructor]. }
  assert (Hkeys : NoDup (map rating_key (ratings d)))
    by (simpl; constructor; [intros []|constructor]).
  destruct (listing_shows_own_ratings d st 1%N eq_refl Hpk Hkeys) as [Hids Hown].
  split; [exact Hpk|]. split; [exact Hkeys|]. split.
  - exact (Permutation_trans Hids (perm_swap _ _ _)).
  - intros entry Hentry. destruct (Hown entry Hentry) as [Hsome Hnone]. split.
    + intros Hid. apply Hsome. eexists. split; [left; reflexivity|].
      rewrite Hid. repeat split.
    + intros Hid. apply Hnone. rewrite Hid. simpl. intros [Heq|[]]. discriminate.
Defined.

(** X14. Submitting from a listing that does not yet show the caller's
    rating cannot duplicate or overwrite it: the insert path is taken,
    the request is refused, the database and the dialog are left as they
    were and an error notice is shown. *)
Theorem stale_listing_cannot_overwrite
        (e : submit_env) (d : db) (st : state) (sel : StoreWithRating) (uid : uuid) :
  selectedStore st = Some sel -> user st = Some uid -> rating st <> 0%Z ->
  truthy_number (user_rating sel) = false ->
  In (uid, id sel) (map rating_key (ratings d)) ->
  let r := handleRatingSubmit e d st in
  calls r = [InsertRating uid (id sel) (rating st)]
  /\ db_after r = d
  /\ state_after r = st
  /\ exists msg, toasts r = [toast_error msg].
Proof.
  intros Hsel Hu Hnz Hfalsy Hin r. subst r.
  unfold handleRatingSubmit. rewrite Hsel, Hu, Hfalsy.
  apply Z.eqb_neq in Hnz. rewrite Hnz.
  destruct (insert_rating (write_env e) (Authenticated uid) d _) as [d'|err] eqn:Hi.
  - exfalso. apply insert_rating_ok in Hi.
    destruct Hi as (u & s & n & [= <-] & [= <-] & _ & _ & Hnin & _). contradiction.
  - unfold run. destruct (write_transport e); simpl; eauto.
Qed.

Lemma stale_listing_cannot_overwrite_witness :
  let d := {| auth_users := [{| au_id := 1%N; au_email := Some "a@x";
                                au_raw_user_meta_data := [] |}];
              profiles := []; user_roles := [];
              Schema.stores := [{| s_id := 7%N; s_owner_id := 1%N; s_name := "Shop";
                                   s_email := "s@x"; s_address := "Road";
                                   s_created_at := 0%Z; s_updated_at := 0%Z |}];
              ratings := [{| r_id := 30%N; r_user_id := 1%N; r_store_id := 7%N;
                             r_rating := 4%Z; r_created_at := 1%Z;
                             r_updated_at := 1%Z |}] |} in
  let sel := {| id := 7%N; name := "Shop"; address := "Road";
                average_rating := 0%Q; total_ratings := 0%Z;
                user_rating := None |} in
  let st := {| user := Some 1%N; stores := [sel]; selectedStore := Some sel;
               rating := 2%Z |} in
  let e := {| write_transport := None;
              write_env := {| now := 10%Z; gen_random_uuid := 31%N |};
              fetch_transport1 := None; fetch_transport2 := None |} in
  In (1%N, 7%N) (map rating_key (ratings d))
  /\ db_after (handleRatingSubmit e d st) = d
  /\ toasts (handleRatingSubmit e d st)
     = [toast_error (Some "duplicate key value violates unique constraint ratings_user_id_store_id_key")].
Proof.
  intros d sel st e.
  assert (Hin : In (1%N, 7%N) (map rating_key (ratings d)))
    by (simpl; left; reflexivity).
  assert (Hnz : rating st <> 0%Z) by (simpl; discriminate).
  split; [exact Hin|]. split; [|reflexivity].
  exact (proj1 (proj2 (stale_listing_cannot_overwrite e d st sel 1%N
                         eq_refl eq_refl Hnz eq_refl Hin))).
Defined.

End StoreDirectory.

Module RatingEdgeCases.
Import NormalUserDashboard RatingSubmitFacts.

(** An UPDATE whose filter and policies select no row succeeds and
    changes nothing. *)
Lemma update_ratings_no_target (env : stmt_env) (c : caller) (d : db)
      (v : rating_cols) (w : Schema.rating -> bool) :
  (forall r, In r (ratings d) ->
     w r && allowed (ratings_select d) c r && allowed (ratings_update d) c r = false) ->
  NoDup (map r_id (ratings d)) ->
  NoDup (map rating_key (ratings d)) ->
  update_ratings env c d v w = Ok d.
Proof.
  intros Hnone Hids Hkeys. unfold update_ratings. cbv zeta.
  rewrite map_if_false by exact Hnone.
  rewrite filter_none by exact Hnone. cbn [map forallb guard bind].
  replace (distinct N.eqb (map r_id (ratings d))) with true
    by (symmetry; apply distinct_NoDup; [apply N.eqb_eq | assumption]).
  replace (distinct pair_eqb (map rating_key (ratings d))) with true
    by (symmetry; apply distinct_NoDup; [apply pair_eqb_eq | assumption]).
  cbn [guard bind]. now rewrite set_ratings_same.
Qed.

(** X15. When the listing still shows a rating of the caller that the
    table no longer holds, the update path changes no row and yet
    reports success: nothing is stored, whatever value was chosen. *)
Theorem update_of_missing_rating_reports_success
        (e : submit_env) (d : db) (st : state) (sel : StoreWithRating) (uid : uuid) :
  selectedStore st = Some sel -> user st = Some uid -> rating st <> 0%Z ->
  truthy_number (user_rating sel) = true ->
  write_transport e = None ->
  ~ In (uid, id sel) (map rating_key (ratings d)) ->
  NoDup (map r_id (ratings d)) ->
  NoDup (map rating_key (ratings d)) ->
  let r := handleRatingSubmit e d st in
  calls r = [UpdateRating (rating st) uid (id sel)]
  /\ db_after r = d
  /\ toasts r = [toast_success "Rating updated successfully"].
Proof.
  intros Hsel Hu Hnz Htruthy Hw Hnin Hids Hkeys r. subst r.
  unfold handleRatingSubmit. rewrite Hsel, Hu, Htruthy, Hw.
  apply Z.eqb_neq in Hnz. rewrite Hnz.
  rewrite update_ratings_no_target; [simpl; auto | | assumption | assumption].
  intros x Hx.
  destruct (N.eqb (r_user_id x) uid) eqn:Hxu; [|reflexivity].
  destruct (N.eqb (r_store_id x) (id sel)) eqn:Hxs; [|reflexivity].
  exfalso. apply Hnin. apply N.eqb_eq in Hxu, Hxs.
  apply in_map_iff. exists x. split; [|assumption].
  unfold rating_key. now rewrite Hxu, Hxs.
Qed.

Lemma update_of_missing_rating_reports_success_witness :
  let d := {| auth_users := [{| au_id := 1%N; au_email := Some "a@x";
                                au_raw_user_meta_data := [] |}];
              profiles := []; user_roles := [];
              Schema.stores := [{| s_id := 7%N; s_owner_id := 1%N; s_name := "Shop";
                                   s_email := "s@x"; s_address := "Road";
                                   s_created_at := 0%Z; s_updated_at := 0%Z |}];
              ratings := [] |} in
  let sel := {| id := 7%N; name := "Shop"; address := "Road";
                average_rating := inject_Z 4; total_ratings := 1%Z;
                user_rating := Some 4%Z |} in
  let st := {| user := Some 1%N; stores := [sel]; selectedStore := Some sel;
               rating := 2%Z |} in
  let e := {| write_transport := None;
              write_env := {| now := 10%Z; gen_random_uuid := 31%N |};
              fetch_transport1 := None; fetch_transport2 := None |} in
  ~ In (1%N, 7%N) (map rating_key (ratings d))
  /\ ratings (db_after (handleRatingSubmit e d st)) = []
  /\ toasts (handleRatingSubmit e d st)
     = [toast_success "Rating updated successfully"].
Proof.
  intros d sel st e.
  assert (Hnin : ~ In (1%N, 7%N) (map rating_key (ratings d))) by (simpl; tauto).
  assert (Hnz : rating st <> 0%Z) by (simpl; discriminate).
  assert (Hids : NoDup (map r_id (ratings d))) by constructor.
  assert (Hkeys : NoDup (map rating_key (ratings d))) by constructor.
  split; [exact Hnin|]. split; [reflexivity|].
  exact (proj2 (proj2 (update_of_missing_rating_reports_success e d st sel 1%N
                         eq_refl eq_refl Hnz eq_refl eq_refl Hnin Hids Hkeys))).
Defined.

End RatingEdgeCases.

(** ** Star rows *)

Section Stars.

Lemma Qle_bool_floor (k : Z) (r : Q) :
  Qle_bool (inject_Z k) r = (k <=? Qfloor r)%Z.
Proof.
  apply eq_true_iff_eq. rewrite Qle_bool_iff, Z.leb_le. split.
  - intros Hle. rewrite <- (Qfloor_Z k). now apply Qfloor_resp_le.
  - intros Hle. apply Qle_trans with (inject_Z (Qfloor r)).
    + now rewrite <- Zle_Qle.
    + apply Qfloor_le.
Qed.

Lemma Qgt_bool_ceiling (i : Z) (r : Q) :
  negb (Qle_bool r (inject_Z i)) = (i <? Qceiling r)%Z.
Proof.
  rewrite Z.ltb_antisym. f_equal.
  apply eq_true_iff_eq. rewrite Qle_bool_iff, Z.leb_le. split.
  - intros Hle. rewrite <- (Qceiling_Z i). now apply Qceiling_resp_le.
  - intros Hle. apply Qle_trans with (inject_Z (Qceiling r)).
    + apply Qle_ceiling.
    + now rewrite <- Zle_Qle.
Qed.

Lemma stars_up_to (f : Z) :
  map (fun index => (Z.of_nat index + 1 <=? f)%Z) (seq 0 5)
  = repeat true (clamp5 f) ++ repeat false (5 - clamp5 f).
Proof.
  unfold clamp5. cbn [seq map Z.of_nat]. simpl Z.add.
  assert (Hf : (f <= 0 \/ f = 1 \/ f = 2 \/ f = 3 \/ f = 4 \/ 5 <= f)%Z) by lia.
  destruct Hf as [Hf|[Hf|[Hf|[Hf|[Hf|Hf]]]]];
    repeat match goal with
           | |- context [(?a <=? f)%Z] =>
               destruct (Z.leb_spec a f); try lia
           end.
  - replace (Z.to_nat (Z.max 0 (Z.min 5 f))) with 0%nat by lia. reflexivity.
  - subst f. reflexivity.
  - subst f. reflexivity.
  - subst f. reflexivity.
  - subst f. reflexivity.
  - replace (Z.to_nat (Z.max 0 (Z.min 5 f))) with 5%nat by lia. reflexivity.
Qed.

End Stars.

(** X16. The star rows show the rating as a run of filled stars followed
    by empty ones, five in all.  The store directory fills as many stars
    as the rating rounded down (between 0 and 5), and in the rating
    dialog the star under the pointer takes the place of the rating; the
    owner dashboard fills as many as the rating rounded up.  On whole
    numbers the two agree. *)
Theorem stars_show_the_rating (hovered r : Q) :
  NormalUserDashboard.renderStars hovered r false
  = repeat true (clamp5 (Qfloor r)) ++ repeat false (5 - clamp5 (Qfloor r))
  /\ NormalUserDashboard.renderStars hovered r true
     = NormalUserDashboard.renderStars hovered
         (if Qeq_bool hovered 0 then r else hovered) false
  /\ StoreOwnerDashboard.renderStars r
     = repeat true (clamp5 (Qceiling r)) ++ repeat false (5 - clamp5 (Qceiling r))
  /\ forall n : Z,
       NormalUserDashboard.renderStars hovered (inject_Z n) false
       = StoreOwnerDashboard.renderStars (inject_Z n).
Proof.
  assert (Hdir : forall h x,
             NormalUserDashboard.renderStars h x false
             = repeat true (clamp5 (Qfloor x)) ++ repeat false (5 - clamp5 (Qfloor x))).
  { intros h x. unfold NormalUserDashboard.renderStars.
    rewrite <- stars_up_to. apply map_ext. intros i. cbv zeta.
    apply Qle_bool_floor. }
  assert (Hown : forall x,
             StoreOwnerDashboard.renderStars x
             = repeat true (clamp5 (Qceiling x)) ++ repeat false (5 - clamp5 (Qceiling x))).
  { intros x. unfold StoreOwnerDashboard.renderStars.
    rewrite <- stars_up_to. apply map_ext. intros i.
    rewrite Qgt_bool_ceiling. apply eq_true_iff_eq.
    rewrite Z.ltb_lt, Z.leb_le. lia. }
  split; [apply Hdir|]. split; [reflexivity|]. split; [apply Hown|].
  intros n. rewrite Hdir, Hown. now rewrite Qfloor_Z, Qceiling_Z.
Qed.

(** ** The store-owner dashboard *)

Module OwnerDashboardFacts.
Import StoreOwnerDashboard.

Lemma insert_desc_perm (r : Schema.rating) (l : list Schema.rating) :
  Permutation (insert_desc r l) (r :: l).
Proof.
  induction l as [|x xs IH]; simpl; [reflexivity|].
  destruct (r_created_at x <? r_created_at r)%Z; [reflexivity|].
  rewrite IH. apply perm_swap.
Qed.

Lemma order_perm (l : list Schema.rating) :
  Permutation (order_created_at_desc l) l.
Proof.
  induction l as [|x xs IH]; simpl; [reflexivity|].
  rewrite insert_desc_perm. now constructor.
Qed.

Lemma insert_desc_hd (x r : Schema.rating) (xs : list Schema.rating) :
  newer_first x r -> HdRel newer_first x xs ->
  HdRel newer_first x (insert_desc r xs).
Proof.
  intros Hxr Hhd. destruct xs as [|y ys]; simpl; [now constructor|].
  destruct (r_created_at y <? r_created_at r)%Z; constructor;
    [assumption | now inversion Hhd].
Qed.

Lemma insert_desc_sorted (r : Schema.rating) (l : list Schema.rating) :
  Sorted newer_first l -> Sorted newer_first (insert_desc r l).
Proof.
  induction l as [|x xs IH]; simpl; intros Hs; [repeat constructor|].
  inversion Hs as [|? ? Hxs Hhd]; subst.
  destruct (r_created_at x <? r_created_at r)%Z eqn:Hlt.
  - constructor; [assumption|]. constructor.
    apply Z.ltb_lt in Hlt. unfold newer_first. lia.
  - constructor; [now apply IH|].
    apply insert_desc_hd; [|assumption].
    apply Z.ltb_ge in Hlt. exact Hlt.
Qed.

Lemma order_sorted (l : list Schema.rating) :
  Sorted newer_first (order_created_at_desc l).
Proof.
  induction l as [|x xs IH]; simpl; [constructor | now apply insert_desc_sorted].
Qed.

(** The caller's stores in the view are the caller's stores. *)
Lemma owned_in_view (d : db) (uid : uuid) :
  NoDup (map s_id (stores d)) ->
  map sr_id (filter (fun row => N.eqb (sr_owner_id row) uid) (store_ratings d))
  = map s_id (filter (fun s => N.eqb (s_owner_id s) uid) (stores d)).
Proof.
  intros Hpk. rewrite store_ratings_rows by assumption.
  rewrite filter_map_comm, map_map. reflexivity.
Qed.

Lemma single_length {A : Type} (l : list A) :
  List.length l <> 1%nat -> single l = None.
Proof. destruct l as [|a [|b rest]]; simpl; intros Hl; congruence. Qed.

Lemma Sorted_map {A B : Type} (R : A -> A -> Prop) (R' : B -> B -> Prop)
      (f : A -> B) (l : list A) :
  (forall a b, R a b -> R' (f a) (f b)) ->
  Sorted R l -> Sorted R' (map f l).
Proof.
  intros HR. induction 1 as [|a l Hs IH Hhd]; simpl; constructor; [assumption|].
  destruct Hhd; simpl; constructor. now apply HR.
Qed.

Lemma map_get_absent {V : Type} (pairs : list (uuid * V)) (key : uuid) :
  (forall kv, In kv pairs -> fst kv <> key) -> map_get pairs key = None.
Proof.
  intros Habs. unfold map_get. rewrite filter_none; [reflexivity|].
  intros kv Hkv. apply N.eqb_neq. apply Habs. now apply in_rev.
Qed.

Lemma select_ratings_public (d : db) (c : caller) (w : Schema.rating -> bool) :
  select_ratings d c w = filter w (Schema.ratings d).
Proof.
  unfold select_ratings. f_equal. apply filter_all. intros r _.
  unfold allowed, ratings_select. apply orb_true_r.
Qed.

(** X17. A store owner who owns exactly one store gets that store's view
    row and the list of its ratings: every rating of the store once, with
    its id, value and time, the newest first. *)
Theorem owner_sees_ratings_newest_first
        (t3 : transport) (d : db) (uid : uuid) (s : store) (st : state) :
  NoDup (map s_id (stores d)) ->
  filter (fun x => N.eqb (s_owner_id x) uid) (stores d) = [s] ->
  let st' := fetchStoreData None None t3 d (Some uid) st in
  (exists sd, storeInfo st' = Some sd
              /\ sr_id sd = s_id s /\ sr_name sd = s_name s
              /\ total_ratings sd = Z.of_nat (List.length (matching s (Schema.ratings d))))
  /\ Sorted (fun x y => (created_at y <= created_at x)%Z) (ratings st')
  /\ Permutation
       (map (fun x => (id x, rating x, created_at x)) (ratings st'))
       (map (fun r => (r_id r, r_rating r, r_created_at r))
            (filter (fun r => N.eqb (r_store_id r) (s_id s)) (Schema.ratings d))).
Proof.
  intros Hpk Hown st'. subst st'. unfold fetchStoreData.
  rewrite store_ratings_rows by assumption.
  rewrite filter_map_comm. cbn [sr_owner_id]. rewrite Hown. cbn [map single].
  cbn [storeInfo ratings sr_id]. rewrite select_ratings_public.
  split; [eexists; split; [reflexivity|]; repeat split|]. split.
  - apply (Sorted_map newer_first); [|apply order_sorted].
    intros a b Hab. exact Hab.
  - rewrite map_map. cbn [id rating created_at].
    apply Permutation_map. apply order_perm.
Qed.

Lemma owner_sees_ratings_newest_first_witness :
  let shop := {| s_id := 7%N; s_owner_id := 2%N; s_name := "Shop";
                 s_email := "s@x"; s_address := "Road";
                 s_created_at := 0%Z; s_updated_at := 0%Z |} in
  let r i u t := {| r_id := i; r_user_id := u; r_store_id := 7%N; r_rating := 3%Z;
                    r_created_at := t; r_updated_at := t |} in
  let d := {| auth_users := []; profiles := []; user_roles := [];
              stores := [shop];
              Schema.ratings := [r 30%N 1%N 5%Z; r 31%N 3%N 9%Z; r 32%N 4%N 7%Z] |} in
  let st := {| storeInfo := None; ratings := [] |} in
  NoDup (map s_id (stores d))
  /\ map id (ratings (fetchStoreData None None None d (Some 2%N) st))
     = [31%N; 32%N; 30%N]
  /\ Sorted (fun x y => (created_at y <= created_at x)%Z)
            (ratings (fetchStoreData None None None d (Some 2%N) st)).
Proof.
  intros shop r d st.
  assert (Hpk : NoDup (map s_id (stores d)))
    by (simpl; constructor; [intros []|constructor]).
  split; [exact Hpk|]. split; [reflexivity|].
  exact (proj1 (proj2 (owner_sees_ratings_newest_first None d 2%N shop st
                         Hpk eq_refl))).
Defined.

Lemma raters_formatted (pm : list (uuid * profile)) (uid : uuid)
      (rows : list Schema.rating) :
  (forall kv, In kv pm -> fst kv = uid) ->
  Forall2 (fun r x =>
             id x = r_id r /\ rating x = r_rating r
             /\ (r_user_id r <> uid ->
                 user_name x = "Unknown" /\ user_email x = "Unknown"
                 /\ user_address x = "Unknown"))
          rows
          (map (fun r =>
                  let profile := map_get pm (r_user_id r) in
                  {| id := r_id r; rating := r_rating r;
                     created_at := r_created_at r;
                     user_name := or_unknown (option_map p_name profile);
                     user_email := or_unknown (option_map p_email profile);
                     user_address := or_unknown (option_map p_address profile) |})
               rows).
Proof.
  intros Hkeys. induction rows as [|r rows IH]; simpl; constructor; [|exact IH].
  split; [reflexivity|]. split; [reflexivity|]. intros Hother.
  rewrite map_get_absent; [repeat split|].
  intros kv Hkv Heq. apply Hother. rewrite <- Heq. now apply Hkeys.
Qed.

(** X18. A store owner who does not hold system_admin cannot read the
    profiles of other users, so every rating given by someone else is
    listed with name, e-mail and address 'Unknown'. *)
Theorem owner_sees_other_raters_as_unknown
        (t3 : transport) (d : db) (uid : uuid) (sd : store_ratings_row) (st : state) :
  has_role d (Some uid) system_admin = false ->
  single (filter (fun row => N.eqb (sr_owner_id row) uid) (store_ratings d))
  = Some sd ->
  Forall2 (fun r x =>
             id x = r_id r /\ rating x = r_rating r
             /\ (r_user_id r <> uid ->
                 user_name x = "Unknown" /\ user_email x = "Unknown"
                 /\ user_address x = "Unknown"))
          (order_created_at_desc
             (filter (fun r => N.eqb (r_store_id r) (sr_id sd)) (Schema.ratings d)))
          (ratings (fetchStoreData None None t3 d (Some uid) st)).
Proof.
  intros Hna Hsd. unfold fetchStoreData. rewrite Hsd. cbn [ratings].
  rewrite select_ratings_public.
  destruct t3 as [err|]; apply raters_formatted.
  - intros kv [].
  - intros kv Hkv. apply in_map_iff in Hkv. destruct Hkv as (p & <- & Hp).
    unfold select_profiles in Hp. apply filter_In in Hp. destruct Hp as [Hp _].
    rewrite (profiles_visible_non_admin d uid Hna) in Hp.
    apply filter_In in Hp. destruct Hp as [_ Hid]. apply N.eqb_eq in Hid.
    simpl. now symmetry.
Qed.

Lemma owner_sees_other_raters_as_unknown_witness :
  let shop := {| s_id := 7%N; s_owner_id := 2%N; s_name := "Shop";
                 s_email := "s@x"; s_address := "Road";
                 s_created_at := 0%Z; s_updated_at := 0%Z |} in
  let prof i n := {| p_id := i; p_name := n; p_email := "e@x"; p_address := "A";
                     p_created_at := 0%Z; p_updated_at := 0%Z |} in
  let d := {| auth_users := []; profiles := [prof 1%N "Ann"; prof 2%N "Olga"];
              user_roles := [{| ur_id := 11%N; ur_user_id := 2%N;
                                ur_role := store_owner; ur_created_at := 0%Z |}];
              stores := [shop];
              Schema.ratings := [{| r_id := 30%N; r_user_id := 1%N; r_store_id := 7%N;
                                    r_rating := 3%Z; r_created_at := 5%Z;
                                    r_updated_at := 5%Z |}] |} in
  let st := {| storeInfo := None; ratings := [] |} in
  has_role d (Some 2%N) system_admin = false
  /\ map user_name (ratings (fetchStoreData None None None d (Some 2%N) st))
     = ["Unknown"]
  /\ Forall2 (fun r x =>
                id x = r_id r /\ rating x = r_rating r
                /\ (r_user_id r <> 2%N ->
                    user_name x = "Unknown" /\ user_email x = "Unknown"
                    /\ user_address x = "Unknown"))
             (order_created_at_desc
                (filter (fun r => N.eqb (r_store_id r) 7%N) (Schema.ratings d)))
             (ratings (fetchStoreData None None None d (Some 2%N) st)).
Proof.
  intros shop prof d st.
  assert (Hna : has_role d (Some 2%N) system_admin = false) by reflexivity.
  split; [exact Hna|]. split; [reflexivity|].
  exact (owner_sees_other_raters_as_unknown None d 2%N _ st Hna eq_refl).
Defined.

(** X19. The owner dashboard loads a store only for a user who owns
    exactly one: for a user with no store, or with two or more, nothing
    is loaded and the state stays as it was. *)
Theorem owner_without_single_store_sees_none
        (t1 t2 t3 : transport) (d : db) (uid : uuid) (st : state) :
  NoDup (map s_id (stores d)) ->
  List.length (filter (fun s => N.eqb (s_owner_id s) uid) (stores d)) <> 1%nat ->
  fetchStoreData t1 t2 t3 d (Some uid) st = st.
Proof.
  intros Hpk Hlen. unfold fetchStoreData.
  destruct t1 as [err|]; [reflexivity|].
  rewrite single_length; [reflexivity|].
  rewrite <- (length_map sr_id), owned_in_view, length_map; assumption.
Qed.

Lemma owner_without_single_store_sees_none_witness :
  let shop i := {| s_id := i; s_owner_id := 2%N; s_name := "Shop";
                   s_email := "s@x"; s_address := "Road";
                   s_created_at := 0%Z; s_updated_at := 0%Z |} in
  let d := {| auth_users := []; profiles := []; user_roles := [];
              stores := [shop 7%N; shop 8%N]; Schema.ratings := [] |} in
  let st := {| storeInfo := None; ratings := [] |} in
  NoDup (map s_id (stores d))
  /\ fetchStoreData None None None d (Some 2%N) st = st.
Proof.
  intros shop d st.
  assert (Hpk : NoDup (map s_id (stores d))).
  { simpl. constructor; [simpl; intros [Heq|[]]; discriminate|].
    constructor; [intros []|constructor]. }
  assert (Hlen : List.length (filter (fun s => N.eqb (s_owner_id s) 2%N) (stores d))
                 <> 1%nat) by (simpl; discriminate).
  split; [exact Hpk|].
  exact (owner_without_single_store_sees_none None None None d 2%N st Hpk Hlen).
Defined.

End OwnerDashboardFacts.

(** ** Updates of stores and profiles under the policies *)

(** X20. A signed-in caller C who does not hold system_admin can update
    only stores they own, and cannot pass one on: after a successful
    UPDATE the stores owned by others are exactly the ones before, row
    for row, and every row C changed is still owned by C and carries the
    statement's time as updated_at. *)
Theorem stores_of_others_untouched
        (env : stmt_env) (C : uuid) (d d' : db) (v : store_cols) (w : store -> bool) :
  has_role d (Some C) system_admin = false ->
  update_stores env (Authenticated C) d v w = Ok d' ->
  filter (fun s => negb (N.eqb (s_owner_id s) C)) (stores d')
  = filter (fun s => negb (N.eqb (s_owner_id s) C)) (stores d)
  /\ (forall s', In s' (stores d') ->
        In s' (stores d) \/ (s_owner_id s' = C /\ s_updated_at s' = now env))
  /\ ratings d' = ratings d /\ profiles d' = profiles d
  /\ user_roles d' = user_roles d.
Proof.
  intros Hna Hu. apply update_stores_ok in Hu. destruct Hu as [-> Hchk].
  cbn [stores ratings profiles user_roles set_stores].
  assert (Hown : forall s, allowed (stores_update d) (Authenticated C) s = true ->
                           s_owner_id s = C).
  { intros s Ha. unfold allowed, stores_update in Ha. simpl in Ha.
    rewrite Hna, orb_false_r in Ha. apply N.eqb_eq in Ha. now symmetry. }
  split; [|split; [|repeat split]].
  - apply filter_map_if. intros s Hs Ht.
    assert (Hnew := Hown _ (Hchk s Hs Ht)).
    apply andb_prop in Ht. destruct Ht as [_ Hold]. apply Hown in Hold.
    rewrite Hnew, Hold, N.eqb_refl. split; reflexivity.
  - intros s' Hs'. apply in_map_iff in Hs'. destruct Hs' as (s & <- & Hs).
    destruct (w s && allowed (stores_select d) (Authenticated C) s
              && allowed (stores_update d) (Authenticated C) s) eqn:Ht.
    + right. split; [exact (Hown _ (Hchk s Hs Ht)) | reflexivity].
    + now left.
Qed.

Lemma stores_of_others_untouched_witness :
  let shop i o := {| s_id := i; s_owner_id := o; s_name := "Shop";
                     s_email := "s@x"; s_address := "Road";
                     s_created_at := 0%Z; s_updated_at := 0%Z |} in
  let user i := {| au_id := i; au_email := Some "u@x"; au_raw_user_meta_data := [] |} in
  let d := {| auth_users := [user 1%N; user 2%N]; profiles := []; user_roles := [];
              stores := [shop 7%N 1%N; shop 8%N 2%N]; ratings := [] |} in
  let rename := {| sc_id := None; sc_owner_id := None; sc_name := Some "Mine";
                   sc_email := None; sc_address := None; sc_created_at := None;
                   sc_updated_at := None |} in
  let give := {| sc_id := None; sc_owner_id := Some 2%N; sc_name := None;
                 sc_email := None; sc_address := None; sc_created_at := None;
                 sc_updated_at := None |} in
  let env := {| now := 9%Z; gen_random_uuid := 0%N |} in
  has_role d (Some 1%N) system_admin = false
  /\ update_stores env (Authenticated 1%N) d give (fun _ => true)
     = Err (rls_violation "stores")
  /\ exists d',
       update_stores env (Authenticated 1%N) d rename (fun _ => true) = Ok d'
       /\ map s_name (stores d') = ["Mine"; "Shop"]
       /\ filter (fun s => negb (N.eqb (s_owner_id s) 1%N)) (stores d')
          = [shop 8%N 2%N].
Proof.
  intros shop user d rename give env.
  assert (Hna : has_role d (Some 1%N) system_admin = false) by reflexivity.
  split; [exact Hna|]. split; [reflexivity|].
  destruct (update_stores env (Authenticated 1%N) d rename (fun _ => true))
    as [d'|e] eqn:Hu; [|vm_compute in Hu; discriminate].
  exists d'. split; [reflexivity|]. split.
  - vm_compute in Hu. injection Hu as <-. reflexivity.
  - exact (proj1 (stores_of_others_untouched env 1%N d d' rename (fun _ => true)
                    Hna Hu)).
Defined.

(** X21. A signed-in caller C who does not hold system_admin can update
    only their own profile and cannot give it another id: after a
    successful UPDATE the profiles of all other users are exactly the
    ones before. *)
Theorem profiles_of_others_untouched
        (env : stmt_env) (C : uuid) (d d' : db) (v : profile_cols)
        (w : profile -> bool) :
  has_role d (Some C) system_admin = false ->
  update_profiles env (Authenticated C) d v w = Ok d' ->
  filter (fun p => negb (N.eqb (p_id p) C)) (profiles d')
  = filter (fun p => negb (N.eqb (p_id p) C)) (profiles d)
  /\ (forall p', In p' (profiles d') ->
        In p' (profiles d) \/ (p_id p' = C /\ p_updated_at p' = now env))
  /\ user_roles d' = user_roles d /\ stores d' = stores d
  /\ ratings d' = ratings d.
Proof.
  intros Hna Hu. apply update_profiles_ok in Hu. destruct Hu as [-> Hchk].
  cbn [stores ratings profiles user_roles set_profiles].
  assert (Hown : forall p, allowed (profiles_update d) (Authenticated C) p = true ->
                           p_id p = C).
  { intros p Ha. unfold allowed, profiles_update in Ha. simpl in Ha.
    rewrite Hna, orb_false_r in Ha. apply N.eqb_eq in Ha. now symmetry. }
  split; [|split; [|repeat split]].
  - apply filter_map_if. intros p Hp Ht.
    assert (Hnew := Hown _ (Hchk p Hp Ht)).
    apply andb_prop in Ht. destruct Ht as [_ Hold]. apply Hown in Hold.
    rewrite Hnew, Hold, N.eqb_refl. split; reflexivity.
  - intros p' Hp'. apply in_map_iff in Hp'. destruct Hp' as (p & <- & Hp).
    destruct (w p && allowed (profiles_select d) (Authenticated C) p
              && allowed (profiles_update d) (Authenticated C) p) eqn:Ht.
    + right. split; [exact (Hown _ (Hchk p Hp Ht)) | reflexivity].
    + now left.
Qed.

Lemma profiles_of_others_untouched_witness :
  let prof i n := {| p_id := i; p_name := n; p_email := "e@x"; p_address := "A";
                     p_created_at := 0%Z; p_updated_at := 0%Z |} in
  let user i := {| au_id := i; au_email := Some "u@x"; au_raw_user_meta_data := [] |} in
  let d := {| auth_users := [user 1%N; user 2%N];
              profiles := [prof 1%N "Ann"; prof 2%N "Bob"];
              user_roles := []; stores := []; ratings := [] |} in
  let rename := {| pc_id := None; pc_name := Some "Zed"; pc_email := None;
                   pc_address := None; pc_created_at := None;
                   pc_updated_at := None |} in
  let env := {| now := 9%Z; gen_random_uuid := 0%N |} in
  has_role d (Some 1%N) system_admin = false
  /\ exists d',
       update_profiles env (Authenticated 1%N) d rename (fun _ => true) = Ok d'
       /\ map p_name (profiles d') = ["Zed"; "Bob"]
       /\ filter (fun p => negb (N.eqb (p_id p) 1%N)) (profiles d')
          = [prof 2%N "Bob"].
Proof.
  intros prof user d rename env.
  assert (Hna : has_role d (Some 1%N) system_admin = false) by reflexivity.
  split; [exact Hna|].
  destruct (update_profiles env (Authenticated 1%N) d rename (fun _ => true))
    as [d'|e] eqn:Hu; [|vm_compute in Hu; discriminate].
  exists d'. split; [reflexivity|]. split.
  - vm_compute in Hu. injection Hu as <-. reflexivity.
  - exact (proj1 (profiles_of_others_untouched env 1%N d d' rename (fun _ => true)
                    Hna Hu)).
Defined.

Module StoreCreationFrame.
Import SystemAdminDashboard DashboardFacts HandlerProtocol StoreCreation.

(** X22. Whoever calls createStore and whatever the transport does, the
    operation leaves identities, profiles and ratings as they were, adds
    at most one store, and changes the role rows of no user other than
    one whose profile carries the owner e-mail of the form. *)
Theorem createStore_touches_only_the_owner
        (e : createStore_env) (c : caller) (d : db) (form : newStore) :
  let r := createStore e c d form in
  auth_users (db_after r) = auth_users d
  /\ profiles (db_after r) = profiles d
  /\ ratings (db_after r) = ratings d
  /\ (exists added, stores (db_after r) = stores d ++ added
                    /\ (List.length added <= 1)%nat)
  /\ forall u,
       (forall p, In p (profiles d) ->
                  String.eqb (p_email p) (ownerEmail form) = true -> p_id p <> u) ->
       filter (fun ur => N.eqb (ur_user_id ur) u) (user_roles (db_after r))
       = filter (fun ur => N.eqb (ur_user_id ur) u) (user_roles d).
Proof.
  intros r. subst r. unfold createStore.
  assert (Hsame :
    auth_users d = auth_users d /\ profiles d = profiles d /\ ratings d = ratings d
    /\ (exists added, stores d = stores d ++ added /\ (List.length added <= 1)%nat)
    /\ forall u,
         (forall p, In p (profiles d) ->
                    String.eqb (p_email p) (ownerEmail form) = true -> p_id p <> u) ->
         filter (fun ur => N.eqb (ur_user_id ur) u) (user_roles d)
         = filter (fun ur => N.eqb (ur_user_id ur) u) (user_roles d)).
  { repeat split. exists []. rewrite app_nil_r. split; [reflexivity | simpl; lia]. }
  destruct (match select_transport e with
            | Some _ => None
            | None => single (select_profiles d c
                                (fun p => String.eqb (p_email p) (ownerEmail form)))
            end) as [owner|] eqn:Hsel; [|exact Hsame].
  assert (Howner : In owner (profiles d)
                   /\ String.eqb (p_email owner) (ownerEmail form) = true).
  { destruct (select_transport e); [discriminate|].
    apply single_In in Hsel.
    assert (Hin : In owner (select_profiles d c
                              (fun p => String.eqb (p_email p) (ownerEmail form))))
      by (rewrite Hsel; now left).
    unfold select_profiles in Hin. apply filter_In in Hin.
    destruct Hin as [Hin Hmail]. apply filter_In in Hin. tauto. }
  destruct (run (insert_transport e) d _) as [d1 [err|]] eqn:Hins.
  - apply run_failed in Hins. subst d1. exact Hsame.
  - apply run_ok in Hins. destruct Hins as [_ Hins].
    apply insert_store_ok in Hins.
    destruct (run (update_transport e) d1 _) as [d2 roleError] eqn:Hupd.
    cbn [db_after].
    assert (Hd2 : d2 = d1
                  \/ exists ro,
                       d2 = set_user_roles d1
                              (map (fun ur =>
                                      if N.eqb (ur_user_id ur) (p_id owner)
                                         && allowed (user_roles_select d1) c ur
                                         && allowed (user_roles_update d1) c ur
                                      then {| ur_id := ur_id ur;
                                              ur_user_id := ur_user_id ur;
                                              ur_role := ro;
                                              ur_created_at := ur_created_at ur |}
                                      else ur)
                                   (user_roles d1))).
    { destruct roleError as [err|].
      - left. now apply run_failed in Hupd.
      - right. apply run_ok in Hupd. destruct Hupd as [_ Hupd].
        apply update_user_roles_role_ok in Hupd.
        destruct Hupd as (ro & _ & ->). now exists ro. }
    assert (Hadded : exists added, stores d1 = stores d ++ added
                                   /\ (List.length added <= 1)%nat).
    { rewrite Hins. simpl. eexists. split; [reflexivity | simpl; lia]. }
    destruct Hd2 as [-> | (ro & ->)]; rewrite Hins in *; simpl.
    + repeat split; try assumption.
    + split; [reflexivity|]. split; [reflexivity|]. split; [reflexivity|].
      split; [assumption|].
      intros u Hu. apply filter_map_if. intros ur _ Ht.
      apply andb_prop in Ht. destruct Ht as [Ht _].
      apply andb_prop in Ht. destruct Ht as [Ht _]. apply N.eqb_eq in Ht.
      destruct Howner as [Hin Hmail].
      assert (Hneq : ur_user_id ur <> u) by (rewrite Ht; now apply Hu).
      apply N.eqb_neq in Hneq. simpl. now rewrite Hneq.
Qed.

Lemma createStore_touches_only_the_owner_witness :
  let owner := {| p_id := 2%N; p_name := "Olga"; p_email := "olga@x"; p_address := "O";
                  p_created_at := 0%Z; p_updated_at := 0%Z |} in
  let d := {| auth_users := [{| au_id := 1%N; au_email := Some "admin@x";
                                au_raw_user_meta_data := [] |};
                             {| au_id := 2%N; au_email := Some "olga@x";
                                au_raw_user_meta_data := [] |}];
              profiles := [owner];
              user_roles := [{| ur_id := 10%N; ur_user_id := 1%N;
                                ur_role := system_admin; ur_created_at := 0%Z |};
                             {| ur_id := 11%N; ur_user_id := 2%N;
                                ur_role := normal_user; ur_created_at := 0%Z |}];
              stores := []; ratings := [] |} in
  let e := {| select_transport := None; insert_transport := None;
              insert_env := {| now := 3%Z; gen_random_uuid := 20%N |};
              update_transport := None |} in
  let form := {| name := "Shop"; email := "shop@x"; address := "Road";
                 ownerEmail := "olga@x" |} in
  let r := createStore e (Authenticated 1%N) d form in
  (forall p, In p (profiles d) ->
             String.eqb (p_email p) (ownerEmail form) = true -> p_id p <> 1%N)
  /\ filter (fun ur => N.eqb (ur_user_id ur) 1%N) (user_roles (db_after r))
     = filter (fun ur => N.eqb (ur_user_id ur) 1%N) (user_roles d)
  /\ map ur_role (user_roles (db_after r)) = [system_admin; store_owner].
Proof.
  intros owner d e form r.
  assert (Hother : forall p, In p (profiles d) ->
                     String.eqb (p_email p) (ownerEmail form) = true -> p_id p <> 1%N).
  { intros p [<-|[]] _. simpl. discriminate. }
  split; [exact Hother|]. split; [|reflexivity].
  exact (proj2 (proj2 (proj2 (proj2
           (createStore_touches_only_the_owner e (Authenticated 1%N) d form))))
           1%N Hother).
Defined.

End StoreCreationFrame.
